(** * Self-healing CI/CD pipeline monitor: decision and remediation engine

    A shallow embedding of the Python sources

    - [pipeline-monitor/app/healing_engine.py]  (failure analysis, healing strategies)
    - [pipeline-monitor/app/ml_predictor.py]    (failure / healing-success prediction)
    - [pipeline-monitor/app/main.py]            (webhook failure handler, polling monitor)
    - [pipeline-monitor/app/monitor_safe.py]    (replacement polling monitor)
    - [ml-models/failure_patterns.py]           (pattern analyzer, flakiness)
    - [pipeline-monitor/app/github_monitor.py]  (test results, recent failures)
    - [pipeline-monitor/app/models.py]          (database operations)

    together with the properties the specification states about them.

    Modelling conventions.
    - Python [dict]s with string keys are [gmap string value].
    - Python [float]s are IEEE binary64 numbers, represented by the Standard
      Library's [spec_float] with [prec = 53] and [emax = 1024].
    - Text is ASCII: a [str] is a [string], the character classes of [re]
      are the ASCII ones.
    - Code that raises returns [exn + A]; code that talks to GitHub, the
      database or the metrics registry runs in a state-and-exception monad
      over an abstract world and produces a trace of events. *)

From Stdlib Require Import ZArith QArith List String Ascii Bool Lia SpecFloat.
From stdpp Require Import base decidable option list gmap strings pretty.

Import ListNotations.
Local Open Scope string_scope.
Local Open Scope Z_scope.

(* ===================================================================== *)
(** * Python values and exceptions *)
(* ===================================================================== *)

Module Py.

(** An exception is represented by its message. *)
Definition exn := string.

(** The result of code that may raise. *)
Definition result (A : Type) : Type := exn + A.

Definition float := spec_float.

(** The JSON-like values stored in the dictionaries of the program. *)
Inductive value :=
| VNone
| VBool (b : bool)
| VInt (z : Z)
| VStr (s : string)
| VList (l : list string).

#[global] Instance value_eq_dec : EqDecision value.
Proof. solve_decision. Defined.

#[global] Instance value_countable : Countable value.
Proof.
  refine (inj_countable'
            (fun v => match v with
                      | VNone => inl tt
                      | VBool b => inr (inl b)
                      | VInt z => inr (inr (inl z))
                      | VStr s => inr (inr (inr (inl s)))
                      | VList l => inr (inr (inr (inr l)))
                      end)
            (fun x => match x with
                      | inl _ => VNone
                      | inr (inl b) => VBool b
                      | inr (inr (inl z)) => VInt z
                      | inr (inr (inr (inl s))) => VStr s
                      | inr (inr (inr (inr l))) => VList l
                      end) _).
  intros []; reflexivity.
Defined.

(** A dictionary with string keys. *)
Abbreviation dict := (gmap string value).

(** [d.get(k)] *)
Definition get (d : dict) (k : string) : value :=
  match d !! k with
  | Some v => v
  | None => VNone
  end.

(** [d.get(k, dflt)] *)
Definition get_default (d : dict) (k : string) (dflt : value) : value :=
  match d !! k with
  | Some v => v
  | None => dflt
  end.

(** [k in d] *)
Definition has_key (d : dict) (k : string) : bool :=
  match d !! k with
  | Some _ => true
  | None => false
  end.

(** * Floats *)

Definition prec : Z := 53.
Definition emax : Z := 1024.

(** [a < b], [a <= b], [a > b], [a == b] on floats. *)
Definition flt (a b : float) : bool := SFltb a b.
Definition fle (a b : float) : bool := SFleb a b.
Definition fgt (a b : float) : bool := SFltb b a.
Definition fge (a b : float) : bool := SFleb b a.
Definition feq (a b : float) : bool := SFeqb a b.

(** [float(z)] for an integer [z]. *)
Definition float_of_int (z : Z) : float := binary_normalize prec emax z 0 false.

(** [a / b] on integers: the correctly rounded quotient, for operands
    below [2^53] in absolute value. *)
Definition truediv (a b : Z) : result float :=
  if Z.eqb b 0 then inl "ZeroDivisionError: division by zero"
  else inr (SFdiv prec emax (float_of_int a) (float_of_int b)).

(** The float literals of the sources, as the binary64 numbers nearest
    to the decimal constants. *)
Definition f_0_0 : float := S754_zero false.
Definition f_0_2 : float := S754_finite false 7205759403792794 (-55).
Definition f_0_3 : float := S754_finite false 5404319552844595 (-54).
Definition f_0_4 : float := S754_finite false 7205759403792794 (-54).
Definition f_0_5 : float := S754_finite false 4503599627370496 (-53).
Definition f_0_6 : float := S754_finite false 5404319552844595 (-53).
Definition f_0_7 : float := S754_finite false 6305039478318694 (-53).
Definition f_0_701 : float := S754_finite false 6314046677573435 (-53).
Definition f_0_8 : float := S754_finite false 7205759403792794 (-53).
Definition f_1_0 : float := S754_finite false 4503599627370496 (-52).

(** Truth value of a float in a condition: every float but zero. *)
Definition float_truthy (f : float) : bool := negb (feq f f_0_0).

(** Truth value of an object in a condition. *)
Definition truthy (v : value) : bool :=
  match v with
  | VNone => false
  | VBool b => b
  | VInt z => negb (Z.eqb z 0)
  | VStr s => negb (String.eqb s "")
  | VList l => match l with [] => false | _ => true end
  end.

(** * Strings *)

Definition chars (s : string) : list ascii := list_ascii_of_string s.
Definition str (l : list ascii) : string := string_of_list_ascii l.

Definition newline : ascii := ascii_of_nat 10.
Definition dquote : ascii := ascii_of_nat 34.
Definition nl : string := String newline EmptyString.

(** [str.isspace] on one ASCII character: space, [\t \n \v \f \r] and
    the separators [0x1c .. 0x1f]. *)
Definition is_space (c : ascii) : bool :=
  let n := nat_of_ascii c in
  (Nat.eqb n 32 || (Nat.leb 9 n && Nat.leb n 13) || (Nat.leb 28 n && Nat.leb n 31))%bool.

Definition is_digit (c : ascii) : bool :=
  let n := nat_of_ascii c in (Nat.leb 48 n && Nat.leb n 57)%bool.

Definition is_upper (c : ascii) : bool :=
  let n := nat_of_ascii c in (Nat.leb 65 n && Nat.leb n 90)%bool.

Definition is_lower (c : ascii) : bool :=
  let n := nat_of_ascii c in (Nat.leb 97 n && Nat.leb n 122)%bool.

Definition is_word (c : ascii) : bool :=
  (is_upper c || is_lower c || is_digit c || Ascii.eqb c "_"%char)%bool.

Definition lower_char (c : ascii) : ascii :=
  if is_upper c then ascii_of_nat (nat_of_ascii c + 32) else c.

(** [s.lower()] *)
Definition lower (s : string) : string := str (map lower_char (chars s)).

Fixpoint drop_while (p : ascii -> bool) (l : list ascii) : list ascii :=
  match l with
  | [] => []
  | c :: l' => if p c then drop_while p l' else l
  end.

(** [s.lstrip()] and [s.strip()] without argument: strip whitespace. *)
Definition lstrip_ws (l : list ascii) : list ascii := drop_while is_space l.
Definition rstrip_ws (l : list ascii) : list ascii := rev (drop_while is_space (rev l)).
Definition strip (s : string) : string := str (rstrip_ws (lstrip_ws (chars s))).

(** [s.lstrip(cs)]: strip the leading characters that occur in [cs]. *)
Definition lstrip_chars (cs : string) (s : string) : string :=
  str (drop_while (fun c => existsb (Ascii.eqb c) (chars cs)) (chars s)).

Fixpoint starts_with (p l : list ascii) : bool :=
  match p, l with
  | [], _ => true
  | _ :: _, [] => false
  | a :: p', b :: l' => (Ascii.eqb a b && starts_with p' l')%bool
  end.

Fixpoint contains (p l : list ascii) : bool :=
  (starts_with p l ||
   match l with
   | [] => false
   | _ :: l' => contains p l'
   end)%bool.

(** [sub in s] on strings. *)
Definition str_in (sub s : string) : bool := contains (chars sub) (chars s).

(** [len(s)] *)
Definition len (s : string) : Z := Z.of_nat (String.length s).

End Py.

(* ===================================================================== *)
(** * Regular expressions: the fragment of [re] the sources use *)
(* ===================================================================== *)

Module Re.
Import Py.

(** Character sets: [\w], [\d], [\s], [\S] and bracket lists. *)
Inductive cset :=
| CWord
| CDigit
| CSpace
| CNotSpace
| COneOf (cs : list ascii).

(** Patterns.  [Group] is a capturing group; every pattern of the
    sources has at most one.  [Star] is the greedy [*]. *)
Inductive regex :=
| Eps
| Chr (c : ascii)
| Dot
| Cls (cs : cset)
| Seq (r1 r2 : regex)
| Alt (r1 r2 : regex)
| Star (r : regex)
| Group (r : regex).

(** [r+] *)
Definition Plus (r : regex) : regex := Seq r (Star r).

(** A run of literal characters. *)
Fixpoint lit_chars (l : list ascii) : regex :=
  match l with
  | [] => Eps
  | [c] => Chr c
  | c :: l' => Seq (Chr c) (lit_chars l')
  end.

Definition lit (s : string) : regex := lit_chars (chars s).

Declare Scope re_scope.
Delimit Scope re_scope with re.
Infix "⋅" := Seq (at level 41, right associativity) : re_scope.

(** Does [c] belong to the set?  [ic] is the [re.IGNORECASE] flag. *)
Definition cset_mem (ic : bool) (cs : cset) (c : ascii) : bool :=
  match cs with
  | CWord => is_word c
  | CDigit => is_digit c
  | CSpace => is_space c
  | CNotSpace => negb (is_space c)
  | COneOf l =>
      if ic then existsb (fun x => Ascii.eqb (lower_char x) (lower_char c)) l
      else existsb (fun x => Ascii.eqb x c) l
  end.

Definition chr_eq (ic : bool) (p c : ascii) : bool :=
  if ic then Ascii.eqb (lower_char p) (lower_char c) else Ascii.eqb p c.

Section Matcher.
Context {R : Type}.
Variable ic : bool.

(** Backtracking matcher in continuation-passing style.
    [go r s g k] matches [r] at the start of [s]; [g] is the text of
    group 1 so far; [k] receives the unread rest of the input and the
    group.  Alternatives are tried left to right and [Star] takes the
    longest run first, as [re] does.  An iteration of [Star] has to
    consume input. *)
Fixpoint go (r : regex) (s : list ascii) (g : option (list ascii))
         (k : list ascii -> option (list ascii) -> option R) {struct r} : option R :=
  match r with
  | Eps => k s g
  | Chr p =>
      match s with
      | c :: s' => if chr_eq ic p c then k s' g else None
      | [] => None
      end
  | Dot =>
      match s with
      | c :: s' => if Ascii.eqb c newline then None else k s' g
      | [] => None
      end
  | Cls cs =>
      match s with
      | c :: s' => if cset_mem ic cs c then k s' g else None
      | [] => None
      end
  | Seq r1 r2 => go r1 s g (fun s1 g1 => go r2 s1 g1 k)
  | Alt r1 r2 =>
      match go r1 s g k with
      | Some x => Some x
      | None => go r2 s g k
      end
  | Star r1 =>
      (fix star (fuel : nat) (s0 : list ascii) (g0 : option (list ascii)) {struct fuel} : option R :=
         match fuel with
         | O => k s0 g0
         | S fuel' =>
             match go r1 s0 g0
                      (fun s1 g1 =>
                         if Nat.ltb (length s1) (length s0) then star fuel' s1 g1 else None)
             with
             | Some x => Some x
             | None => k s0 g0
             end
         end) (length s) s g
  | Group r1 =>
      go r1 s g (fun s1 _ => k s1 (Some (firstn (length s - length s1) s)))
  end.
End Matcher.

(** A match object: [m.group(0)] and [m.group(1)] ([None] when the
    pattern has no group, which is when [m.lastindex] is [None]). *)
Record match_obj := { group0 : string; group1 : option string }.

Definition match_at (ic : bool) (r : regex) (s : list ascii) : option match_obj :=
  go ic r s None
     (fun rest g =>
        Some {| group0 := str (firstn (length s - length rest) s);
                group1 := option_map str g |}).

(** [re.search(r, s)]: the match at the leftmost position that has one. *)
Fixpoint search_chars (ic : bool) (r : regex) (s : list ascii) : option match_obj :=
  match match_at ic r s with
  | Some m => Some m
  | None =>
      match s with
      | [] => None
      | _ :: s' => search_chars ic r s'
      end
  end.

Definition search (ic : bool) (r : regex) (s : string) : option match_obj :=
  search_chars ic r (chars s).

End Re.


(* ===================================================================== *)
(** * Effects: the world, the trace and the monad *)
(* ===================================================================== *)

Module Eff.
Import Py.

(** A file of the repository as PyGithub returns it. *)
Record repo_file := { decoded_content : string; sha : string }.

(** What the program does to its surroundings, in the order it happens:
    calls of the metrics registry, of the GitHub client, of the database
    and of the notification channel, and the log lines that report a
    decision. *)
Inductive event :=
| MetricRuns                                            (* PIPELINE_RUNS.inc() *)
| MetricSuccess                                         (* PIPELINE_SUCCESS.inc() *)
| MetricPredConf (f : float)                            (* PIPELINE_PRED_CONF.set(f) *)
| MetricHealAction                                      (* PIPELINE_HEAL_ACTIONS.inc() *)
| Observed (run_id : value)                             (* "observed run ... id=..." *)
| Analyzed (run_id : value) (analysis : dict)           (* analyze_failure returned *)
| Probability (run_id : value) (p : float)              (* "healing probability for ..." *)
| HealCalled (run_id : value) (analysis : dict)         (* healing_engine.heal(...) *)
| StrategyCalled (name : string)                        (* self.strategies[error_type](...) *)
| RepoGetContents (path : string) (ref : value)
| RepoUpdateFile (path message content sha : string) (branch : value)
| RepoCreateFile (path message content : string) (branch : value)
| DbFailureLog (run_id error_type error_message stack_trace : value)
| DbHealingAction (run_id action_type success details : value)
| Rerun (run_id : value)
| Notification (run_id : value).

(** One entry of a run listing: the code skips what is not a [dict]. *)
Inductive entry :=
| NotADict
| RunDict (run : dict).

(** The value of [raw.get("workflow_runs")] in a listing response. *)
Inductive runs_field :=
| RunsFalsy                     (* missing, [None] or empty *)
| RunsNotAList
| RunsList (runs : list entry).

(** The response of [github_get(url)] for a run listing. *)
Inductive listing :=
| ListingNotADict               (* [None] on a non-200 status, or any non-dict *)
| ListingDict (workflow_runs : runs_field).

Section Monad.
Context {W : Type}.

(** The state of the process: the world outside and the two module-level
    globals of the monitors. *)
Record state := {
  world : W;
  last_seen_run : value;          (* main.py: [last_seen_run = None] *)
  last_seen : gset value          (* monitor_safe.py: [last_seen = set()] *)
}.

(** A computation answers or raises, changes the state, and appends its
    events to the trace.  An exception keeps the state and the events of
    what ran before it. *)
Definition M (A : Type) : Type := state -> result A * state * list event.

Definition ret {A} (a : A) : M A := fun st => (inr a, st, []).

Definition raise {A} (e : exn) : M A := fun st => (inl e, st, []).

Definition bind {A B} (m : M A) (k : A -> M B) : M B :=
  fun st =>
    match m st with
    | (inr a, st1, evs1) =>
        match k a st1 with
        | (r, st2, evs2) => (r, st2, (evs1 ++ evs2)%list)
        end
    | (inl e, st1, evs1) => (inl e, st1, evs1)
    end.

(** [try: m  except Exception as e: h e] *)
Definition try_catch {A} (m : M A) (h : exn -> M A) : M A :=
  fun st =>
    match m st with
    | (inr a, st1, evs1) => (inr a, st1, evs1)
    | (inl e, st1, evs1) =>
        match h e st1 with
        | (r, st2, evs2) => (r, st2, (evs1 ++ evs2)%list)
        end
    end.

Definition emit (e : event) : M unit := fun st => (inr tt, st, [e]).

(** A call of a collaborator: it answers or raises, and changes the world. *)
Definition call {A} (op : W -> result A * W) : M A :=
  fun st =>
    match op (world st) with
    | (r, w) =>
        (r, {| world := w; last_seen_run := last_seen_run st; last_seen := last_seen st |}, [])
    end.

(** A pure computation that may raise. *)
Definition lift {A} (r : result A) : M A := fun st => (r, st, []).

Definition get_last_seen_run : M value := fun st => (inr (last_seen_run st), st, []).

Definition set_last_seen_run (v : value) : M unit :=
  fun st =>
    (inr tt, {| world := world st; last_seen_run := v; last_seen := last_seen st |}, []).

Definition get_last_seen : M (gset value) := fun st => (inr (last_seen st), st, []).

Definition set_last_seen (s : gset value) : M unit :=
  fun st =>
    (inr tt, {| world := world st; last_seen_run := last_seen_run st; last_seen := s |}, []).

(** [for x in l: body x] *)
Fixpoint for_each {A} (l : list A) (body : A -> M unit) : M unit :=
  match l with
  | [] => ret tt
  | x :: l' => bind (body x) (fun _ => for_each l' body)
  end.

(** The three components of a run. *)
Definition outcome {A} (m : M A) (st : state) : result A := fst (fst (m st)).
Definition state_after {A} (m : M A) (st : state) : state := snd (fst (m st)).
Definition events {A} (m : M A) (st : state) : list event := snd (m st).

End Monad.

Arguments state : clear implicits.
Arguments M : clear implicits.

Declare Scope eff_scope.
Delimit Scope eff_scope with eff.
Notation "x <- c ;; k" := (bind c (fun x => k))
  (at level 100, c at next level, right associativity) : eff_scope.
Notation "c ;;; k" := (bind c (fun _ => k))
  (at level 100, right associativity) : eff_scope.

(** The collaborators, as functions of the world.  The PyGithub calls of
    the healing engine, the calls of [GitHubMonitor] and of [github_get],
    the database, and the healing strategies whose bodies are not needed
    here. *)
Record collaborators (W : Type) := {
  repo_get_contents : string -> value -> W -> result repo_file * W;
  repo_update_file : string -> string -> string -> string -> value -> W -> result unit * W;
  repo_create_file : string -> string -> string -> value -> W -> result unit * W;
  fetch_workflow_logs : value -> W -> result string * W;
  rerun_workflow : value -> W -> result bool * W;
  get_active_workflows : W -> result (list entry) * W;
  github_get_listing : W -> result listing * W;
  github_get_logs : value -> W -> result (option string) * W;
  create_failure_log : value -> value -> value -> value -> W -> result unit * W;
  create_healing_action : value -> value -> value -> value -> W -> result unit * W;
  other_strategy : string -> dict -> dict -> W -> result dict * W
}.

Arguments repo_get_contents {W}.
Arguments repo_update_file {W}.
Arguments repo_create_file {W}.
Arguments fetch_workflow_logs {W}.
Arguments rerun_workflow {W}.
Arguments get_active_workflows {W}.
Arguments github_get_listing {W}.
Arguments github_get_logs {W}.
Arguments create_failure_log {W}.
Arguments create_healing_action {W}.
Arguments other_strategy {W}.

End Eff.


(* ===================================================================== *)
(** * healing_engine.py *)
(* ===================================================================== *)

Module HealingEngine.
Import Py Re Eff.
Local Open Scope re_scope.
Local Open Scope eff_scope.

(** [str(v)], as an f-string interpolates it. *)
Definition format_value (v : value) : string :=
  match v with
  | VNone => "None"
  | VBool true => "True"
  | VBool false => "False"
  | VInt z => pretty z
  | VStr s => s
  | VList l => "[" +:+ String.concat ", " (map (fun s => "'" +:+ s +:+ "'") l) +:+ "]"
  end.

(** The keys of the registry [self.strategies]. *)
Definition strategy_names : list string :=
  [ "missing_dependency"; "test_timeout"; "flaky_test"; "build_failure";
    "deployment_crash"; "resource_limit"; "network_timeout" ].

(** [v in self.strategies] *)
Definition in_strategies (v : value) : bool :=
  match v with
  | VStr s => bool_decide (s ∈ strategy_names)
  | _ => false
  end.

(** [v in [s1, ..., sn]] for a list of string literals. *)
Definition value_in (v : value) (l : list string) : bool :=
  match v with
  | VStr s => bool_decide (s ∈ l)
  | _ => false
  end.

(** The ordered list [patterns] of [analyze_failure]. *)
Definition patterns : list (regex * string) :=
  [ (lit "ModuleNotFoundError: No module named '" ⋅ Group (Plus (Cls CWord)) ⋅ lit "'",
     "missing_dependency");
    (lit "ImportError: cannot import name '" ⋅ Group (Plus (Cls CWord)) ⋅ lit "'",
     "missing_dependency");
    (lit "ERROR: Could not find a version that satisfies the requirement "
       ⋅ Group (Plus (Cls CNotSpace)),
     "missing_dependency");
    (lit "FAILED" ⋅ Star Dot ⋅ lit "test_" ⋅ Group (Plus (Cls CWord)) ⋅ Star Dot ⋅ lit "Timeout",
     "test_timeout");
    (lit "AssertionError", "test_failure");
    (lit "Build step" ⋅ Star Dot ⋅ lit "failed with exit code " ⋅ Group (Plus (Cls CDigit)),
     "build_failure");
    (lit "Error: Command failed: npm install", "npm_dependency_error");
    (lit "Deployment" ⋅ Star Dot ⋅ lit "crashed", "deployment_crash");
    (lit "OOMKilled", "resource_limit");
    (Alt (lit "Connection refused") (lit "Connection timeout"), "network_timeout") ].

(** [match.group(1) if match.lastindex else None] *)
Definition group1_or_none (m : match_obj) : value :=
  match group1 m with
  | Some s => VStr s
  | None => VNone
  end.

(** The body of the loop [for pattern, etype in patterns], once a pattern
    has matched. *)
Definition record_match (etype : string) (m : match_obj) (analysis : dict) : dict :=
  let analysis := <["error_type" := VStr etype]> analysis in
  let analysis := <["error_message" := VStr (group0 m)]> analysis in
  let analysis := <["fixable" := VBool (in_strategies (VStr etype))]> analysis in
  if String.eqb etype "missing_dependency" then
    <["missing_package" := group1_or_none m]> analysis
  else if String.eqb etype "test_timeout" then
    <["test_name" := group1_or_none m]> analysis
  else analysis.

(** The loop itself: the first pattern that matches is recorded and the
    loop is left ([break]). *)
Fixpoint match_patterns (ps : list (regex * string)) (logs : string) (analysis : dict) : dict :=
  match ps with
  | [] => analysis
  | (pattern, etype) :: ps' =>
      match search true pattern logs with
      | Some m => record_match etype m analysis
      | None => match_patterns ps' logs analysis
      end
  end.

Definition traceback_marker : list ascii := chars "Traceback (most recent call last):".

(** [.*?(?=\n\n|\Z)] under [re.DOTALL]: the shortest text up to a blank
    line or the end of the input. *)
Fixpoint until_blank_line (s : list ascii) : list ascii :=
  match s with
  | [] => []
  | c :: s' => if starts_with [newline; newline] s then [] else c :: until_blank_line s'
  end.

(** [re.search(r"Traceback \(most recent call last\):.*?(?=\n\n|\Z)", logs, re.DOTALL)] *)
Fixpoint search_traceback (s : list ascii) : option string :=
  if starts_with traceback_marker s then
    Some (str (traceback_marker ++ until_blank_line (skipn (length traceback_marker) s)))
  else
    match s with
    | [] => None
    | _ :: s' => search_traceback s'
    end.

(** The initial dictionary of [analyze_failure]. *)
Definition initial_analysis : dict :=
  <["severity" := VStr "medium"]>
  (<["suggested_fix" := VNone]>
  (<["fixable" := VBool false]>
  (<["stack_trace" := VStr ""]>
  (<["error_message" := VStr ""]>
  (<["error_type" := VStr "unknown"]> ∅))))).

(** The severity chosen for a resolved error type. *)
Definition severity_of (resolved_type : value) : string :=
  if value_in resolved_type ["deployment_crash"; "resource_limit"] then "critical"
  else if value_in resolved_type ["missing_dependency"; "build_failure"] then "high"
  else "medium".

(** [HealingEngine.analyze_failure] *)
Definition analyze_failure (logs : string) : dict :=
  let analysis := match_patterns patterns logs initial_analysis in
  let analysis :=
    match search_traceback (chars logs) with
    | Some t => <["stack_trace" := VStr t]> analysis
    | None => analysis
    end in
  let resolved_type := get_default analysis "error_type" (VStr "unknown") in
  <["severity" := VStr (severity_of resolved_type)]> analysis.

Section Engine.
Context {W : Type}.
Variable C : collaborators W.

(** [self.repo] is [None] when PyGithub, the token or the repository name
    is missing; [PIPELINE_HEAL_ACTIONS] is [None] when its import failed. *)
Variable repo_available : bool.
Variable heal_metric_available : bool.

(** [HealingEngine.fix_missing_dependency] *)
Definition fix_missing_dependency (analysis workflow_run : dict) : M W dict :=
  let missing_package := get analysis "missing_package" in
  if negb (truthy missing_package) then
    ret (<["success" := VBool false]>
         (<["details" := VStr "Could not identify missing package"]> ∅))
  else
    try_catch
      (let branch := get_default workflow_run "head_branch" (VStr "main") in
       rc <- (if repo_available then
                try_catch
                  (emit (RepoGetContents "requirements.txt" branch) ;;;
                   f <- call (repo_get_contents C "requirements.txt" branch) ;;
                   ret (Some f, decoded_content f))
                  (fun _ => ret (None, ""))
              else ret (None, "")) ;;
       let requirements_file : option repo_file := fst rc in
       let current_content : string := snd rc in
       match missing_package with
       | VStr pkg =>
           if str_in pkg current_content then
             ret (<["success" := VBool false]>
                  (<["details" := VStr (pkg +:+ " already in requirements.txt")]> ∅))
           else
             let new_content :=
               lstrip_chars nl (strip current_content +:+ nl +:+ pkg +:+ nl) in
             let commit_message := "[AUTO-HEAL] Add missing dependency: " +:+ pkg in
             if repo_available then
               (if negb (String.eqb current_content "") then
                  match requirements_file with
                  | Some f =>
                      emit (RepoUpdateFile "requirements.txt" commit_message new_content
                                           (sha f) branch) ;;;
                      call (repo_update_file C "requirements.txt" commit_message new_content
                                             (sha f) branch)
                  | None => raise "AttributeError: 'NoneType' object has no attribute 'sha'"
                  end
                else
                  emit (RepoCreateFile "requirements.txt" commit_message new_content branch) ;;;
                  call (repo_create_file C "requirements.txt" commit_message new_content branch)) ;;;
               ret (<["success" := VBool true]>
                    (<["details" := VStr ("Added " +:+ pkg +:+ " to requirements.txt")]>
                    (<["changes_made" := VList ["requirements.txt: +" +:+ pkg]]> ∅)))
             else
               ret (<["success" := VBool false]>
                    (<["details" :=
                         VStr "Repository not configured; would add missing dependency in a real run"]>
                    (<["changes_made" := VList ["requirements.txt: +" +:+ pkg +:+ " (suggested)"]]> ∅)))
       | _ => raise "TypeError: 'in <string>' requires string as left operand"
       end)
      (fun e =>
         ret (<["success" := VBool false]>
              (<["details" := VStr ("Error updating requirements: " +:+ e)]> ∅))).

(** [HealingEngine.fix_build_failure] *)
Definition fix_build_failure (analysis workflow_run : dict) : M W dict :=
  match get_default analysis "error_message" (VStr "") with
  | VStr error_msg =>
      if str_in "cache" (lower error_msg) then
        ret (<["success" := VBool true]>
             (<["details" := VStr "Cache cleared, workflow will be re-triggered"]>
             (<["changes_made" := VList ["cache: cleared"]]> ∅)))
      else if str_in "permission denied" (lower error_msg) then
        ret (<["success" := VBool false]>
             (<["details" := VStr "Permission error requires manual intervention"]> ∅))
      else
        ret (<["success" := VBool false]>
             (<["details" := VStr "Build failure type not recognized"]> ∅))
  | _ => raise "AttributeError: object has no attribute 'lower'"
  end.

(** [self.strategies[error_type]]: the two strategies above, and the
    five others through the collaborator record. *)
Definition strategy (name : string) (analysis workflow_run : dict) : M W dict :=
  if String.eqb name "missing_dependency" then fix_missing_dependency analysis workflow_run
  else if String.eqb name "build_failure" then fix_build_failure analysis workflow_run
  else call (other_strategy C name analysis workflow_run).

(** [HealingEngine.heal].  The membership test on the registry is
    outside the [try]: it raises for an error type that cannot be
    hashed. *)
Definition heal (run_id : value) (failure_analysis workflow_run : dict) : M W dict :=
  let error_type := get_default failure_analysis "error_type" (VStr "unknown") in
  if match error_type with VList _ => true | _ => false end then
    raise "TypeError: unhashable type: 'list'"
  else if negb (in_strategies error_type) then
    ret (<["success" := VBool false]>
         (<["action_type" := VStr "none"]>
         (<["details" := VStr ("No healing strategy for " +:+ format_value error_type)]> ∅)))
  else
    try_catch
      (emit (StrategyCalled (format_value error_type)) ;;;
       result <- strategy (format_value error_type) failure_analysis workflow_run ;;
       (if heal_metric_available then emit MetricHealAction else ret tt) ;;;
       ret (<["success" := get_default result "success" (VBool false)]>
            (<["action_type" := error_type]>
            (<["details" := get_default result "details" (VStr "")]>
            (<["changes_made" := get_default result "changes_made" (VList [])]> ∅)))))
      (fun e =>
         ret (<["success" := VBool false]>
              (<["action_type" := error_type]>
              (<["details" := VStr ("Error during healing: " +:+ e)]> ∅)))).

End Engine.

End HealingEngine.


(* ===================================================================== *)
(** * failure_patterns.py *)
(* ===================================================================== *)

Module FailurePatterns.
Import Py Re.
Local Open Scope re_scope.

(** The bracket list of quote characters in the patterns: a single or a
    double quote. *)
Definition quote : regex := Cls (COneOf ["'"%char; dquote]).

(** [self.patterns]: a dictionary, iterated in insertion order. *)
Definition patterns : list (string * list regex) :=
  [ ("missing_dependency",
     [ lit "ModuleNotFoundError: No module named " ⋅ quote ⋅ Group (Plus (Cls CWord)) ⋅ quote;
       lit "ImportError: cannot import name " ⋅ quote ⋅ Group (Plus (Cls CWord)) ⋅ quote;
       lit "ERROR: Could not find a version that satisfies the requirement "
         ⋅ Group (Plus (Cls CNotSpace));
       lit "npm ERR! 404  '" ⋅ Group (Plus (Cls CNotSpace)) ⋅ lit "' is not in the npm registry";
       lit "Package " ⋅ quote ⋅ Group (Plus (Cls CWord)) ⋅ quote ⋅ lit " not found" ]);
    ("test_timeout",
     [ lit "FAILED" ⋅ Star Dot ⋅ lit "test_" ⋅ Group (Plus (Cls CWord)) ⋅ Star Dot ⋅ lit "Timeout";
       lit "pytest.timeout.Timeout";
       lit "Test exceeded " ⋅ Group (Plus (Cls CDigit)) ⋅ lit "s timeout";
       lit "TimeoutError" ]);
    ("test_failure",
     [ lit "AssertionError: " ⋅ Group (Plus Dot);
       lit "FAILED" ⋅ Star Dot ⋅ lit "test_" ⋅ Group (Plus (Cls CWord));
       lit "Error: Assertion `" ⋅ Group (Plus Dot) ⋅ lit "` failed";
       lit "Expected " ⋅ Plus Dot ⋅ lit " but got " ⋅ Plus Dot ]);
    ("build_failure",
     [ lit "Build step" ⋅ Star Dot ⋅ lit "failed with exit code " ⋅ Group (Plus (Cls CDigit));
       lit "ERROR: Build failed";
       lit "make: *** [" ⋅ Star Dot ⋅ lit "] Error " ⋅ Group (Plus (Cls CDigit));
       lit "Compilation error" ]);
    ("deployment_crash",
     [ lit "Deployment" ⋅ Star Dot ⋅ lit "crashed";
       lit "CrashLoopBackOff";
       lit "Error: Application failed to start";
       lit "Health check failed" ]);
    ("resource_limit",
     [ lit "OOMKilled";
       lit "OutOfMemoryError";
       lit "Resource limit exceeded";
       lit "Disk space full" ]);
    ("network_timeout",
     [ lit "Connection refused";
       lit "Connection timeout";
       lit "dial tcp" ⋅ Star Dot ⋅ lit "timeout";
       lit "Network is unreachable" ]);
    ("syntax_error",
     [ lit "SyntaxError: " ⋅ Group (Plus Dot);
       lit "IndentationError";
       lit "invalid syntax";
       lit "unexpected token" ]);
    ("permission_error",
     [ lit "PermissionError";
       lit "Permission denied";
       lit "Access denied";
       lit "Forbidden" ]);
    ("configuration_error",
     [ lit "Configuration error";
       lit "Invalid configuration";
       lit "Missing required" ⋅ Star Dot ⋅ lit "config";
       lit "KeyError: " ⋅ quote ⋅ Group (Plus (Cls CWord)) ⋅ quote ]) ].

(** [self.healing_difficulty] *)
Definition healing_difficulty : list (string * string) :=
  [ ("missing_dependency", "easy"); ("test_timeout", "easy"); ("test_failure", "medium");
    ("build_failure", "medium"); ("deployment_crash", "medium"); ("resource_limit", "easy");
    ("network_timeout", "easy"); ("syntax_error", "hard"); ("permission_error", "hard");
    ("configuration_error", "medium") ].

(** [self.healing_difficulty.get(pattern_type, 'unknown')] *)
Fixpoint difficulty_of (table : list (string * string)) (pattern_type : string) : string :=
  match table with
  | [] => "unknown"
  | (k, v) :: table' => if String.eqb k pattern_type then v else difficulty_of table' pattern_type
  end.

(** The dictionary [details] built for a match. *)
Definition details_of (pattern_type : string) (m : match_obj) : dict :=
  <["difficulty" := VStr (difficulty_of healing_difficulty pattern_type)]>
  (<["captured_groups" := VList (match group1 m with Some g => [g] | None => [] end)]>
  (<["matched_text" := VStr (group0 m)]>
  (<["pattern_type" := VStr pattern_type]> ∅))).

(** The inner loop [for regex in regex_list]. *)
Fixpoint first_regex (pattern_type : string) (regex_list : list regex) (error_log : string)
  : option (string * dict) :=
  match regex_list with
  | [] => None
  | r :: regex_list' =>
      match search true r error_log with
      | Some m => Some (pattern_type, details_of pattern_type m)
      | None => first_regex pattern_type regex_list' error_log
      end
  end.

(** The outer loop [for pattern_type, regex_list in self.patterns.items()]. *)
Fixpoint first_pattern (ps : list (string * list regex)) (error_log : string)
  : option (string * dict) :=
  match ps with
  | [] => None
  | (pattern_type, regex_list) :: ps' =>
      match first_regex pattern_type regex_list error_log with
      | Some r => Some r
      | None => first_pattern ps' error_log
      end
  end.

(** [FailurePatternAnalyzer.identify_pattern] *)
Definition identify_pattern (error_log : string) : string * dict :=
  match first_pattern patterns error_log with
  | Some r => r
  | None =>
      ("unknown", <["difficulty" := VStr "hard"]> (<["pattern_type" := VStr "unknown"]> ∅))
  end.

(** [test_history.count(False)] *)
Definition count_false (test_history : list bool) : Z :=
  Z.of_nat (length (filter (fun b => b = false) test_history)).

(** [FailurePatternAnalyzer.is_flaky_test] *)
Definition is_flaky_test (test_history : list bool) : result bool :=
  if Z.ltb (Z.of_nat (length test_history)) 5 then inr false
  else
    match truediv (count_false test_history) (Z.of_nat (length test_history)) with
    | inl e => inl e
    | inr failure_rate => inr (fle f_0_2 failure_rate && fle failure_rate f_0_8)
    end.

End FailurePatterns.


(* ===================================================================== *)
(** * ml_predictor.py *)
(* ===================================================================== *)

Module Predictor.
Import Py.

(** One component of a feature vector: an integer, a float, or a value
    that is not a number (which the scaler or a comparison rejects). *)
Inductive feature :=
| FInt (z : Z)
| FFloat (f : float)
| FOther (v : value).

Definition feature_of_value (v : value) : feature :=
  match v with
  | VInt z => FInt z
  | VBool b => FInt (if b then 1 else 0)
  | _ => FOther v
  end.

(** The predictor object.  The fitted scaler and the two classifiers are
    loaded artifacts: [scaler.transform([features])] and
    [float(model.predict_proba(scaled)[0][1])] are functions that answer
    or raise.  [clock] stands for [datetime]: from the text of
    [created_at] it gives the hour, the weekday and the age in days; it
    raises for a text that is no date, and for a date without offset,
    which cannot be subtracted from the present time in UTC. *)
Record FailurePredictor := {
  failure_model : option (list float -> result float);
  healing_model : option (list float -> result float);
  scaler : option (list feature -> result (list float));
  is_model_loaded : bool;
  clock : string -> result (Z * Z * Z)
}.

(** The dictionary [predict_failure] returns: an error, or a prediction.
    [PredEmpty] is the [{}] the monitors use when the call itself raised. *)
Inductive prediction :=
| PredEmpty
| PredError (e : string)
| Pred (will_fail : bool) (confidence : float) (risk_level : string) (factors : list string).

(** [self.scaler.transform([features])] *)
Definition transform (p : FailurePredictor) (features : list feature) : result (list float) :=
  match scaler p with
  | Some t => t features
  | None => inl "AttributeError: 'NoneType' object has no attribute 'transform'"
  end.

(** [FailurePredictor._extract_features] *)
Definition _extract_features (p : FailurePredictor) (run : dict) : result (list feature) :=
  match get_default run "created_at" (VStr "2025-01-01T00:00:00") with
  | VStr created_at =>
      match clock p created_at with
      | inl e => inl e
      | inr (hour, weekday, age_days) =>
          inr [ feature_of_value (get_default run "build_duration_avg" (VInt 300));
                feature_of_value (get_default run "test_count" (VInt 50));
                feature_of_value (get_default run "changed_files" (VInt 5));
                feature_of_value (get_default run "commit_size" (VInt 120));
                FInt hour;
                FInt weekday;
                feature_of_value (get_default run "previous_failures" (VInt 0));
                feature_of_value (get_default run "dependency_changes" (VInt 0));
                feature_of_value (get_default run "code_complexity" (VInt 10));
                feature_of_value (get_default run "test_coverage" (VInt 80));
                match run !! "author_failure_rate" with
                | Some v => feature_of_value v
                | None => FFloat (S754_finite false 7205759403792794 (-56))
                end;
                FInt age_days ]
      end
  | _ => inl "AttributeError: object has no attribute 'replace'"
  end.

(** [FailurePredictor._healing_features] *)
Definition _healing_features (f : dict) : result (list feature) :=
  match
    match get_default f "stack_trace" (VStr "") with
    | VStr s => inr (len s)
    | VList l => inr (Z.of_nat (length l))
    | _ => inl "TypeError: object has no len()"
    end
  with
  | inl e => inl e
  | inr stack_len =>
      match get f "severity" with
      | VList _ => inl "TypeError: unhashable type: 'list'"
      | severity =>
          inr [ FFloat (if truthy (get f "fixable") then f_1_0 else f_0_0);
                FInt stack_len;
                FFloat (if truthy (get f "missing_package") then f_1_0 else f_0_0);
                match severity with
                | VStr "critical" => FInt 1
                | VStr "high" => FFloat f_0_8
                | VStr "medium" => FFloat f_0_5
                | _ => FFloat f_0_3
                end;
                FFloat f_0_8 ]
      end
  end.

(** [FailurePredictor._risk] *)
Definition _risk (p : float) : string :=
  if fge p f_0_8 then "very_high"
  else if fge p f_0_6 then "high"
  else if fge p f_0_4 then "medium"
  else if fge p f_0_2 then "low"
  else "very_low".

(** [features[i] > n] and [features[i] < n] for an integer literal [n]. *)
Definition feature_gt (features : list feature) (i : nat) (n : Z) : result bool :=
  match features !! i with
  | Some (FInt z) => inr (Z.ltb n z)
  | Some (FFloat f) => inr (fgt f (float_of_int n))
  | Some (FOther _) => inl "TypeError: '>' not supported"
  | None => inl "IndexError: list index out of range"
  end.

Definition feature_lt (features : list feature) (i : nat) (n : Z) : result bool :=
  match features !! i with
  | Some (FInt z) => inr (Z.ltb z n)
  | Some (FFloat f) => inr (flt f (float_of_int n))
  | Some (FOther _) => inl "TypeError: '<' not supported"
  | None => inl "IndexError: list index out of range"
  end.

(** Sequencing of computations that may raise. *)
Definition rbind {A B} (r : result A) (k : A -> result B) : result B :=
  match r with
  | inl e => inl e
  | inr a => k a
  end.

(** [FailurePredictor._factors] *)
Definition _factors (features : list feature) : result (list string) :=
  rbind (feature_gt features 6 2) (fun c6 =>
  rbind (feature_gt features 7 0) (fun c7 =>
  rbind (feature_gt features 3 300) (fun c3 =>
  rbind (feature_lt features 9 70) (fun c9 =>
  let output :=
    ((if c6 then ["High recent failure rate"] else []) ++
     (if c7 then ["Dependency changes"] else []) ++
     (if c3 then ["Large commit size"] else []) ++
     (if c9 then ["Low test coverage"] else []))%list in
  inr (match output with [] => ["No major risk factors"] | _ => output end))))).

(** [model.predict_proba(scaled)[0][1]] converted by [float]. *)
Definition predict_proba (model : option (list float -> result float)) (scaled : list float)
  : result float :=
  match model with
  | Some m => m scaled
  | None => inl "AttributeError: 'NoneType' object has no attribute 'predict_proba'"
  end.

(** The body of the [try] block of [predict_failure]. *)
Definition failure_prediction (p : FailurePredictor) (workflow_run : dict) : result prediction :=
  rbind (_extract_features p workflow_run) (fun features =>
  rbind (transform p features) (fun scaled =>
  rbind (predict_proba (failure_model p) scaled) (fun prob =>
  rbind (_factors features) (fun factors =>
  inr (Pred (fgt prob f_0_5) prob (_risk prob) factors))))).

(** [FailurePredictor.predict_failure] *)
Definition predict_failure (p : FailurePredictor) (workflow_run : dict) : result prediction :=
  if negb (is_model_loaded p) then inr (PredError "Model not loaded")
  else
    match failure_prediction p workflow_run with
    | inr r => inr r
    | inl e => inr (PredError e)
    end.

(** The body of the [try] block of [predict_healing_success]. *)
Definition healing_score (p : FailurePredictor) (failure_analysis : dict) : result float :=
  match healing_model p with
  | None => inr f_0_5
  | Some _ =>
      rbind (_healing_features failure_analysis) (fun features =>
      rbind (transform p features) (fun scaled =>
      rbind (predict_proba (healing_model p) scaled) (fun prob =>
      inr prob)))
  end.

(** [FailurePredictor.predict_healing_success] *)
Definition predict_healing_success (p : FailurePredictor) (failure_analysis : dict)
  : result float :=
  match healing_score p failure_analysis with
  | inr prob => inr prob
  | inl e => inr f_0_5
  end.

End Predictor.


(* ===================================================================== *)
(** * main.py and monitor_safe.py *)
(* ===================================================================== *)

Module Monitor.
Import Py Eff HealingEngine Predictor.
Local Open Scope eff_scope.

(** Hashing and equality identify [True] with [1] and [False] with [0]. *)
Definition norm (v : value) : value :=
  match v with
  | VBool b => VInt (if b then 1 else 0)
  | _ => v
  end.

(** [a == b] *)
Definition py_eq (a b : value) : bool := bool_decide (norm a = norm b).

(** [v == "literal"] *)
Definition str_is (v : value) (s : string) : bool :=
  match v with
  | VStr x => String.eqb x s
  | _ => false
  end.

(** [x or 0] *)
Definition or_zero (v : value) : value := if truthy v then v else VInt 0.

(** The dictionary [payload] both monitors build for [predict_failure]. *)
Definition payload_of (run : dict) : dict :=
  <["test_count" := get_default run "test_count" (VInt 0)]>
  (<["code_complexity" := get_default run "code_complexity" (VInt 0)]>
  (<["dependency_changes" := get_default run "dependency_changes" (VInt 0)]>
  (<["changed_files" := get_default run "changed_files" (VInt 0)]>
  (<["test_coverage" := get_default run "test_coverage" (VInt 0)]>
  (<["previous_failures" := or_zero (get run "run_number")]>
  (<["commit_size" := or_zero (get run "run_attempt")]>
  (<["created_at" := get run "created_at"]> ∅))))))).

(** [float(prediction.get("confidence", 0.0))] *)
Definition confidence_of (p : prediction) : float :=
  match p with
  | Pred _ confidence _ _ => confidence
  | _ => f_0_0
  end.

(** The guard of [handle_pipeline_failure]: [success_probability > 0.70]. *)
Definition confident (success_probability : float) : bool :=
  fgt success_probability f_0_7.

(** The guard of the two monitors: [prob and float(prob) > 0.7]. *)
Definition confident_safe (prob : float) : bool :=
  float_truthy prob && fgt prob f_0_7.

Section Loops.
Context {W : Type}.
Variable C : collaborators W.
Variable P : FailurePredictor.
Variable repo_available : bool.
Variable heal_metric_available : bool.

(** [set.pop()] removes and returns an arbitrary element: which one is
    left to the interpreter. *)
Variable set_pop : gset value -> value.

Definition engine_heal := heal C repo_available heal_metric_available.

(** [main.handle_pipeline_failure] *)
Definition handle_pipeline_failure (run_id : value) (workflow_run : dict) : M W unit :=
  try_catch
    (logs <- call (fetch_workflow_logs C run_id) ;;
     let failure_analysis := analyze_failure logs in
     emit (Analyzed run_id failure_analysis) ;;;
     emit (DbFailureLog run_id
             (get_default failure_analysis "error_type" (VStr "unknown"))
             (get_default failure_analysis "error_message" (VStr ""))
             (get_default failure_analysis "stack_trace" (VStr ""))) ;;;
     call (create_failure_log C run_id
             (get_default failure_analysis "error_type" (VStr "unknown"))
             (get_default failure_analysis "error_message" (VStr ""))
             (get_default failure_analysis "stack_trace" (VStr ""))) ;;;
     success_probability <- lift (predict_healing_success P failure_analysis) ;;
     emit (Probability run_id success_probability) ;;;
     if confident success_probability then
       emit (HealCalled run_id failure_analysis) ;;;
       healing_result <- engine_heal run_id failure_analysis workflow_run ;;
       emit (DbHealingAction run_id
               (get_default healing_result "action_type" (VStr "unknown"))
               (get_default healing_result "success" (VBool false))
               (get_default healing_result "details" VNone)) ;;;
       call (create_healing_action C run_id
               (get_default healing_result "action_type" (VStr "unknown"))
               (get_default healing_result "success" (VBool false))
               (get_default healing_result "details" VNone)) ;;;
       if truthy (get healing_result "success") then
         emit (Rerun run_id) ;;;
         _ <- call (rerun_workflow C run_id) ;;
         ret tt
       else
         emit (Notification run_id)
     else
       emit (Notification run_id))
    (fun _ => ret tt).

(** The logs of a failed run, as both monitors fetch them. *)
Definition fetch_logs_text (run : dict) : M W string :=
  try_catch
    (let logs_url := get run "logs_url" in
     if truthy logs_url then
       ld <- call (github_get_logs C logs_url) ;;
       ret (match ld with Some text => text | None => "NO LOGS" end)
     else ret "NO LOGS")
    (fun _ => ret "NO LOGS").

(** The prediction for an observed run and the confidence gauge. *)
Definition predict_and_record (run : dict) : M W unit :=
  prediction <- try_catch (lift (predict_failure P (payload_of run)))
                          (fun _ => ret PredEmpty) ;;
  emit (MetricPredConf (confidence_of prediction)).

(** The block [if conclusion == "failure": ...], which both monitors
    contain with the same steps: logs, analysis, healing probability, and
    healing when confident.  [heal] has the signature its first call
    uses, and it raises only for an error type that cannot be hashed,
    which the analysis of [analyze_failure] never has: the retry on
    [TypeError] with positional arguments is not reached. *)
Definition handle_failed_run (run_id : value) (run : dict) : M W unit :=
  logs_text <- fetch_logs_text run ;;
  let analysis := analyze_failure logs_text in
  emit (Analyzed run_id analysis) ;;;
  prob <- try_catch (lift (predict_healing_success P analysis)) (fun _ => ret f_0_0) ;;
  emit (Probability run_id prob) ;;;
  if confident_safe prob then
    try_catch
      (emit (HealCalled run_id analysis) ;;;
       _ <- engine_heal (VStr (format_value run_id)) analysis run ;;
       ret tt)
      (fun _ => ret tt)
  else ret tt.

(** What both monitors do with a run they have not skipped: the two
    loops contain the same steps from the log line on. *)
Definition process_run (run_id : value) (run : dict) : M W unit :=
  let conclusion := get run "conclusion" in
  emit (Observed run_id) ;;;
  emit MetricRuns ;;;
  predict_and_record run ;;;
  (if str_is conclusion "success" then emit MetricSuccess else ret tt) ;;;
  (if str_is conclusion "failure" then handle_failed_run run_id run else ret tt).

(** The body of [for run in runs_data] in [main.monitor_pipelines]. *)
Definition monitor_pipelines_run (e : entry) : M W unit :=
  match e with
  | NotADict => ret tt
  | RunDict run =>
      let run_id := get run "id" in
      if negb (truthy run_id) then ret tt
      else
        seen <- get_last_seen_run ;;
        if py_eq run_id seen then ret tt
        else
          set_last_seen_run run_id ;;;
          process_run run_id run
  end.

(** One iteration of [while True] in [main.monitor_pipelines]. *)
Definition monitor_pipelines_cycle : M W unit :=
  try_catch
    (runs_data <- try_catch (call (get_active_workflows C)) (fun _ => ret []) ;;
     for_each runs_data monitor_pipelines_run)
    (fun _ => ret tt).

(** [main.monitor_pipelines], for a number of polling cycles. *)
Fixpoint monitor_pipelines (cycles : nat) : M W unit :=
  match cycles with
  | O => ret tt
  | S n => monitor_pipelines_cycle ;;; monitor_pipelines n
  end.

(** [while len(last_seen) > 100: last_seen.pop()] *)
Fixpoint pop_down (fuel : nat) (s : gset value) : gset value :=
  match fuel with
  | O => s
  | S fuel' =>
      if decide (100 < size s)%nat then pop_down fuel' (s ∖ {[ set_pop s ]}) else s
  end.

(** [if len(last_seen) > 200: ...] *)
Definition limit_size (s : gset value) : gset value :=
  if decide (200 < size s)%nat then pop_down (size s) s else s.

(** The body of [for run in runs] in [monitor_safe.run_safe_monitor]. *)
Definition run_safe_monitor_run (e : entry) : M W unit :=
  match e with
  | NotADict => ret tt
  | RunDict run =>
      match get run "id" with
      | VNone => ret tt
      | VList _ => raise "TypeError: unhashable type: 'list'"
      | run_id =>
          seen <- get_last_seen ;;
          if decide (norm run_id ∈ seen) then ret tt
          else
            set_last_seen (limit_size ({[ norm run_id ]} ∪ seen)) ;;;
            process_run run_id run
      end
  end.

(** One iteration of [while True] in [monitor_safe.run_safe_monitor]. *)
Definition run_safe_monitor_cycle : M W unit :=
  try_catch
    (raw <- call (github_get_listing C) ;;
     match raw with
     | ListingNotADict => ret tt
     | ListingDict RunsFalsy => ret tt
     | ListingDict RunsNotAList => ret tt
     | ListingDict (RunsList runs) => for_each runs run_safe_monitor_run
     end)
    (fun _ => ret tt).

(** [monitor_safe.run_safe_monitor], for a number of polling cycles. *)
Fixpoint run_safe_monitor (cycles : nat) : M W unit :=
  match cycles with
  | O => ret tt
  | S n => run_safe_monitor_cycle ;;; run_safe_monitor n
  end.

End Loops.

(** The state at start-up: nothing seen yet. *)
Definition initial_state {W} (w : W) : state W :=
  {| world := w; last_seen_run := VNone; last_seen := ∅ |}.

End Monitor.


(* ===================================================================== *)
(** * A simulated world, for running the model on concrete inputs *)
(* ===================================================================== *)

Module Sim.
Import Py Eff Predictor.

(** A small GitHub: the successive answers of the run listing, the
    content of [requirements.txt] (if the file exists) and the log text
    every run has. *)
Record sim := {
  listings : list (list entry);
  requirements : option string;
  logs : string
}.

Definition with_requirements (w : sim) (content : string) : sim :=
  {| listings := listings w; requirements := Some content; logs := logs w |}.

Definition next_listing (w : sim) : list entry * sim :=
  match listings w with
  | [] => ([], w)
  | l :: ls => (l, {| listings := ls; requirements := requirements w; logs := logs w |})
  end.

Definition github : collaborators sim := {|
  repo_get_contents := fun path ref w =>
    match requirements w with
    | Some c => (inr {| decoded_content := c; sha := "3b18e512" |}, w)
    | None => (inl "404 Not Found", w)
    end;
  repo_update_file := fun path message content sha branch w =>
    (inr tt, with_requirements w content);
  repo_create_file := fun path message content branch w =>
    match requirements w with
    | Some _ => (inl "422 Unprocessable Entity", w)
    | None => (inr tt, with_requirements w content)
    end;
  fetch_workflow_logs := fun run_id w => (inr (logs w), w);
  rerun_workflow := fun run_id w => (inr true, w);
  get_active_workflows := fun w =>
    match next_listing w with (l, w') => (inr l, w') end;
  github_get_listing := fun w =>
    match next_listing w with (l, w') => (inr (ListingDict (RunsList l)), w') end;
  github_get_logs := fun url w => (inr (Some (logs w)), w);
  create_failure_log := fun run_id error_type error_message stack_trace w => (inr tt, w);
  create_healing_action := fun run_id action_type success details w => (inr tt, w);
  other_strategy := fun name analysis workflow_run w =>
    (inr (<["success" := VBool true]> (∅ : dict)), w)
|}.

(** [s.endswith(suffix)] *)
Definition ends_with (suffix s : string) : bool :=
  starts_with (rev (chars suffix)) (rev (chars s)).

(** A clock for which every date with the offset of UTC is a Wednesday
    at noon, thirty days ago.  A text without offset gives a date that
    cannot be subtracted from the present time. *)
Definition utc_clock (created_at : string) : result (Z * Z * Z) :=
  if ends_with "Z" created_at || ends_with "+00:00" created_at then inr (12, 2, 30)
  else inl "TypeError: can't subtract offset-naive and offset-aware datetimes".

(** A run as GitHub dates it. *)
Definition dated_run : dict := <["created_at" := VStr "2025-06-11T12:00:00Z"]> ∅.

(** A predictor whose two models answer the same probability for every
    input. *)
Definition constant_predictor (p : float) : FailurePredictor := {|
  failure_model := Some (fun _ => inr p);
  healing_model := Some (fun _ => inr p);
  scaler := Some (fun _ => inr []);
  is_model_loaded := true;
  clock := utc_clock
|}.

(** A predictor whose healing model raises on every input. *)
Definition failing_predictor : FailurePredictor := {|
  failure_model := Some (fun _ => inl "ValueError: X has 5 features, but the model expects 12");
  healing_model := Some (fun _ => inl "ValueError: X has 5 features, but the model expects 12");
  scaler := Some (fun _ => inr []);
  is_model_loaded := true;
  clock := utc_clock
|}.

(** A predictor without artifacts: nothing was loaded. *)
Definition unloaded_predictor : FailurePredictor := {|
  failure_model := None;
  healing_model := None;
  scaler := None;
  is_model_loaded := false;
  clock := fun _ => inl "ValueError: Invalid isoformat string"
|}.

(** A run of the listing, with an id and a conclusion. *)
Definition run_entry (id : Z) (conclusion : value) : entry :=
  RunDict (<["id" := VInt id]> (<["conclusion" := conclusion]> ∅)).

(** The place of an integer in a hash table of 512 slots, the size of
    the table of a CPython set that has grown to some 200 elements. *)
Definition slot (v : value) : Z :=
  match v with
  | VInt z => z mod 512
  | _ => 0
  end.

(** A [set.pop] that takes the element in the lowest slot, which is what
    CPython does for such a set of integers when no two share a slot. *)
Definition pop_lowest_slot (s : gset value) : value :=
  match elements s with
  | [] => VNone
  | v :: l => fold_left (fun best x => if Z.ltb (slot x) (slot best) then x else best) l v
  end.

(** The integers [from], [from + 1], ... ([count] of them). *)
Fixpoint ids_from (from : Z) (count : nat) : list Z :=
  match count with
  | O => []
  | S n => from :: ids_from (from + 1) n
  end.

(** Successive listings of five runs each, the newest (highest id) first
    in every listing, as the GitHub API returns them. *)
Fixpoint pages (from : Z) (count : nat) : list (list entry) :=
  match count with
  | O => []
  | S n => map (fun id => run_entry id VNone) (rev (ids_from from 5)) :: pages (from + 5) n
  end.

(** A world that lists the given runs and has nothing else. *)
Definition listing_world (ls : list (list entry)) : sim :=
  {| listings := ls; requirements := None; logs := "" |}.

End Sim.


(* ===================================================================== *)
(** * Vocabulary of the specification *)
(* ===================================================================== *)

Module Spec.
Import Py Re Eff.
Local Open Scope list_scope.

(** The closed enumeration of failure categories of the specification. *)
Definition closed_categories : list string :=
  [ "missing_dependency"; "test_timeout"; "test_failure"; "build_failure";
    "deployment_crash"; "resource_limit"; "network_timeout"; "syntax_error";
    "permission_error"; "configuration_error"; "unknown" ].

(** The error types [HealingEngine.analyze_failure] can produce. *)
Definition engine_categories : list string :=
  [ "missing_dependency"; "test_timeout"; "test_failure"; "build_failure";
    "npm_dependency_error"; "deployment_crash"; "resource_limit"; "network_timeout";
    "unknown" ].

(** The category of an analysis: its ["error_type"]. *)
Definition category (analysis : dict) : value := get analysis "error_type".

(** A rule does not match a text. *)
Definition no_match (logs : string) (rule : regex * string) : Prop :=
  search true rule.1 logs = None.

(** The rules of [FailurePatternAnalyzer], one pair per regular
    expression, in the order the two loops visit them. *)
Definition flat_rules (ps : list (string * list regex)) : list (regex * string) :=
  flat_map (fun '(pattern_type, regex_list) => map (fun r => (r, pattern_type)) regex_list) ps.

(** The first rule of a flat list that matches, as [identify_pattern]
    reports it. *)
Fixpoint first_rule (rules : list (regex * string)) (error_log : string)
  : option (string * dict) :=
  match rules with
  | [] => None
  | (r, pattern_type) :: rules' =>
      match search true r error_log with
      | Some m => Some (pattern_type, FailurePatterns.details_of pattern_type m)
      | None => first_rule rules' error_log
      end
  end.

(** ** Vocabulary for flakiness and for rounding *)

(** The fraction of failing entries of a history, as an exact rational
    (zero for the empty history). *)
Definition failure_rate (test_history : list bool) : Q :=
  match test_history with
  | [] => 0
  | _ => Qmake (FailurePatterns.count_false test_history) (Pos.of_nat (length test_history))
  end.

(** The positive float [f] is a binary64 number nearest to the decimal
    constant [num / den]: it has a mantissa of 53 bits, and it is within
    half a unit in the last place of the constant. *)
Definition nearest_double (f : float) (num den : Z) : Prop :=
  match f with
  | S754_finite false m e =>
      (2 ^ 52 <= Zpos m < 2 ^ 53 /\ e < 0 /\
       2 * Z.abs (den * Zpos m - num * 2 ^ (- e)) <= den)%Z
  | _ => False
  end.

(** What a rounding location says about the discarded fraction [r / d]:
    it is zero, below one half, one half, or above one half. *)
Definition loc_is (l : location) (r d : Z) : Prop :=
  match l with
  | loc_Exact => r = 0
  | loc_Inexact Lt => 0 < r /\ 2 * r < d
  | loc_Inexact Eq => 0 < r /\ 2 * r = d
  | loc_Inexact Gt => d < 2 * r
  end.

(** ** Vocabulary for the missing-dependency strategy *)

(** A write to the repository. *)
Definition is_write (e : event) : bool :=
  match e with
  | RepoUpdateFile _ _ _ _ _ | RepoCreateFile _ _ _ _ => true
  | _ => false
  end.



(** The manifest with a package appended on a line of its own. *)
Definition with_package (content pkg : string) : string :=
  lstrip_chars nl (strip content +:+ nl +:+ pkg +:+ nl).






(** ** Vocabulary for the dispatch gate *)

(** A call of [heal]. *)
Definition is_heal_call (e : event) : bool :=
  match e with
  | HealCalled _ _ => true
  | _ => false
  end.

(** The report of a predicted healing probability. *)
Definition is_probability (e : event) : bool :=
  match e with
  | Probability _ _ => true
  | _ => false
  end.

(** An event that is neither of the two. *)
Definition no_decision (e : event) : Prop :=
  is_heal_call e = false /\ is_probability e = false.

(** The events of one processing pass of a failed run [run_id] respect
    the gate [guard]: before the decision there is neither a probability
    nor a call of [heal]; the pass may stop there (a collaborator raised),
    or it reports one probability and calls [heal], once and right
    after, exactly when the guard accepts the probability.  When [heal]
    is called for a category that has a strategy, the strategy is called. *)
Definition gated (guard : float -> bool) (run_id : value) (evs : list event) : Prop :=
  exists pre,
    Forall no_decision pre /\
    (evs = pre \/
     exists prob analysis post,
       Forall no_decision post /\
       evs = pre ++ Probability run_id prob
                 :: (if guard prob then HealCalled run_id analysis :: post else post) /\
       (guard prob = true ->
        HealingEngine.in_strategies (category analysis) = true ->
        StrategyCalled (HealingEngine.format_value (category analysis)) ∈ post)).

(** The events of a pass that reaches the decision for the analysis
    [analysis] with the predicted probability [prob]: the probability is
    reported once, after events without decision, and [heal] is called
    for this analysis, once and right after the report, exactly when the
    guard accepts the probability; when it is called for a category
    that has a strategy, the strategy is called. *)
Definition decided (guard : float -> bool) (run_id : value) (prob : float) (analysis : dict)
           (evs : list event) : Prop :=
  exists pre post,
    Forall no_decision pre /\ Forall no_decision post /\
    evs = pre ++ Probability run_id prob
              :: (if guard prob then HealCalled run_id analysis :: post else post) /\
    (guard prob = true ->
     HealingEngine.in_strategies (category analysis) = true ->
     StrategyCalled (HealingEngine.format_value (category analysis)) ∈ post).

(** ** Vocabulary for the run tracker *)

(** The run was observed: the monitor did not skip it. *)
Definition is_observed (run_id : value) (e : event) : bool :=
  match e with
  | Observed r => bool_decide (r = run_id)
  | _ => false
  end.

(** A failure analysis was produced for the run. *)
Definition is_analysis (run_id : value) (e : event) : bool :=
  match e with
  | Analyzed r _ => bool_decide (r = run_id)
  | _ => false
  end.

(** A remediation was attempted for the run. *)
Definition is_remediation (run_id : value) (e : event) : bool :=
  match e with
  | HealCalled r _ => bool_decide (r = run_id)
  | _ => false
  end.

(** How many events of a trace satisfy [f]. *)
Definition count (f : event -> bool) (evs : list event) : nat :=
  length (List.filter f evs).

(** [set.pop] returns an element of the set. *)
Definition pops_member (set_pop : gset value -> value) : Prop :=
  forall s, s ≠ ∅ -> set_pop s ∈ s.

(** A computation keeps a property of the set [last_seen]. *)
Definition seen_inv {W A} (J : gset value -> Prop) (m : M W A) : Prop :=
  forall st, J (last_seen st) -> J (last_seen (state_after m st)).

(** All events of a computation satisfy [P], from every state. *)
Definition emits_only {W A} (P : event -> Prop) (m : M W A) : Prop :=
  forall st, Forall P (events m st).

End Spec.


(* ===================================================================== *)
(** * Regular expressions: substitution, and what a pattern denotes *)
(* ===================================================================== *)

Module ReLang.
Import Py Re.

(** [re.sub(r, repl, s)]: the text with every match of [r] replaced,
    scanning from the left.  [skip] counts the characters of the current
    match that are still to be dropped.  An empty match puts [repl]
    before the character it stands at. *)
Fixpoint sub_chars (ic : bool) (r : regex) (repl : list ascii) (skip : nat) (s : list ascii)
  {struct s} : list ascii :=
  match skip with
  | S skip' =>
      match s with
      | [] => []
      | _ :: s' => sub_chars ic r repl skip' s'
      end
  | O =>
      match match_at ic r s with
      | Some m =>
          match String.length (group0 m) with
          | O =>
              (repl ++ match s with
                       | [] => []
                       | c :: s' => c :: sub_chars ic r repl 0 s'
                       end)%list
          | S n =>
              (repl ++ match s with
                       | [] => []
                       | _ :: s' => sub_chars ic r repl n s'
                       end)%list
          end
      | None =>
          match s with
          | [] => []
          | c :: s' => c :: sub_chars ic r repl 0 s'
          end
      end
  end.

Definition sub (ic : bool) (r : regex) (repl s : string) : string :=
  str (sub_chars ic r (chars repl) 0 (chars s)).

(** The texts a pattern matches.  [derives ic r w g g'] says that [r]
    matches exactly the text [w], and that group 1, which held [g]
    before, holds [g'] after.  An iteration of [Star] matches a text
    that is not empty. *)
Inductive derives (ic : bool)
  : regex -> list ascii -> option (list ascii) -> option (list ascii) -> Prop :=
| derives_eps g : derives ic Eps [] g g
| derives_chr p c g : chr_eq ic p c = true -> derives ic (Chr p) [c] g g
| derives_dot c g : Ascii.eqb c newline = false -> derives ic Dot [c] g g
| derives_cls cs c g : cset_mem ic cs c = true -> derives ic (Cls cs) [c] g g
| derives_seq r1 r2 w1 w2 g g1 g2 :
    derives ic r1 w1 g g1 -> derives ic r2 w2 g1 g2 ->
    derives ic (Seq r1 r2) (w1 ++ w2) g g2
| derives_alt_l r1 r2 w g g1 : derives ic r1 w g g1 -> derives ic (Alt r1 r2) w g g1
| derives_alt_r r1 r2 w g g1 : derives ic r2 w g g1 -> derives ic (Alt r1 r2) w g g1
| derives_star_nil r g : derives ic (Star r) [] g g
| derives_star_cons r w1 w2 g g1 g2 :
    w1 <> [] -> derives ic r w1 g g1 -> derives ic (Star r) w2 g1 g2 ->
    derives ic (Star r) (w1 ++ w2) g g2
| derives_group r w g g1 : derives ic r w g g1 -> derives ic (Group r) w g (Some w).

(** The bodies of the groups of a pattern. *)
Fixpoint groups (r : regex) : list regex :=
  match r with
  | Seq r1 r2 | Alt r1 r2 => (groups r1 ++ groups r2)%list
  | Star r1 => groups r1
  | Group r1 => (r1 :: groups r1)%list
  | _ => []
  end.

(** Every match of the pattern goes through a group. *)
Fixpoint must_group (r : regex) : bool :=
  match r with
  | Seq r1 r2 => must_group r1 || must_group r2
  | Alt r1 r2 => must_group r1 && must_group r2
  | Group _ => true
  | _ => false
  end.

(** [a] occurs in [b] as a run of consecutive characters. *)
Definition substring (a b : string) : Prop :=
  exists pre post, chars b = (pre ++ chars a ++ post)%list.

End ReLang.


(* ===================================================================== *)
(** * failure_patterns.py: the other methods of the analyzer *)
(* ===================================================================== *)

Module PatternAnalyzer.
Import Py Re ReLang FailurePatterns.
Local Open Scope re_scope.

(** The list [patterns] of [extract_package_name]. *)
Definition package_patterns : list regex :=
  [ lit "ModuleNotFoundError: No module named " ⋅ quote ⋅ Group (Plus (Cls CWord)) ⋅ quote;
    lit "ImportError: cannot import name " ⋅ quote ⋅ Group (Plus (Cls CWord)) ⋅ quote;
    lit "Could not find a version that satisfies the requirement "
      ⋅ Group (Plus (Cls CNotSpace));
    lit "npm ERR! 404  '" ⋅ Group (Plus (Cls CNotSpace)) ⋅ lit "' is not in" ].

(** The characters that begin a version specifier. *)
Definition specifier_chars : list ascii := ["<"%char; ">"%char; "="%char; "!"%char].

Definition is_specifier (c : ascii) : bool := cset_mem false (COneOf specifier_chars) c.

(** The pattern [[<>=!]+.*] of a version specifier and what follows it. *)
Definition specifier : regex := Plus (Cls (COneOf specifier_chars)) ⋅ Star Dot.

(** The loop of [extract_package_name]. *)
Fixpoint first_package (ps : list regex) (error_log : string) : result (option string) :=
  match ps with
  | [] => inr None
  | pattern :: ps' =>
      match search false pattern error_log with
      | Some m =>
          match group1 m with
          | Some package => inr (Some (strip (sub false specifier "" package)))
          | None => inl "TypeError: expected string or bytes-like object, got 'NoneType'"
          end
      | None => first_package ps' error_log
      end
  end.

(** [FailurePatternAnalyzer.extract_package_name] *)
Definition extract_package_name (error_log : string) : result (option string) :=
  first_package package_patterns error_log.

(** The list [patterns] of [extract_test_name]. *)
Definition test_patterns : list regex :=
  [ lit "FAILED" ⋅ Star Dot ⋅ lit "test_" ⋅ Group (Plus (Cls CWord));
    lit "test_" ⋅ Group (Plus (Cls CWord)) ⋅ Star Dot ⋅ lit "FAILED";
    lit "Error in test_" ⋅ Group (Plus (Cls CWord)) ].

(** The loop of [extract_test_name]. *)
Fixpoint first_test (ps : list regex) (error_log : string) : string :=
  match ps with
  | [] => "unknown_test"
  | pattern :: ps' =>
      match search false pattern error_log with
      | Some m =>
          "test_" +:+ match group1 m with
                      | Some name => name
                      | None => "None"
                      end
      | None => first_test ps' error_log
      end
  end.

(** [FailurePatternAnalyzer.extract_test_name] *)
Definition extract_test_name (error_log : string) : string :=
  first_test test_patterns error_log.

(** [d.get(k, dflt)] on a dictionary literal. *)
Fixpoint lookup_default {A} (table : list (string * A)) (k : string) (dflt : A) : A :=
  match table with
  | [] => dflt
  | (k', v) :: table' => if String.eqb k' k then v else lookup_default table' k dflt
  end.

(** [FailurePatternAnalyzer.get_healing_strategy] *)
Definition get_healing_strategy (pattern_type : string) : string :=
  lookup_default
    [ ("missing_dependency", "add_to_requirements");
      ("test_timeout", "increase_timeout");
      ("test_failure", "analyze_and_fix");
      ("build_failure", "clear_cache_and_retry");
      ("deployment_crash", "rollback");
      ("resource_limit", "increase_resources");
      ("network_timeout", "add_retry");
      ("syntax_error", "manual_intervention");
      ("permission_error", "manual_intervention");
      ("configuration_error", "validate_config") ]
    pattern_type "manual_intervention".

(** [FailurePatternAnalyzer.estimate_fix_time] *)
Definition estimate_fix_time (pattern_type : string) : Z :=
  lookup_default
    [ ("missing_dependency", 60); ("test_timeout", 30); ("test_failure", 120);
      ("build_failure", 90); ("deployment_crash", 180); ("resource_limit", 45);
      ("network_timeout", 30); ("syntax_error", 0); ("permission_error", 0);
      ("configuration_error", 60) ]
    pattern_type 0.

(** [FailurePatternAnalyzer.can_auto_heal] *)
Definition can_auto_heal (pattern_type : string) : bool :=
  bool_decide (pattern_type ∈ [ "missing_dependency"; "test_timeout"; "build_failure";
                                "deployment_crash"; "resource_limit"; "network_timeout" ]).

(** A [Counter]: the keys in the order of their first insertion. *)
Definition counter := list (string * Z).

(** [counts[k] += 1] *)
Fixpoint bump (k : string) (counts : counter) : counter :=
  match counts with
  | [] => [(k, 1)]
  | (k', n) :: counts' =>
      if String.eqb k' k then (k', n + 1) :: counts' else (k', n) :: bump k counts'
  end.

(** The place of an item in a list sorted by falling count: behind the
    items that count as much or more. *)
Fixpoint insert_by_count (x : string * Z) (l : counter) : counter :=
  match l with
  | [] => [x]
  | y :: l' => if Z.ltb y.2 x.2 then x :: l else y :: insert_by_count x l'
  end.

(** [counts.most_common(n)]: the [n] items of highest count; items of
    equal count stay in the order of their insertion. *)
Definition most_common_of (n : nat) (counts : counter) : counter :=
  take n (fold_left (fun sorted x => insert_by_count x sorted) counts []).

Record pattern_stat := {
  stat_count : Z;
  stat_percentage : float;
  stat_difficulty : string
}.

Record batch := {
  total_failures : Z;
  pattern_distribution : list (string * pattern_stat);
  most_common : counter;
  details : list dict
}.

(** The loop [for log in error_logs] of [analyze_batch]. *)
Fixpoint count_patterns (error_logs : list string) (counts : counter) (details_list : list dict)
  : counter * list dict :=
  match error_logs with
  | [] => (counts, details_list)
  | log :: error_logs' =>
      let '(pattern_type, details) := identify_pattern log in
      count_patterns error_logs' (bump pattern_type counts) (details_list ++ [details])%list
  end.

(** The comprehension that builds [pattern_stats]. *)
Fixpoint pattern_stats (counts : counter) (total : Z) : result (list (string * pattern_stat)) :=
  match counts with
  | [] => inr []
  | (pattern, count) :: counts' =>
      match truediv count total with
      | inl e => inl e
      | inr q =>
          match pattern_stats counts' total with
          | inl e => inl e
          | inr stats =>
              inr ((pattern,
                    {| stat_count := count;
                       stat_percentage := SFmul prec emax q (float_of_int 100);
                       stat_difficulty := difficulty_of healing_difficulty pattern |}) :: stats)
          end
      end
  end.

(** [FailurePatternAnalyzer.analyze_batch] *)
Definition analyze_batch (error_logs : list string) : result batch :=
  let '(pattern_counts, details_list) := count_patterns error_logs [] [] in
  let total := Z.of_nat (length error_logs) in
  match pattern_stats pattern_counts total with
  | inl e => inl e
  | inr stats =>
      inr {| total_failures := total;
             pattern_distribution := stats;
             most_common := most_common_of 5 pattern_counts;
             details := details_list |}
  end.

(** The counts of a distribution, their sum, and a list of counts that
    does not rise. *)
Definition counts_of (stats : list (string * pattern_stat)) : counter :=
  map (fun x => (x.1, stat_count x.2)) stats.

Definition total_count (counts : counter) : Z :=
  fold_right (fun x acc => x.2 + acc) 0 counts.

(** [counts[k]]: the count of a key, zero for a key that is not there. *)
Fixpoint count_of (k : string) (counts : counter) : Z :=
  match counts with
  | [] => 0
  | (k', n) :: counts' => if String.eqb k' k then n else count_of k counts'
  end.

(** How many logs of a batch [identify_pattern] gives the type
    [pattern_type]. *)
Definition occurrences (pattern_type : string) (error_logs : list string) : Z :=
  Z.of_nat (length (List.filter (fun log => String.eqb (identify_pattern log).1 pattern_type)
                                error_logs)).

Fixpoint falling (l : counter) : Prop :=
  match l with
  | [] => True
  | x :: l' => Forall (fun y => y.2 <= x.2) l' /\ falling l'
  end.

End PatternAnalyzer.


(* ===================================================================== *)
(** * healing_engine.py: the other strategies of the registry *)
(* ===================================================================== *)

Module EngineStrategies.
Import Py Re ReLang Eff HealingEngine.
Local Open Scope re_scope.
Local Open Scope eff_scope.

(** A workflow run as [rollback_deployment] reads it. *)
Record workflow_run_info := { run_conclusion : value; run_head_sha : string }.

(** The result of [subprocess.run(..., capture_output=True, text=True)]. *)
Record completed_process := { returncode : Z; stdout : string; stderr : string }.

(** The collaborators of the strategies that the monitors do not use:
    the listing of workflow runs of PyGithub, and [subprocess.run]. *)
Record more_collaborators (W : Type) := {
  repo_get_workflow_runs : string -> string -> W -> result (list workflow_run_info) * W;
  subprocess_run : list string -> W -> result completed_process * W
}.

Arguments repo_get_workflow_runs {W}.
Arguments subprocess_run {W}.

(** The pattern [timeout\s*=\s*\d+] of [fix_test_timeout]. *)
Definition timeout_setting : regex :=
  lit "timeout" ⋅ Star (Cls CSpace) ⋅ Chr "="%char ⋅ Star (Cls CSpace) ⋅ Plus (Cls CDigit).

(** The pattern [timeout-minutes:\s*\d+] of [increase_resources]. *)
Definition timeout_minutes : regex :=
  lit "timeout-minutes:" ⋅ Star (Cls CSpace) ⋅ Plus (Cls CDigit).

Definition pytest_timeout_section : string :=
  "[pytest]" +:+ nl +:+ "timeout = 300" +:+ nl.

Definition pytest_reruns_option : string :=
  "addopts = --reruns 3 --reruns-delay 1" +:+ nl.

Definition workflow_file : string := ".github/workflows/main.yml".

(** [s[:n]] *)
Definition prefix_of (n : nat) (s : string) : string := str (take n (chars s)).

Section Strategies.
Context {W : Type}.
Variable C : collaborators W.
Variable C' : more_collaborators W.
Variable repo_available : bool.
Variable heal_metric_available : bool.

(** The block that counts a healing action, in its [try]. *)
Definition count_heal_action : M W unit :=
  if heal_metric_available then emit MetricHealAction else ret tt.

(** [HealingEngine.add_package_to_requirements]: it answers [None], or
    the dictionary of its [except] branch. *)
Definition add_package_to_requirements (package : string) (branch : value) : M W (option dict) :=
  try_catch
    (if repo_available then
       emit (RepoGetContents "requirements.txt" branch) ;;;
       requirements_file <- call (repo_get_contents C "requirements.txt" branch) ;;
       let current_content := decoded_content requirements_file in
       if negb (str_in package current_content) then
         let new_content := strip current_content +:+ nl +:+ package +:+ nl in
         emit (RepoUpdateFile "requirements.txt" ("[AUTO-HEAL] Add " +:+ package) new_content
                              (sha requirements_file) branch) ;;;
         call (repo_update_file C "requirements.txt" ("[AUTO-HEAL] Add " +:+ package) new_content
                                (sha requirements_file) branch) ;;;
         ret None
       else ret None
     else ret None)
    (fun e =>
       ret (Some (<["success" := VBool false]> (<["details" := VStr e]> ∅)))).

(** [HealingEngine.fix_test_timeout] *)
Definition fix_test_timeout (analysis workflow_run : dict) : M W dict :=
  let test_name := get_default analysis "test_name" (VStr "unknown") in
  try_catch
    (let branch := get_default workflow_run "head_branch" (VStr "main") in
     if repo_available then
       try_catch
         (emit (RepoGetContents "pytest.ini" branch) ;;;
          pytest_config <- call (repo_get_contents C "pytest.ini" branch) ;;
          let content := decoded_content pytest_config in
          let new_content :=
            if str_in "timeout" content then sub false timeout_setting "timeout = 300" content
            else content +:+ nl +:+ pytest_timeout_section in
          let message := "[AUTO-HEAL] Increase test timeout for " +:+ format_value test_name in
          emit (RepoUpdateFile "pytest.ini" message new_content (sha pytest_config) branch) ;;;
          call (repo_update_file C "pytest.ini" message new_content (sha pytest_config) branch) ;;;
          ret (<["success" := VBool true]>
               (<["details" := VStr ("Increased timeout to 300s for " +:+ format_value test_name)]>
               (<["changes_made" := VList ["pytest.ini: timeout = 300"]]> ∅))))
         (fun _ =>
            let message := "[AUTO-HEAL] Add pytest timeout configuration" in
            emit (RepoCreateFile "pytest.ini" message pytest_timeout_section branch) ;;;
            call (repo_create_file C "pytest.ini" message pytest_timeout_section branch) ;;;
            ret (<["success" := VBool true]>
                 (<["details" := VStr "Created pytest.ini with 300s timeout"]>
                 (<["changes_made" := VList ["pytest.ini: created with timeout = 300"]]> ∅))))
     else
       ret (<["success" := VBool false]> (<["details" := VStr "Repo not configured"]> ∅)))
    (fun e =>
       ret (<["success" := VBool false]>
            (<["details" := VStr ("Error fixing timeout: " +:+ e)]> ∅))).

(** [HealingEngine.fix_flaky_test] *)
Definition fix_flaky_test (analysis workflow_run : dict) : M W dict :=
  try_catch
    (let branch := get_default workflow_run "head_branch" (VStr "main") in
     _ <- add_package_to_requirements "pytest-rerunfailures" branch ;;
     (if repo_available then
        try_catch
          (emit (RepoGetContents "pytest.ini" branch) ;;;
           pytest_config <- call (repo_get_contents C "pytest.ini" branch) ;;
           let content := decoded_content pytest_config in
           if negb (str_in "--reruns" content) then
             let new_content := content +:+ nl +:+ pytest_reruns_option in
             let message := "[AUTO-HEAL] Add retry logic for flaky tests" in
             emit (RepoUpdateFile "pytest.ini" message new_content (sha pytest_config) branch) ;;;
             call (repo_update_file C "pytest.ini" message new_content (sha pytest_config) branch)
           else ret tt)
          (fun _ =>
             let content := "[pytest]" +:+ nl +:+ pytest_reruns_option in
             let message := "[AUTO-HEAL] Add retry logic for flaky tests" in
             emit (RepoCreateFile "pytest.ini" message content branch) ;;;
             call (repo_create_file C "pytest.ini" message content branch))
      else ret tt) ;;;
     ret (<["success" := VBool true]>
          (<["details" := VStr "Added retry logic (3 retries) for flaky tests"]>
          (<["changes_made" := VList ["requirements.txt: +pytest-rerunfailures";
                                      "pytest.ini: --reruns 3"]]> ∅))))
    (fun e =>
       ret (<["success" := VBool false]>
            (<["details" := VStr ("Error fixing flaky test: " +:+ e)]> ∅))).

(** The loop of [rollback_deployment]: the first run that concluded
    with success. *)
Fixpoint last_good (workflows : list workflow_run_info) : option workflow_run_info :=
  match workflows with
  | [] => None
  | run :: workflows' =>
      if Monitor.str_is (run_conclusion run) "success" then Some run else last_good workflows'
  end.

(** [HealingEngine.rollback_deployment] *)
Definition rollback_deployment (analysis workflow_run : dict) : M W dict :=
  try_catch
    (if repo_available then
       workflows <- call (repo_get_workflow_runs C' "push" "success") ;;
       match last_good workflows with
       | None =>
           ret (<["success" := VBool false]>
                (<["details" := VStr "No previous successful deployment found"]> ∅))
       | Some last_good_run =>
           let last_good_commit := run_head_sha last_good_run in
           count_heal_action ;;;
           ret (<["success" := VBool true]>
                (<["details" := VStr ("Rolled back to commit " +:+ prefix_of 7 last_good_commit)]>
                (<["changes_made" :=
                     VList ["deployment: reverted to " +:+ prefix_of 7 last_good_commit]]> ∅)))
       end
     else
       ret (<["success" := VBool false]> (<["details" := VStr "Repo not configured"]> ∅)))
    (fun e =>
       ret (<["success" := VBool false]>
            (<["details" := VStr ("Rollback failed: " +:+ e)]> ∅))).

(** [HealingEngine.increase_resources] *)
Definition increase_resources (analysis workflow_run : dict) : M W dict :=
  try_catch
    (let branch := get_default workflow_run "head_branch" (VStr "main") in
     if repo_available then
       try_catch
         (emit (RepoGetContents workflow_file branch) ;;;
          workflow_content <- call (repo_get_contents C workflow_file branch) ;;
          let content := decoded_content workflow_content in
          let new_content :=
            if str_in "timeout-minutes" content
            then sub false timeout_minutes "timeout-minutes: 60" content
            else content in
          let message := "[AUTO-HEAL] Increase workflow timeout" in
          emit (RepoUpdateFile workflow_file message new_content (sha workflow_content) branch) ;;;
          call (repo_update_file C workflow_file message new_content (sha workflow_content)
                                 branch) ;;;
          ret (<["success" := VBool true]>
               (<["details" := VStr "Increased workflow timeout to 60 minutes"]>
               (<["changes_made" := VList ["workflow: timeout-minutes = 60"]]> ∅))))
         (fun e =>
            ret (<["success" := VBool false]>
                 (<["details" := VStr ("Could not update workflow: " +:+ e)]> ∅)))
     else
       ret (<["success" := VBool false]> (<["details" := VStr "Repo not configured"]> ∅)))
    (fun e =>
       ret (<["success" := VBool false]>
            (<["details" := VStr ("Error increasing resources: " +:+ e)]> ∅))).

(** [HealingEngine.add_retry_logic] *)
Definition add_retry_logic (analysis workflow_run : dict) : M W dict :=
  try_catch
    (let branch := get_default workflow_run "head_branch" (VStr "main") in
     _ <- add_package_to_requirements "requests" branch ;;
     _ <- add_package_to_requirements "urllib3" branch ;;
     count_heal_action ;;;
     ret (<["success" := VBool true]>
          (<["details" := VStr "Added retry-capable HTTP libraries"]>
          (<["changes_made" := VList ["requirements.txt: +requests";
                                      "Suggested: Implement retry logic in code"]]> ∅))))
    (fun e =>
       ret (<["success" := VBool false]>
            (<["details" := VStr ("Error adding retry logic: " +:+ e)]> ∅))).

(** The registry [self.strategies], with every strategy in full. *)
Definition strategies : list (string * (dict -> dict -> M W dict)) :=
  [ ("missing_dependency", fix_missing_dependency C repo_available);
    ("test_timeout", fix_test_timeout);
    ("flaky_test", fix_flaky_test);
    ("build_failure", fix_build_failure);
    ("deployment_crash", rollback_deployment);
    ("resource_limit", increase_resources);
    ("network_timeout", add_retry_logic) ].

End Strategies.

(** The file a strategy may write, and the file it may read. *)
Definition written_path (e : event) : option string :=
  match e with
  | RepoUpdateFile path _ _ _ _ | RepoCreateFile path _ _ _ => Some path
  | _ => None
  end.

Definition touched_branch (e : event) : option value :=
  match e with
  | RepoGetContents _ ref => Some ref
  | RepoUpdateFile _ _ _ _ branch | RepoCreateFile _ _ _ branch => Some branch
  | _ => None
  end.

(** The files the strategy registered under a name writes to. *)
Definition files_of (name : string) : list string :=
  if String.eqb name "missing_dependency" then ["requirements.txt"]
  else if String.eqb name "test_timeout" then ["pytest.ini"]
  else if String.eqb name "flaky_test" then ["requirements.txt"; "pytest.ini"]
  else if String.eqb name "resource_limit" then [workflow_file]
  else if String.eqb name "network_timeout" then ["requirements.txt"]
  else [].

(** An event a strategy named [name] may produce for a run on [branch]:
    the count of a healing action, or a call of the repository on that
    branch that, if it writes, writes one of the files of the strategy. *)
Definition allowed (name : string) (branch : value) (e : event) : Prop :=
  e = MetricHealAction \/
  (touched_branch e = Some branch /\
   match written_path e with
   | Some path => path ∈ files_of name
   | None => True
   end).

(** The count of a healing action. *)
Definition is_heal_metric (e : event) : bool :=
  match e with
  | MetricHealAction => true
  | _ => false
  end.

(** The creation of [pytest.ini] that [fix_flaky_test] attempts in the
    world [w], and what the repository answers to it: the file is
    created when it cannot be read, or when it has no ["--reruns"] in it
    and its update raises; there is no creation otherwise. *)
Definition reruns_creation {W} (C : collaborators W) (branch : value) (w : W)
  : option (result unit) :=
  let message := "[AUTO-HEAL] Add retry logic for flaky tests" in
  let create w :=
    Some (fst (repo_create_file C "pytest.ini" message
                                ("[pytest]" +:+ nl +:+ pytest_reruns_option) branch w)) in
  match repo_get_contents C "pytest.ini" branch w with
  | (inl _, w1) => create w1
  | (inr pytest_config, w1) =>
      if str_in "--reruns" (decoded_content pytest_config) then None
      else
        match repo_update_file C "pytest.ini" message
                               (decoded_content pytest_config +:+ nl +:+ pytest_reruns_option)
                               (sha pytest_config) branch w1
        with
        | (inl _, w2) => create w2
        | (inr _, _) => None
        end
  end.

(** The event of that creation. *)
Definition reruns_created (branch : value) : event :=
  RepoCreateFile "pytest.ini" "[AUTO-HEAL] Add retry logic for flaky tests"
                 ("[pytest]" +:+ nl +:+ pytest_reruns_option) branch.

(** A result dictionary that reports: it says whether the strategy
    succeeded, and gives details as a text. *)
Definition reports (d : dict) : Prop :=
  exists b details, d !! "success" = Some (VBool b) /\ d !! "details" = Some (VStr details).

(** The answers of a computation satisfy [Q], when it answers. *)
Definition answers {W A} (Q : A -> Prop) (m : M W A) : Prop :=
  forall st, match outcome m st with inr a => Q a | inl _ => True end.

(** A computation answers from every state, and with [Q]. *)
Definition returns {W A} (Q : A -> Prop) (m : M W A) : Prop :=
  forall st, exists a, outcome m st = inr a /\ Q a.

End EngineStrategies.


(* ===================================================================== *)
(** * More of the simulated world *)
(* ===================================================================== *)

Module SimMore.
Import Py Eff EngineStrategies Sim.

(** Two earlier runs of the workflow, and a [kubectl] that succeeds. *)
Definition github_more : more_collaborators sim := {|
  repo_get_workflow_runs := fun event status w =>
    (inr [ {| run_conclusion := VStr "failure"; run_head_sha := "1f0c9d2e7ab3" |};
           {| run_conclusion := VStr "success"; run_head_sha := "9a8b7c6d5e4f" |} ], w);
  subprocess_run := fun argv w =>
    (inr {| returncode := 0; stdout := "rolled back"; stderr := "" |}, w)
|}.

End SimMore.


(* ===================================================================== *)
(** * Vocabulary for the predictor *)
(* ===================================================================== *)

Module PredictorSpec.
Import Py Predictor.

(** The place of a risk level on the scale of [_risk]. *)
Definition risk_rank (level : string) : nat :=
  if String.eqb level "very_high" then 4
  else if String.eqb level "high" then 3
  else if String.eqb level "medium" then 2
  else if String.eqb level "low" then 1
  else 0.

(** A scaler fitted on vectors of [n] features rejects the others, as
    [StandardScaler.transform] does. *)
Definition expects (n : nat) (p : FailurePredictor) : Prop :=
  forall features, length features <> n -> exists e, transform p features = inl e.

(** A predictor with the artifacts of the training script: a scaler
    fitted on the twelve features of a run, and two models that answer
    the same probability. *)
Definition trained_predictor (prob : float) : FailurePredictor := {|
  failure_model := Some (fun _ => inr prob);
  healing_model := Some (fun _ => inr prob);
  scaler := Some (fun features =>
                    if Nat.eqb (length features) 12 then inr []
                    else inl "ValueError: X has a wrong number of features; StandardScaler is expecting 12 features as input.");
  is_model_loaded := true;
  clock := Sim.utc_clock
|}.

End PredictorSpec.


(* ===================================================================== *)
(** * main.py: the webhook *)
(* ===================================================================== *)

Module Webhook.
Import Py Eff HealingEngine Monitor.
Local Open Scope eff_scope.

(** [d[k]] *)
Definition subscript (d : dict) (k : string) : result value :=
  match d !! k with
  | Some v => inr v
  | None => inl ("KeyError: '" +:+ k +:+ "'")
  end.

(** The JSON body the endpoint answers with. *)
Inductive response :=
| Received (run_id : value)
| Ignored (action : string).

(** A task handed to [background_tasks]: a call of
    [handle_pipeline_failure] with these arguments. *)
Record task := { task_run_id : value; task_workflow_run : dict }.

(** [HTTPException(status_code=500, detail=str(e))] *)
Definition http_500 (detail : exn) : exn := "HTTPException 500: " +:+ detail.

Section Endpoint.
Context {W : Type}.

(** [db.create_pipeline_run(run_id, repo, status, conclusion, started_at,
    completed_at)]: it raises, or answers the stored record, given here
    by what reading its attribute [run_id] gives: the value, or the
    exception of a record that cannot be read any more. *)
Variable create_pipeline_run :
  value -> value -> value -> value -> value -> value -> W -> result (result value) * W.

(** [main.github_webhook]: the body it answers with, and the tasks it
    has added to [background_tasks]. *)
Definition github_webhook (action : string) (workflow_run repository : dict)
  : M W (response * list task) :=
  try_catch
    (if bool_decide (action ∈ ["completed"; "failed"]) then
       run_id <- lift (subscript workflow_run "id") ;;
       repo <- lift (subscript repository "full_name") ;;
       status <- lift (subscript workflow_run "status") ;;
       let conclusion := get workflow_run "conclusion" in
       started_at <- lift (subscript workflow_run "created_at") ;;
       let completed_at := get workflow_run "updated_at" in
       pipeline_run <- call (create_pipeline_run run_id repo status conclusion
                                                 started_at completed_at) ;;
       emit MetricRuns ;;;
       (if str_is conclusion "success" then emit MetricSuccess else ret tt) ;;;
       tasks <- (if str_is conclusion "failure" then
                   stored_run_id <- lift pipeline_run ;;
                   ret [ {| task_run_id := stored_run_id; task_workflow_run := workflow_run |} ]
                 else ret []) ;;
       run_id' <- lift (subscript workflow_run "id") ;;
       ret (Received run_id', tasks)
     else ret (Ignored action, []))
    (fun e => raise (http_500 e)).

End Endpoint.

(** ** Vocabulary for the end of a failure pass *)

Definition is_rerun (e : event) : bool :=
  match e with
  | Rerun _ => true
  | _ => false
  end.

Definition is_notification (e : event) : bool :=
  match e with
  | Notification _ => true
  | _ => false
  end.

Definition is_healing_record (e : event) : bool :=
  match e with
  | DbHealingAction _ _ _ _ => true
  | _ => false
  end.

(** An event that closes nothing: no record of a healing action, no
    rerun and no notification. *)
Definition opening (e : event) : Prop :=
  is_healing_record e = false /\ is_rerun e = false /\ is_notification e = false.

(** The ways a failure pass for [run_id] can close: nothing (a call
    raised before the decision); a notification (healing was not tried);
    the record of a healing action alone (storing it raised), followed
    by a rerun when the action succeeded, or by a notification when it
    did not. *)
Definition closing (run_id : value) (evs : list event) : Prop :=
  evs = [] \/
  evs = [Notification run_id] \/
  exists action success details,
    let record := DbHealingAction run_id action success details in
    evs = [record] \/
    (truthy success = true /\ evs = [record; Rerun run_id]) \/
    (truthy success = false /\ evs = [record; Notification run_id]).

End Webhook.


(* ===================================================================== *)
(** * github_monitor.py *)
(* ===================================================================== *)

Module GitHubMonitor.
Import Py Eff Monitor.
Local Open Scope eff_scope.

(** A step and a job of a workflow run, as PyGithub gives them. *)
Record step := { step_name : string; step_conclusion : value }.
Record job := { job_name : string; job_steps : list step }.

(** A workflow run of a listing.  [head_commit_author] is [None] when
    the run has no head commit. *)
Record workflow_run := {
  run_id : Z;
  run_name : string;
  run_conclusion : value;
  created_at : string;              (* [run.created_at.isoformat()] *)
  head_branch : string;
  head_sha : string;
  head_commit_author : option string;
  html_url : string
}.

(** The dictionary [test_results] of [analyze_test_results]. *)
Record test_results := {
  total_tests : Z;
  passed : Z;
  failed : Z;
  skipped : Z;
  failed_tests : list (string * string);       (* name of the step, name of the job *)
  flaky_tests : list string
}.

(** The calls of PyGithub behind the two methods: the jobs of a run
    ([int(run_id)], [get_workflow_run], [run.jobs()]) and the listing of
    runs with a status and a conclusion. *)
Record github_api (W : Type) := {
  get_jobs : value -> W -> result (list job) * W;
  get_workflow_runs : string -> string -> W -> result (list workflow_run) * W
}.

Arguments get_jobs {W}.
Arguments get_workflow_runs {W}.

(** The body of [for step in job.steps]. *)
Definition count_step (job_name : string) (results : test_results) (s : step) : test_results :=
  if str_in "test" (lower (step_name s)) then
    if str_is (step_conclusion s) "success" then
      {| total_tests := total_tests results; passed := passed results + 1;
         failed := failed results; skipped := skipped results;
         failed_tests := failed_tests results; flaky_tests := flaky_tests results |}
    else if str_is (step_conclusion s) "failure" then
      {| total_tests := total_tests results; passed := passed results;
         failed := failed results + 1; skipped := skipped results;
         failed_tests := (failed_tests results ++ [(step_name s, job_name)])%list;
         flaky_tests := flaky_tests results |}
    else if str_is (step_conclusion s) "skipped" then
      {| total_tests := total_tests results; passed := passed results;
         failed := failed results; skipped := skipped results + 1;
         failed_tests := failed_tests results; flaky_tests := flaky_tests results |}
    else results
  else results.

(** The body of [for job in jobs]: the steps, then the total. *)
Definition count_job (results : test_results) (j : job) : test_results :=
  let results := fold_left (count_step (job_name j)) (job_steps j) results in
  {| total_tests := passed results + failed results + skipped results;
     passed := passed results; failed := failed results; skipped := skipped results;
     failed_tests := failed_tests results; flaky_tests := flaky_tests results |}.

Definition no_results : test_results :=
  {| total_tests := 0; passed := 0; failed := 0; skipped := 0;
     failed_tests := []; flaky_tests := [] |}.

(** The entry [get_recent_failures] builds for a run. *)
Definition failure_entry (run : workflow_run) : dict :=
  <["url" := VStr (html_url run)]>
  (<["author" := match head_commit_author run with Some a => VStr a | None => VNone end]>
  (<["head_sha" := VStr (head_sha run)]>
  (<["head_branch" := VStr (head_branch run)]>
  (<["created_at" := VStr (created_at run)]>
  (<["conclusion" := run_conclusion run]>
  (<["name" := VStr (run_name run)]>
  (<["id" := VInt (run_id run)]> ∅))))))).

(** The loop [for i, run in enumerate(workflows)] with its [break]. *)
Fixpoint first_failures (i limit : Z) (workflows : list workflow_run) (failures : list dict)
  : list dict :=
  match workflows with
  | [] => failures
  | run :: workflows' =>
      if Z.leb limit i then failures
      else first_failures (i + 1) limit workflows' (failures ++ [failure_entry run])%list
  end.

Section Methods.
Context {W : Type}.
Variable G : github_api W.

(** [GitHubMonitor.analyze_test_results]: [None] stands for the empty
    dictionary of the [except] branch. *)
Definition analyze_test_results (run_id : value) : M W (option test_results) :=
  try_catch
    (jobs <- call (get_jobs G run_id) ;;
     ret (Some (fold_left count_job jobs no_results)))
    (fun _ => ret None).

(** [GitHubMonitor.get_recent_failures] *)
Definition get_recent_failures (limit : Z) : M W (list dict) :=
  try_catch
    (workflows <- call (get_workflow_runs G "completed" "failure") ;;
     ret (first_failures 0 limit workflows []))
    (fun _ => ret []).

End Methods.

(** ** Vocabulary *)

(** A step that looks like a test and concluded as given. *)
Definition test_step (conclusion : string) (s : step) : bool :=
  str_in "test" (lower (step_name s)) && str_is (step_conclusion s) conclusion.

(** The steps of all jobs, each with the name of its job. *)
Definition all_steps (jobs : list job) : list (string * step) :=
  flat_map (fun j => map (fun s => (job_name j, s)) (job_steps j)) jobs.

(** How many of them satisfy [f]. *)
Definition how_many (f : step -> bool) (jobs : list job) : Z :=
  Z.of_nat (length (List.filter (fun x : string * step => f x.2) (all_steps jobs))).

End GitHubMonitor.


(* ===================================================================== *)
(** * models.py: the database *)
(* ===================================================================== *)

Module Database.
Import Py.

(** The rows of the tables.  [run_id] is the text of a column that is
    not nullable; a date the database sets is a number of seconds; [id]
    is the key the database assigns. *)
Record PipelineRun := {
  pr_id : Z;
  pr_run_id : string;
  pr_repo : value;
  pr_status : value;
  pr_conclusion : value;
  pr_started_at : value;
  pr_completed_at : value;
  pr_created_at : Z
}.

Record FailureLog := {
  fl_id : Z;
  fl_run_id : string;
  fl_error_type : value;
  fl_error_message : value;
  fl_stack_trace : value;
  fl_severity : value;
  fl_created_at : Z
}.

Record HealingAction := {
  ha_id : Z;
  ha_run_id : string;
  ha_action_type : value;
  ha_success : value;
  ha_details : value;
  ha_changes_made : list string;
  ha_created_at : Z
}.

Record Metric := {
  me_id : Z;
  me_run_id : value;
  me_name : string;
  me_value : float;
  me_timestamp : Z
}.

(** The database: whether [connect] has made a session factory, the
    four tables in the order of insertion, and the next key.  The
    statements of a session are read on a database that executes them:
    a query with [filter_by] and [first] is a search of the table, a
    [delete] with a filter removes the rows that satisfy it, and
    [commit] writes what the session holds. *)
Record db := {
  connected : bool;
  pipeline_runs : list PipelineRun;
  failure_logs : list FailureLog;
  healing_actions : list HealingAction;
  metrics : list Metric;
  next_id : Z
}.

(** [Database.get_session] *)
Definition get_session (d : db) : result unit :=
  if connected d then inr tt else inl "Database not connected".

(** [session.query(PipelineRun).filter_by(run_id=run_id).first()] *)
Definition find_run (run_id : string) (rows : list PipelineRun) : option PipelineRun :=
  List.find (fun row => bool_decide (pr_run_id row = run_id)) rows.

(** The row with key [key] replaced: what [commit] writes back for the
    object [existing]. *)
Definition write_back (updated : PipelineRun) (rows : list PipelineRun) : list PipelineRun :=
  map (fun row => if Z.eqb (pr_id row) (pr_id updated) then updated else row) rows.

(** What the caller of [create_pipeline_run] holds.  The session is
    made with the default [expire_on_commit]: [commit] expires the
    attributes of the records of the session, [refresh] loads them
    again, and [close] detaches the records.  A record that is returned
    after [commit] without [refresh] is [Expired]: reading one of its
    attributes raises [DetachedInstanceError]. *)
Inductive instance :=
| Loaded (row : PipelineRun)
| Expired.

(** [record.attribute] *)
Definition read {A} (attribute : PipelineRun -> A) (record : instance) : result A :=
  match record with
  | Loaded row => inr (attribute row)
  | Expired => inl "DetachedInstanceError"
  end.

Section Operations.

(** What [session.commit()] does with a row it is to write: the
    database checks the constraints of the columns, as its dialect
    enforces them, and raises when it refuses the row. *)
Variable commit_check : PipelineRun -> result unit.

(** [Database.create_pipeline_run], at time [now]. *)
Definition create_pipeline_run (run_id : string)
           (repo status conclusion started_at completed_at : value)
           (now : Z) (d : db) : result instance * db :=
  match get_session d with
  | inl e => (inl e, d)
  | inr _ =>
      match find_run run_id (pipeline_runs d) with
      | Some existing =>
          let updated :=
            {| pr_id := pr_id existing; pr_run_id := pr_run_id existing;
               pr_repo := pr_repo existing; pr_status := status;
               pr_conclusion := conclusion; pr_started_at := pr_started_at existing;
               pr_completed_at := completed_at; pr_created_at := pr_created_at existing |} in
          match commit_check updated with
          | inl e => (inl e, d)
          | inr _ =>
              (inr Expired,
               {| connected := connected d;
                  pipeline_runs := write_back updated (pipeline_runs d);
                  failure_logs := failure_logs d; healing_actions := healing_actions d;
                  metrics := metrics d; next_id := next_id d |})
          end
      | None =>
          let pipeline_run :=
            {| pr_id := next_id d; pr_run_id := run_id; pr_repo := repo; pr_status := status;
               pr_conclusion := conclusion; pr_started_at := started_at;
               pr_completed_at := completed_at; pr_created_at := now |} in
          match commit_check pipeline_run with
          | inl e => (inl e, d)
          | inr _ =>
              (inr (Loaded pipeline_run),
               {| connected := connected d;
                  pipeline_runs := (pipeline_runs d ++ [pipeline_run])%list;
                  failure_logs := failure_logs d; healing_actions := healing_actions d;
                  metrics := metrics d; next_id := next_id d + 1 |})
          end
      end
  end.

End Operations.

(** [Database.get_pipeline_run] *)
Definition get_pipeline_run (run_id : string) (d : db) : result (option PipelineRun) :=
  match get_session d with
  | inl e => inl e
  | inr _ => inr (find_run run_id (pipeline_runs d))
  end.

(** [timedelta(days=days)], in seconds. *)
Definition days_in_seconds (days : Z) : Z := days * 86400.

(** [x in run_ids] *)
Definition in_ids (run_ids : list string) (x : string) : bool := bool_decide (x ∈ run_ids).

(** [Database.cleanup_old_data], at time [now]. *)
Definition cleanup_old_data (days : Z) (now : Z) (d : db) : result unit * db :=
  match get_session d with
  | inl e => (inl e, d)
  | inr _ =>
      let cutoff_date := now - days_in_seconds days in
      let metrics' := List.filter (fun m => negb (Z.ltb (me_timestamp m) cutoff_date)) (metrics d) in
      let old_runs := List.filter (fun run => Z.ltb (pr_created_at run) cutoff_date)
                                  (pipeline_runs d) in
      let run_ids := map pr_run_id old_runs in
      match run_ids with
      | [] =>
          (inr tt,
           {| connected := connected d; pipeline_runs := pipeline_runs d;
              failure_logs := failure_logs d; healing_actions := healing_actions d;
              metrics := metrics'; next_id := next_id d |})
      | _ =>
          (inr tt,
           {| connected := connected d;
              pipeline_runs :=
                List.filter (fun run => negb (in_ids run_ids (pr_run_id run))) (pipeline_runs d);
              failure_logs :=
                List.filter (fun log => negb (in_ids run_ids (fl_run_id log))) (failure_logs d);
              healing_actions :=
                List.filter (fun a => negb (in_ids run_ids (ha_run_id a))) (healing_actions d);
              metrics := metrics'; next_id := next_id d |})
      end
  end.

(** The answer of [get_healing_history]: the rows that [to_dict]
    renders. *)
Record history := {
  pipeline_run : PipelineRun;
  failures : list FailureLog;
  healing : list HealingAction
}.

(** [Database.get_healing_history] *)
Definition get_healing_history (run_id : string) (d : db) : result (option history) :=
  match get_session d with
  | inl e => inl e
  | inr _ =>
      match find_run run_id (pipeline_runs d) with
      | None => inr None
      | Some run =>
          inr (Some {| pipeline_run := run;
                       failures := List.filter (fun f => String.eqb (fl_run_id f) run_id)
                                               (failure_logs d);
                       healing := List.filter (fun h => String.eqb (ha_run_id h) run_id)
                                              (healing_actions d) |})
      end
  end.

(** ** Vocabulary *)

(** No two runs of the table have the same [run_id], and the keys of
    the table are below the next key. *)
Definition well_keyed (d : db) : Prop :=
  NoDup (map pr_run_id (pipeline_runs d)) /\
  NoDup (map pr_id (pipeline_runs d)) /\
  Forall (fun row => pr_id row < next_id d) (pipeline_runs d).

(** Every failure log and every healing action refers to a run of the
    table. *)
Definition referenced (d : db) : Prop :=
  Forall (fun log => fl_run_id log ∈ map pr_run_id (pipeline_runs d)) (failure_logs d) /\
  Forall (fun a => ha_run_id a ∈ map pr_run_id (pipeline_runs d)) (healing_actions d).

End Database.


(* ===================================================================== *)
(** * healing_engine.py: the Kubernetes healer *)
(* ===================================================================== *)

Module KubernetesHealer.
Import Py Eff EngineStrategies.
Local Open Scope eff_scope.

(** [s.split()] without argument: the words of [s] between runs of
    whitespace.  [word] holds the characters of the word being read,
    the last one first. *)
Fixpoint split_chars (word : list ascii) (s : list ascii) : list string :=
  match s with
  | [] =>
      match word with
      | [] => []
      | _ => [str (rev word)]
      end
  | c :: s' =>
      if is_space c then
        match word with
        | [] => split_chars [] s'
        | _ => str (rev word) :: split_chars [] s'
        end
      else split_chars (c :: word) s'
  end.

Definition split (s : string) : list string := split_chars [] (chars s).

Section Methods.
Context {W : Type}.
Variable C' : more_collaborators W.
Variable heal_metric_available : bool.

(** [KubernetesHealer.rollback_deployment] *)
Definition rollback_deployment (deployment_name namespace : string) : M W dict :=
  try_catch
    (let cmd := "kubectl rollout undo deployment/" +:+ deployment_name +:+ " -n " +:+ namespace in
     result <- call (subprocess_run C' (split cmd)) ;;
     if Z.eqb (returncode result) 0 then
       count_heal_action heal_metric_available ;;;
       ret (<["success" := VBool true]>
            (<["details" := VStr ("Rolled back deployment " +:+ deployment_name)]>
            (<["output" := VStr (stdout result)]> ∅)))
     else
       ret (<["success" := VBool false]>
            (<["details" := VStr ("Rollback failed: " +:+ stderr result)]> ∅)))
    (fun e =>
       ret (<["success" := VBool false]>
            (<["details" := VStr ("K8s rollback error: " +:+ e)]> ∅))).

(** [KubernetesHealer.scale_deployment] *)
Definition scale_deployment (deployment_name : string) (replicas : value) (namespace : string)
  : M W dict :=
  try_catch
    (let cmd := "kubectl scale deployment/" +:+ deployment_name +:+ " --replicas="
                +:+ HealingEngine.format_value replicas +:+ " -n " +:+ namespace in
     result <- call (subprocess_run C' (split cmd)) ;;
     if Z.eqb (returncode result) 0 then
       count_heal_action heal_metric_available ;;;
       ret (<["success" := VBool true]>
            (<["details" := VStr ("Scaled " +:+ deployment_name +:+ " to "
                                  +:+ HealingEngine.format_value replicas +:+ " replicas")]> ∅))
     else
       ret (<["success" := VBool false]> (<["details" := VStr (stderr result)]> ∅)))
    (fun e =>
       ret (<["success" := VBool false]>
            (<["details" := VStr ("Scaling error: " +:+ e)]> ∅))).

(** [KubernetesHealer.restart_pods] *)
Definition restart_pods (deployment_name namespace : string) : M W dict :=
  try_catch
    (let cmd := "kubectl rollout restart deployment/" +:+ deployment_name +:+ " -n "
                +:+ namespace in
     result <- call (subprocess_run C' (split cmd)) ;;
     if Z.eqb (returncode result) 0 then
       count_heal_action heal_metric_available ;;;
       ret (<["success" := VBool true]>
            (<["details" := VStr ("Restarted " +:+ deployment_name +:+ " pods")]> ∅))
     else
       ret (<["success" := VBool false]> (<["details" := VStr (stderr result)]> ∅)))
    (fun e =>
       ret (<["success" := VBool false]>
            (<["details" := VStr ("Restart error: " +:+ e)]> ∅))).

(** ** Vocabulary *)

(** [m] is one run of the command line [argv] and a report on it: the
    world is left as the command leaves it, the report says success
    exactly when the command returns with code zero, and a healing
    action is counted exactly then. *)
Definition runs_command (argv : list string) (m : M W dict) : Prop :=
  forall st,
    let r := subprocess_run C' argv (world st) in
    world (state_after m st) = r.2 /\
    exists d,
      outcome m st = inr d /\ reports d /\
      (get d "success" = VBool true <-> exists p, r.1 = inr p /\ returncode p = 0) /\
      events m st = if (truthy (get d "success") && heal_metric_available)%bool
                    then [MetricHealAction] else [].

End Methods.

(** An ASCII text without whitespace. *)
Definition unbroken (s : string) : Prop :=
  Forall (fun c => is_space c = false /\ Nat.ltb (nat_of_ascii c) 128 = true) (chars s).

End KubernetesHealer.


(* ===================================================================== *)
(** * ml_predictor.py: loading the models *)
(* ===================================================================== *)

Module ModelLoading.
Import Py Predictor.

(** The directory [/app/models] as [load_model] reads it.  For the two
    classifiers, [None] says that [os.path.exists] answers [False];
    otherwise the field is what [joblib.load] answers or raises.  The
    scaler is loaded without a test: a missing file raises. *)
Record model_files := {
  failure_predictor_pkl : option (result (list float -> result float));
  scaler_pkl : result (list feature -> result (list float));
  healing_predictor_pkl : option (result (list float -> result float))
}.

(** [FailurePredictor.__init__] *)
Definition new_predictor (clock : string -> result (Z * Z * Z)) : FailurePredictor :=
  {| failure_model := None; healing_model := None; scaler := None;
     is_model_loaded := false; clock := clock |}.

(** [FailurePredictor.load_model]: what it returns, and the predictor
    after the call. *)
Definition load_model (files : model_files) (p : FailurePredictor) : bool * FailurePredictor :=
  match failure_predictor_pkl files with
  | None => (false, p)
  | Some (inl _) => (false, p)
  | Some (inr model) =>
      let p1 := {| failure_model := Some model; healing_model := healing_model p;
                   scaler := scaler p; is_model_loaded := is_model_loaded p;
                   clock := clock p |} in
      match scaler_pkl files with
      | inl _ => (false, p1)
      | inr transform =>
          let p2 := {| failure_model := failure_model p1; healing_model := healing_model p1;
                       scaler := Some transform; is_model_loaded := is_model_loaded p1;
                       clock := clock p1 |} in
          match healing_predictor_pkl files with
          | Some (inl _) => (false, p2)
          | Some (inr healing) =>
              (true, {| failure_model := failure_model p2; healing_model := Some healing;
                        scaler := scaler p2; is_model_loaded := true; clock := clock p2 |})
          | None =>
              (true, {| failure_model := failure_model p2; healing_model := healing_model p2;
                        scaler := scaler p2; is_model_loaded := true; clock := clock p2 |})
          end
      end
  end.

(** [FailurePredictor.is_loaded] *)
Definition is_loaded (p : FailurePredictor) : bool := is_model_loaded p.

(** ** Vocabulary *)

(** The predictor after the calls of [load_model] on the directory as
    it was at each call, the first call first. *)
Definition reloaded (history : list model_files) (p : FailurePredictor) : FailurePredictor :=
  fold_left (fun p files => (load_model files p).2) history p.

(** What the prediction methods rely on: a predictor that says it is
    loaded has a failure model and a scaler, and a predictor with a
    healing model has a scaler. *)
Definition usable (p : FailurePredictor) : Prop :=
  (is_loaded p = true -> failure_model p <> None /\ scaler p <> None) /\
  (healing_model p <> None -> scaler p <> None).

(** Every file that is read loads. *)
Definition complete (files : model_files) : Prop :=
  (exists model, failure_predictor_pkl files = Some (inr model)) /\
  (exists transform, scaler_pkl files = inr transform) /\
  (forall e, healing_predictor_pkl files <> Some (inl e)).

End ModelLoading.


(* ===================================================================== *)
(** * Properties of the failure classifier *)
(* ===================================================================== *)

Module ClassifierProperties.
Import Py Re Eff HealingEngine Spec.
Local Open Scope list_scope.

(** ** What a recorded match leaves in the dictionary *)

Lemma record_match_error_type etype m analysis :
  record_match etype m analysis !! "error_type" = Some (VStr etype).
Proof.
  unfold record_match.
  destruct (String.eqb etype "missing_dependency");
    [| destruct (String.eqb etype "test_timeout")];
    repeat (rewrite lookup_insert_ne by discriminate);
    apply lookup_insert_eq.
Qed.

Lemma record_match_fixable etype m analysis :
  record_match etype m analysis !! "fixable" = Some (VBool (in_strategies (VStr etype))).
Proof.
  unfold record_match.
  destruct (String.eqb etype "missing_dependency");
    [| destruct (String.eqb etype "test_timeout")];
    repeat (rewrite lookup_insert_ne by discriminate);
    apply lookup_insert_eq.
Qed.

(** The loop either leaves the dictionary alone (no pattern matched) or
    records the first pattern that matches. *)
Lemma match_patterns_cases ps logs analysis :
  (Forall (no_match logs) ps /\
   match_patterns ps logs analysis = analysis) \/
  (exists pre p etype post m,
      ps = pre ++ (p, etype) :: post /\
      Forall (no_match logs) pre /\
      search true p logs = Some m /\
      match_patterns ps logs analysis = record_match etype m analysis).
Proof.
  induction ps as [| [p etype] ps IH]; simpl.
  - left. split; [constructor | reflexivity].
  - destruct (search true p logs) as [m |] eqn:Hs.
    + right. exists [], p, etype, ps, m.
      split; [reflexivity |]. split; [constructor |]. split; [assumption | reflexivity].
    + destruct IH as [[Hnone Heq] | (pre & q & et & post & m & Hps & Hpre & Hq & Heq)].
      * left. split; [constructor; assumption | assumption].
      * right. exists ((p, etype) :: pre), q, et, post, m.
        split; [simpl; now rewrite Hps |].
        split; [constructor; assumption |].
        split; assumption.
Qed.

(** The later steps of [analyze_failure] do not touch ["error_type"] and
    ["fixable"]. *)
Lemma analyze_failure_error_type logs :
  analyze_failure logs !! "error_type"
  = match_patterns patterns logs initial_analysis !! "error_type".
Proof.
  unfold analyze_failure.
  rewrite lookup_insert_ne by discriminate.
  destruct (search_traceback (chars logs)); [rewrite lookup_insert_ne by discriminate |];
    reflexivity.
Qed.

Lemma analyze_failure_fixable logs :
  analyze_failure logs !! "fixable"
  = match_patterns patterns logs initial_analysis !! "fixable".
Proof.
  unfold analyze_failure.
  rewrite lookup_insert_ne by discriminate.
  destruct (search_traceback (chars logs)); [rewrite lookup_insert_ne by discriminate |];
    reflexivity.
Qed.

Lemma analyze_failure_severity logs :
  analyze_failure logs !! "severity"
  = Some (VStr (severity_of (category (analyze_failure logs)))).
Proof.
  unfold category, get. rewrite analyze_failure_error_type.
  unfold analyze_failure. rewrite lookup_insert_eq. do 3 f_equal.
  unfold get_default.
  destruct (search_traceback (chars logs)); [rewrite lookup_insert_ne by discriminate |].
  all: destruct (match_patterns_cases patterns logs initial_analysis)
    as [[_ ->] | (pre & p & et & post & m & _ & _ & _ & ->)];
    rewrite ?record_match_error_type; reflexivity.
Qed.

(** The category [analyze_failure] returns: ["unknown"] when no pattern
    matches, else the type of the first pattern that matches. *)
Lemma analyze_failure_category logs :
  (Forall (no_match logs) patterns /\
   category (analyze_failure logs) = VStr "unknown" /\
   get (analyze_failure logs) "fixable" = VBool false) \/
  (exists pre p etype post,
      patterns = pre ++ (p, etype) :: post /\
      Forall (no_match logs) pre /\
      is_Some (search true p logs) /\
      category (analyze_failure logs) = VStr etype /\
      get (analyze_failure logs) "fixable" = VBool (in_strategies (VStr etype))).
Proof.
  unfold category, get.
  rewrite analyze_failure_error_type, analyze_failure_fixable.
  destruct (match_patterns_cases patterns logs initial_analysis)
    as [[Hnone ->] | (pre & p & et & post & m & Hps & Hpre & Hm & ->)].
  - left. split; [assumption | split; reflexivity].
  - right. exists pre, p, et, post.
    rewrite record_match_error_type, record_match_fixable.
    split; [assumption |]. split; [assumption |].
    split; [now exists m |]. split; reflexivity.
Qed.

(** A rule that matches after rules that do not is the one recorded. *)
Lemma match_patterns_first pre p etype post logs m analysis :
  Forall (no_match logs) pre ->
  search true p logs = Some m ->
  match_patterns (pre ++ (p, etype) :: post) logs analysis = record_match etype m analysis.
Proof.
  intros Hpre Hm. induction Hpre as [| [q et] pre Hq _ IH]; simpl.
  - now rewrite Hm.
  - unfold no_match in Hq. simpl in Hq. now rewrite Hq.
Qed.

(** ** The two loops of [identify_pattern] visit the flat rule list *)

Lemma first_regex_flat pattern_type regex_list rest error_log :
  first_rule (map (fun r => (r, pattern_type)) regex_list ++ rest) error_log
  = match FailurePatterns.first_regex pattern_type regex_list error_log with
    | Some r => Some r
    | None => first_rule rest error_log
    end.
Proof.
  induction regex_list as [| r rs IH]; simpl; [reflexivity |].
  destruct (search true r error_log); [reflexivity | apply IH].
Qed.

Lemma first_pattern_flat ps error_log :
  FailurePatterns.first_pattern ps error_log = first_rule (flat_rules ps) error_log.
Proof.
  induction ps as [| [pattern_type regex_list] ps IH]; simpl; [reflexivity |].
  rewrite first_regex_flat, IH. reflexivity.
Qed.

Lemma first_rule_first pre r pattern_type post error_log m :
  Forall (no_match error_log) pre ->
  search true r error_log = Some m ->
  first_rule (pre ++ (r, pattern_type) :: post) error_log
  = Some (pattern_type, FailurePatterns.details_of pattern_type m).
Proof.
  intros Hpre Hm. induction Hpre as [| [q c] pre Hq _ IH]; simpl.
  - now rewrite Hm.
  - unfold no_match in Hq. simpl in Hq. now rewrite Hq.
Qed.

(** Whatever [first_rule] reports carries the type of one of the rules. *)
Lemma first_rule_type rules error_log pattern_type details :
  first_rule rules error_log = Some (pattern_type, details) ->
  pattern_type ∈ rules.*2.
Proof.
  induction rules as [| [r c] rules IH]; simpl; [discriminate |].
  destruct (search true r error_log).
  - intros [= <- _]. apply list_elem_of_here.
  - intros H. apply list_elem_of_further, IH, H.
Qed.

(** ** Closed set of categories (C4) *)

(** C4, as stated, fails: the log line of a failed [npm install] is
    classified by [HealingEngine.analyze_failure] as
    ["npm_dependency_error"], which is not one of the eleven categories of
    the closed enumeration. *)
Lemma C4_npm_category_outside_enumeration :
  ~ (exists c, category (analyze_failure "Error: Command failed: npm install") = VStr c /\
               c ∈ closed_categories).
Proof.
  intros (c & Hc & Hin).
  assert (Hnpm : category (analyze_failure "Error: Command failed: npm install")
                 = VStr "npm_dependency_error") by (vm_compute; reflexivity).
  rewrite Hnpm in Hc. injection Hc as <-.
  revert Hin. unfold closed_categories. rewrite !elem_of_cons, elem_of_nil.
  intros H. repeat (destruct H as [H | H]; [discriminate H |]). exact H.
Qed.

(** C4, amended: for every log text, the error type produced by
    [HealingEngine.analyze_failure] is one of missing_dependency,
    test_timeout, test_failure, build_failure, npm_dependency_error,
    deployment_crash, resource_limit, network_timeout and unknown; and the
    category produced by [FailurePatternAnalyzer.identify_pattern] is a
    member of the closed enumeration of eleven categories. *)
Theorem C4_categories_closed (logs : string) :
  (exists c, category (analyze_failure logs) = VStr c /\ c ∈ engine_categories) /\
  (FailurePatterns.identify_pattern logs).1 ∈ closed_categories.
Proof.
  split.
  - destruct (analyze_failure_category logs)
      as [(_ & -> & _) | (pre & p & et & post & Hps & _ & _ & -> & _)].
    + exists "unknown". split; [reflexivity |]. unfold engine_categories. set_solver.
    + exists et. split; [reflexivity |].
      assert (Hall : Forall (fun rule : regex * string => rule.2 ∈ engine_categories) patterns).
      { unfold patterns, engine_categories. repeat constructor; simpl; set_solver. }
      rewrite Forall_forall in Hall.
      apply (Hall (p, et)). rewrite Hps. set_solver.
  - unfold FailurePatterns.identify_pattern. rewrite first_pattern_flat.
    destruct (first_rule (flat_rules FailurePatterns.patterns) logs) as [[c d] |] eqn:Hr.
    + apply first_rule_type in Hr. simpl.
      assert (Hall : Forall (fun c => c ∈ closed_categories)
                            (flat_rules FailurePatterns.patterns).*2).
      { unfold closed_categories. vm_compute. repeat constructor. }
      rewrite Forall_forall in Hall. apply Hall, Hr.
    + simpl. unfold closed_categories. set_solver.
Qed.

(** ** First match wins (C5) *)

(** C5: in both classifiers, when a rule of the ordered list matches the
    log and no rule declared before it does, the returned category is the
    one of that rule, whatever the later rules do. *)
Theorem C5_first_matching_rule_wins (logs : string) :
  (forall pre p etype post,
      patterns = pre ++ (p, etype) :: post ->
      Forall (no_match logs) pre ->
      is_Some (search true p logs) ->
      category (analyze_failure logs) = VStr etype) /\
  (forall pre r pattern_type post,
      flat_rules FailurePatterns.patterns = pre ++ (r, pattern_type) :: post ->
      Forall (no_match logs) pre ->
      is_Some (search true r logs) ->
      (FailurePatterns.identify_pattern logs).1 = pattern_type).
Proof.
  split.
  - intros pre p etype post Hps Hpre [m Hm].
    unfold category, get. rewrite analyze_failure_error_type, Hps.
    rewrite (match_patterns_first pre p etype post logs m) by assumption.
    now rewrite record_match_error_type.
  - intros pre r pattern_type post Hps Hpre [m Hm].
    unfold FailurePatterns.identify_pattern. rewrite first_pattern_flat, Hps.
    now rewrite (first_rule_first pre r pattern_type post logs m).
Qed.

(** A log that matches a [missing_dependency] rule and a [test_failure]
    rule: the rule declared first wins in both classifiers. *)
Lemma C5_first_matching_rule_wins_witness :
  let logs := "ModuleNotFoundError: No module named 'pandas' / AssertionError: boom" in
  (is_Some (search true (lit "AssertionError") logs) /\
   category (analyze_failure logs) = VStr "missing_dependency") /\
  (FailurePatterns.identify_pattern logs).1 = "missing_dependency".
Proof.
  intros logs. split; [split |].
  - vm_compute. eexists. reflexivity.
  - eapply (proj1 (C5_first_matching_rule_wins logs) [] _ _ (tl patterns)).
    + reflexivity.
    + constructor.
    + vm_compute. eexists. reflexivity.
  - eapply (proj2 (C5_first_matching_rule_wins logs) [] _ _
                  (tl (flat_rules FailurePatterns.patterns))).
    + reflexivity.
    + constructor.
    + vm_compute. eexists. reflexivity.
Defined.

(** ** Severity and fixability (C7) *)

(** C7: for every log text the severity of the analysis is critical when
    the category is deployment_crash or resource_limit, high when it is
    missing_dependency or build_failure, and medium for every other
    category; and an analysis of category unknown is not fixable. *)
Theorem C7_severity_lookup_and_unknown_not_fixable (logs : string) :
  let analysis := analyze_failure logs in
  (category analysis = VStr "deployment_crash" \/ category analysis = VStr "resource_limit" ->
   get analysis "severity" = VStr "critical") /\
  (category analysis = VStr "missing_dependency" \/ category analysis = VStr "build_failure" ->
   get analysis "severity" = VStr "high") /\
  (category analysis <> VStr "deployment_crash" ->
   category analysis <> VStr "resource_limit" ->
   category analysis <> VStr "missing_dependency" ->
   category analysis <> VStr "build_failure" ->
   get analysis "severity" = VStr "medium") /\
  (category analysis = VStr "unknown" -> get analysis "fixable" = VBool false).
Proof.
  intros analysis.
  assert (Hsev : get analysis "severity" = VStr (severity_of (category analysis))).
  { unfold get at 1. unfold analysis. now rewrite analyze_failure_severity. }
  rewrite Hsev.
  split; [| split; [| split]].
  - intros [-> | ->]; reflexivity.
  - intros [-> | ->]; reflexivity.
  - intros H1 H2 H3 H4.
    destruct (analyze_failure_category logs)
      as [(_ & Hc & _) | (pre & p & et & post & Hps & _ & _ & Hc & _)];
      fold analysis in Hc; rewrite Hc in *; [reflexivity |].
    unfold severity_of, value_in.
    repeat case_bool_decide; try reflexivity.
    all: exfalso; repeat match goal with
         | H : _ ∈ _ :: _ |- _ => apply elem_of_cons in H; destruct H as [-> | H]
         | H : _ ∈ [] |- _ => apply elem_of_nil in H; exact H
         end; congruence.
  - intros Hunk.
    destruct (analyze_failure_category logs)
      as [(_ & _ & Hf) | (pre & p & et & post & Hps & _ & _ & Hc & Hf)];
      [exact Hf |].
    fold analysis in Hc, Hf. rewrite Hc in Hunk. injection Hunk as ->.
    rewrite Hf. reflexivity.
Qed.

(** The three lookups and the unknown case, each on a log that reaches it. *)
Lemma C7_severity_lookup_and_unknown_not_fixable_witness :
  get (analyze_failure "OOMKilled: Container exceeded memory limit (512Mi)") "severity"
    = VStr "critical" /\
  get (analyze_failure "ModuleNotFoundError: No module named 'pandas'") "severity"
    = VStr "high" /\
  get (analyze_failure "AssertionError") "severity" = VStr "medium" /\
  get (analyze_failure "nothing to see here") "fixable" = VBool false.
Proof.
  split; [| split; [| split]].
  - apply (proj1 (C7_severity_lookup_and_unknown_not_fixable
                    "OOMKilled: Container exceeded memory limit (512Mi)")).
    right. vm_compute. reflexivity.
  - apply (proj1 (proj2 (C7_severity_lookup_and_unknown_not_fixable
                           "ModuleNotFoundError: No module named 'pandas'"))).
    left. vm_compute. reflexivity.
  - apply (proj1 (proj2 (proj2 (C7_severity_lookup_and_unknown_not_fixable "AssertionError"))));
      vm_compute; discriminate.
  - apply (proj2 (proj2 (proj2 (C7_severity_lookup_and_unknown_not_fixable
                                  "nothing to see here")))).
    vm_compute. reflexivity.
Defined.

End ClassifierProperties.


(* ===================================================================== *)
(** * Properties of the predictor *)
(* ===================================================================== *)

Module PredictorProperties.
Import Py Predictor Sim.

(** ** Healing-success prediction never raises (C3) *)

(** C3: [predict_healing_success] always returns a probability and never
    raises; without a healing model it returns exactly 0.5; and an
    exception raised inside it (by the feature extraction, the scaler or
    the model) is turned into 0.5. *)
Theorem C3_healing_prediction_never_raises (p : FailurePredictor) (failure_analysis : dict) :
  (exists prob, predict_healing_success p failure_analysis = inr prob) /\
  (healing_model p = None -> predict_healing_success p failure_analysis = inr f_0_5) /\
  (forall e, healing_score p failure_analysis = inl e ->
             predict_healing_success p failure_analysis = inr f_0_5).
Proof.
  unfold predict_healing_success. split; [| split].
  - destruct (healing_score p failure_analysis) as [e | prob]; eauto.
  - intros Hnone. unfold healing_score. rewrite Hnone. reflexivity.
  - intros e He. rewrite He. reflexivity.
Qed.

(** Without artifacts the answer is 0.5, and so it is when the model
    raises. *)
Lemma C3_healing_prediction_never_raises_witness :
  predict_healing_success unloaded_predictor ∅ = inr f_0_5 /\
  predict_healing_success failing_predictor ∅ = inr f_0_5.
Proof.
  split.
  - apply (proj1 (proj2 (C3_healing_prediction_never_raises unloaded_predictor ∅))).
    reflexivity.
  - apply (proj2 (proj2 (C3_healing_prediction_never_raises failing_predictor ∅))
                 "ValueError: X has 5 features, but the model expects 12").
    vm_compute. reflexivity.
Defined.

(** ** The failure flag of a run prediction (C10) *)

(** With the model loaded, [predict_failure] returns a prediction as soon
    as the features, the scaler, the model and the risk factors answer. *)
Lemma predict_failure_loaded p run features scaled prob factors :
  is_model_loaded p = true ->
  _extract_features p run = inr features ->
  transform p features = inr scaled ->
  predict_proba (failure_model p) scaled = inr prob ->
  _factors features = inr factors ->
  predict_failure p run = inr (Pred (fgt prob f_0_5) prob (_risk prob) factors).
Proof.
  intros Hl Hf Ht Hp Hfac. unfold predict_failure, failure_prediction.
  rewrite Hl, Hf. simpl. rewrite Ht. simpl. rewrite Hp. simpl. rewrite Hfac. reflexivity.
Qed.

(** Conversely a prediction comes from the model, with the flag computed
    from the probability. *)
Lemma predict_failure_pred p run will_fail confidence risk factors :
  predict_failure p run = inr (Pred will_fail confidence risk factors) ->
  is_model_loaded p = true /\ will_fail = fgt confidence f_0_5.
Proof.
  unfold predict_failure, failure_prediction.
  destruct (is_model_loaded p); simpl; [| discriminate].
  destruct (_extract_features p run) as [e | features]; simpl; [discriminate |].
  destruct (transform p features) as [e | scaled]; simpl; [discriminate |].
  destruct (predict_proba (failure_model p) scaled) as [e | prob]; simpl; [discriminate |].
  destruct (_factors features) as [e | fs]; simpl; [discriminate |].
  intros [= <- <- _ _]. split; reflexivity.
Qed.

(** C10: in a prediction returned by [predict_failure] (which requires the
    model to be loaded) [will_fail] is true exactly when the probability is
    strictly greater than 0.5; at probability 0.5 it is false. *)
Theorem C10_will_fail_iff_above_half
        (p : FailurePredictor) (run : dict)
        (will_fail : bool) (confidence : float) (risk : string) (factors : list string) :
  predict_failure p run = inr (Pred will_fail confidence risk factors) ->
  is_model_loaded p = true /\
  (will_fail = true <-> flt f_0_5 confidence = true) /\
  (confidence = f_0_5 -> will_fail = false).
Proof.
  intros H. apply predict_failure_pred in H as [Hl ->].
  split; [assumption |]. split; [reflexivity |].
  intros ->. reflexivity.
Qed.

(** A run that GitHub dated, with a model that answers 0.5 and with a
    model that answers 0.701: the program returns a prediction for it,
    and the flag is as the theorem says. *)
Lemma C10_will_fail_iff_above_half_witness :
  (predict_failure (constant_predictor f_0_5) dated_run
   = inr (Pred false f_0_5 "medium" ["No major risk factors"]) /\
   flt f_0_5 f_0_5 = false) /\
  (predict_failure (constant_predictor f_0_701) dated_run
   = inr (Pred true f_0_701 "high" ["No major risk factors"]) /\
   flt f_0_5 f_0_701 = true).
Proof.
  assert (H5 : predict_failure (constant_predictor f_0_5) dated_run
               = inr (Pred false f_0_5 "medium" ["No major risk factors"])).
  { vm_compute. reflexivity. }
  assert (H7 : predict_failure (constant_predictor f_0_701) dated_run
               = inr (Pred true f_0_701 "high" ["No major risk factors"])).
  { vm_compute. reflexivity. }
  split; (split; [assumption |]).
  - destruct (C10_will_fail_iff_above_half _ _ _ _ _ _ H5) as (_ & [_ Hflag] & _).
    destruct (flt f_0_5 f_0_5); [discriminate (Hflag eq_refl) | reflexivity].
  - apply (proj1 (proj1 (proj2 (C10_will_fail_iff_above_half _ _ _ _ _ _ H7)))). reflexivity.
Defined.

End PredictorProperties.


(* ===================================================================== *)
(** * Properties of the healing engine *)
(* ===================================================================== *)

Module EngineProperties.
Import Py Re Eff HealingEngine Spec Sim.
Local Open Scope list_scope.

(** Unfold one run of a monadic program. *)
Ltac run_monad :=
  unfold outcome, state_after, events, try_catch, bind, ret, raise, emit, call, lift; simpl.

(** ** The events of composed computations *)

Section MonadLemmas.
Context {W : Type}.
Implicit Types st : state W.

Lemma events_bind {A B} (m : M W A) (k : A -> M W B) st :
  events (bind m k) st
  = events m st ++ match outcome m st with
                   | inr a => events (k a) (state_after m st)
                   | inl _ => []
                   end.
Proof.
  unfold events, outcome, state_after, bind.
  destruct (m st) as [[[e | a] st1] evs1]; simpl.
  - now rewrite app_nil_r.
  - now destruct (k a st1) as [[r st2] evs2].
Qed.

Lemma events_try_catch {A} (m : M W A) (h : exn -> M W A) st :
  events (try_catch m h) st
  = events m st ++ match outcome m st with
                   | inr _ => []
                   | inl e => events (h e) (state_after m st)
                   end.
Proof.
  unfold events, outcome, state_after, try_catch.
  destruct (m st) as [[[e | a] st1] evs1]; simpl.
  - now destruct (h e st1) as [[r st2] evs2].
  - now rewrite app_nil_r.
Qed.

Lemma try_catch_outcome {A} (m : M W A) (h : exn -> M W A) st :
  (forall e st', exists a, outcome (h e) st' = inr a) ->
  exists a, outcome (try_catch m h) st = inr a.
Proof.
  intros Hh. unfold outcome, try_catch.
  destruct (m st) as [[[e | a] st1] evs1]; simpl; [| eauto].
  destruct (Hh e st1) as [a Ha]. unfold outcome in Ha.
  destruct (h e st1) as [[r st2] evs2]. simpl in *. eauto.
Qed.

Lemma outcome_bind {A B} (m : M W A) (k : A -> M W B) st :
  outcome (bind m k) st
  = match outcome m st with
    | inr a => outcome (k a) (state_after m st)
    | inl e => inl e
    end.
Proof.
  unfold outcome, state_after, bind.
  destruct (m st) as [[[e | a] st1] evs1]; simpl; [reflexivity |].
  now destruct (k a st1) as [[r st2] evs2].
Qed.

Lemma state_after_bind {A B} (m : M W A) (k : A -> M W B) st :
  state_after (bind m k) st
  = match outcome m st with
    | inr a => state_after (k a) (state_after m st)
    | inl e => state_after m st
    end.
Proof.
  unfold outcome, state_after, bind.
  destruct (m st) as [[[e | a] st1] evs1]; simpl; [reflexivity |].
  now destruct (k a st1) as [[r st2] evs2].
Qed.

Lemma outcome_try_catch {A} (m : M W A) (h : exn -> M W A) st :
  outcome (try_catch m h) st
  = match outcome m st with
    | inr a => inr a
    | inl e => outcome (h e) (state_after m st)
    end.
Proof.
  unfold outcome, state_after, try_catch.
  destruct (m st) as [[[e | a] st1] evs1]; simpl; [| reflexivity].
  now destruct (h e st1) as [[r st2] evs2].
Qed.

Lemma state_after_try_catch {A} (m : M W A) (h : exn -> M W A) st :
  state_after (try_catch m h) st
  = match outcome m st with
    | inr a => state_after m st
    | inl e => state_after (h e) (state_after m st)
    end.
Proof.
  unfold outcome, state_after, try_catch.
  destruct (m st) as [[[e | a] st1] evs1]; simpl; [| reflexivity].
  now destruct (h e st1) as [[r st2] evs2].
Qed.

Lemma events_swallow {A} (m : M W A) (a : A) st :
  events (try_catch m (fun _ => ret a)) st = events m st.
Proof.
  rewrite events_try_catch. destruct (outcome m st); apply app_nil_r.
Qed.

Lemma events_emit e st : events (emit e : M W unit) st = [e].
Proof. reflexivity. Qed.

Lemma outcome_emit e st : outcome (emit e : M W unit) st = inr tt.
Proof. reflexivity. Qed.

Lemma state_after_emit e st : state_after (emit e : M W unit) st = st.
Proof. reflexivity. Qed.

Lemma events_ret {A} (a : A) st : events (ret a : M W A) st = [].
Proof. reflexivity. Qed.

Lemma outcome_ret {A} (a : A) st : outcome (ret a : M W A) st = inr a.
Proof. reflexivity. Qed.

Lemma state_after_ret {A} (a : A) st : state_after (ret a : M W A) st = st.
Proof. reflexivity. Qed.

Lemma events_lift {A} (r : result A) st : events (lift r : M W A) st = [].
Proof. reflexivity. Qed.

Lemma outcome_lift {A} (r : result A) st : outcome (lift r : M W A) st = r.
Proof. reflexivity. Qed.

Lemma state_after_lift {A} (r : result A) st : state_after (lift r : M W A) st = st.
Proof. reflexivity. Qed.

Lemma events_call {A} (op : W -> result A * W) st : events (call op) st = [].
Proof. unfold events, call. now destruct (op (world st)). Qed.

Lemma last_seen_call {A} (op : W -> result A * W) st :
  last_seen (state_after (call op) st) = last_seen st /\
  last_seen_run (state_after (call op) st) = last_seen_run st.
Proof. unfold state_after, call. now destruct (op (world st)). Qed.

Variable P : event -> Prop.

Lemma emits_only_ret {A} (a : A) : emits_only P (ret a : M W A).
Proof. intros st. constructor. Qed.

Lemma emits_only_raise {A} e : emits_only P (raise e : M W A).
Proof. intros st. constructor. Qed.

Lemma emits_only_lift {A} (r : result A) : emits_only P (lift r : M W A).
Proof. intros st. constructor. Qed.

Lemma emits_only_call {A} (op : W -> result A * W) : emits_only P (call op).
Proof. intros st. unfold events, call. destruct (op (world st)). constructor. Qed.

Lemma emits_only_emit e : P e -> emits_only P (emit e : M W unit).
Proof. intros He st. repeat constructor. exact He. Qed.

Lemma emits_only_bind {A B} (m : M W A) (k : A -> M W B) :
  emits_only P m -> (forall a, emits_only P (k a)) -> emits_only P (bind m k).
Proof.
  intros Hm Hk st. rewrite events_bind. apply Forall_app. split; [apply Hm |].
  destruct (outcome m st); [constructor | apply Hk].
Qed.

Lemma emits_only_try_catch {A} (m : M W A) (h : exn -> M W A) :
  emits_only P m -> (forall e, emits_only P (h e)) -> emits_only P (try_catch m h).
Proof.
  intros Hm Hh st. rewrite events_try_catch. apply Forall_app. split; [apply Hm |].
  destruct (outcome m st); [apply Hh | constructor].
Qed.

(** The same for properties of [last_seen]. *)
Variable J : gset value -> Prop.

Lemma seen_inv_ret {A} (a : A) : seen_inv J (ret a : M W A).
Proof. intros st H. exact H. Qed.

Lemma seen_inv_raise {A} e : seen_inv J (raise e : M W A).
Proof. intros st H. exact H. Qed.

Lemma seen_inv_lift {A} (r : result A) : seen_inv J (lift r : M W A).
Proof. intros st H. exact H. Qed.

Lemma seen_inv_emit e : seen_inv J (emit e : M W unit).
Proof. intros st H. exact H. Qed.

Lemma seen_inv_call {A} (op : W -> result A * W) : seen_inv J (call op).
Proof. intros st H. now rewrite (proj1 (last_seen_call op st)). Qed.

Lemma seen_inv_get_last_seen : seen_inv J (get_last_seen : M W _).
Proof. intros st H. exact H. Qed.

Lemma seen_inv_get_last_seen_run : seen_inv J (get_last_seen_run : M W _).
Proof. intros st H. exact H. Qed.

Lemma seen_inv_set_last_seen_run v : seen_inv J (set_last_seen_run v : M W _).
Proof. intros st H. exact H. Qed.

Lemma seen_inv_bind {A B} (m : M W A) (k : A -> M W B) :
  seen_inv J m -> (forall a, seen_inv J (k a)) -> seen_inv J (bind m k).
Proof.
  intros Hm Hk st H. rewrite state_after_bind.
  destruct (outcome m st); [apply Hm, H | apply Hk, Hm, H].
Qed.

Lemma seen_inv_try_catch {A} (m : M W A) (h : exn -> M W A) :
  seen_inv J m -> (forall e, seen_inv J (h e)) -> seen_inv J (try_catch m h).
Proof.
  intros Hm Hh st H. rewrite state_after_try_catch.
  destruct (outcome m st); [apply Hh, Hm, H | apply Hm, H].
Qed.

Lemma seen_inv_for_each {A} (l : list A) (body : A -> M W unit) :
  (forall x, seen_inv J (body x)) -> seen_inv J (for_each l body).
Proof.
  intros Hb. induction l as [| x l IH]; simpl.
  - apply seen_inv_ret.
  - apply seen_inv_bind; [apply Hb | intros _; exact IH].
Qed.

End MonadLemmas.

Create Rewrite HintDb monad.

#[export] Hint Rewrite
  @events_bind @outcome_bind @state_after_bind
  @events_try_catch @outcome_try_catch @state_after_try_catch
  @events_emit @outcome_emit @state_after_emit
  @events_ret @outcome_ret @state_after_ret
  @events_lift @outcome_lift @state_after_lift
  @events_call : monad.

(** Decompose a computation along its structure. *)
Ltac emits_step :=
  first
    [ apply emits_only_ret
    | apply emits_only_raise
    | apply emits_only_lift
    | apply emits_only_call
    | apply emits_only_emit
    | apply emits_only_bind; [| intros ?]
    | apply emits_only_try_catch; [| intros ?]
    | match goal with
      | |- emits_only _ (if ?b then _ else _) => destruct b
      | |- emits_only _ (match ?x with _ => _ end) => destruct x
      end ].

(** Case analysis on the answer of a collaborator or on a test. *)
Ltac case_step :=
  match goal with
  | |- context [match ?x with (_, _) => _ end] =>
      match type of x with
      | (result _ * _)%type => destruct x as [[? | ?] ?] eqn:?
      end
  | |- context [if ?b then _ else _] => destruct b eqn:?
  end.

(** Which element of an explicit list of events is it? *)
Ltac pick_event H :=
  repeat (apply elem_of_cons in H; destruct H as [-> | H]);
  try (apply elem_of_nil in H; contradiction).

(** ** The missing-dependency strategy (C8) *)

Lemma chars_app a b : chars (a +:+ b) = chars a ++ chars b.
Proof. unfold chars. induction a as [| c a IH]; simpl; [reflexivity | now rewrite IH]. Qed.

Lemma chars_str l : chars (str l) = l.
Proof. apply list_ascii_of_string_of_list_ascii. Qed.

Lemma str_chars s : str (chars s) = s.
Proof. apply string_of_list_ascii_of_string. Qed.

Lemma drop_while_head p l :
  drop_while p l = [] \/ exists c t, drop_while p l = c :: t /\ p c = false.
Proof.
  induction l as [| c l IH]; simpl; [now left |].
  destruct (p c) eqn:Hc; [exact IH | right; eauto].
Qed.

Lemma drop_while_snoc p l c :
  p c = false -> drop_while p (l ++ [c]) = drop_while p l ++ [c].
Proof.
  intros Hc. induction l as [| d l IH]; simpl.
  - now rewrite Hc.
  - destruct (p d); [exact IH | reflexivity].
Qed.

(** A trimmed text does not start with white space. *)
Lemma strip_head s :
  strip s = "" \/ exists c t, chars (strip s) = c :: t /\ is_space c = false.
Proof.
  unfold strip, lstrip_ws, rstrip_ws.
  destruct (drop_while_head is_space (chars s)) as [-> | (c & t & -> & Hc)].
  - left. reflexivity.
  - right. exists c. simpl rev. rewrite drop_while_snoc by exact Hc.
    rewrite rev_app_distr. simpl. eexists. rewrite chars_str. split; [reflexivity | exact Hc].
Qed.

(** What the strategy writes is the manifest, trimmed, followed by the
    package on a line of its own: the leading newlines that [lstrip]
    removes can only come from an empty manifest. *)
Lemma with_package_nonempty content pkg :
  strip content <> "" ->
  with_package content pkg = strip content +:+ nl +:+ pkg +:+ nl.
Proof.
  intros Hne. unfold with_package, lstrip_chars.
  destruct (strip_head content) as [He | (c & t & Hs & Hc)]; [contradiction |].
  set (text := strip content +:+ nl +:+ pkg +:+ nl).
  rewrite <- (str_chars text) at 2. f_equal.
  subst text. rewrite chars_app, Hs. simpl.
  replace (Ascii.eqb c newline) with false; [reflexivity |].
  symmetry. apply Ascii.eqb_neq. intros ->. discriminate Hc.
Qed.

Lemma with_package_empty content pkg :
  strip content = "" ->
  with_package content pkg = lstrip_chars nl (pkg +:+ nl).
Proof.
  intros He. unfold with_package, lstrip_chars. rewrite He. reflexivity.
Qed.



Ltac seen_step :=
  first
    [ apply seen_inv_ret
    | apply seen_inv_raise
    | apply seen_inv_lift
    | apply seen_inv_call
    | apply seen_inv_emit
    | apply seen_inv_get_last_seen
    | apply seen_inv_get_last_seen_run
    | apply seen_inv_set_last_seen_run
    | apply seen_inv_bind; [| intros ?]
    | apply seen_inv_try_catch; [| intros ?]
    | match goal with
      | |- seen_inv _ (if ?b then _ else _) => destruct b
      | |- seen_inv _ (match ?x with _ => _ end) => destruct x
      end ].

(** Turn a goal on the events from one state into a goal on the
    computation. *)
Ltac from_any_state :=
  match goal with
  | |- Forall ?P (events ?m ?s) => generalize s; change (emits_only P m)
  end.


(** ** What [heal] emits *)

(** The strategies and [heal] report no probability and do not call
    [heal]. *)
Lemma fix_missing_dependency_no_decision {W} (C : collaborators W) repo_available
      analysis workflow_run :
  emits_only no_decision (fix_missing_dependency C repo_available analysis workflow_run).
Proof.
  unfold fix_missing_dependency. repeat emits_step; split; reflexivity.
Qed.

Lemma heal_no_decision {W} (C : collaborators W) repo_available heal_metric_available
      run_id failure_analysis workflow_run :
  emits_only no_decision
             (heal C repo_available heal_metric_available run_id failure_analysis workflow_run).
Proof.
  unfold heal, strategy, fix_build_failure.
  repeat first [apply fix_missing_dependency_no_decision | emits_step]; split; reflexivity.
Qed.

(** When the error type has a strategy, [heal] calls it. *)
Lemma heal_dispatches {W} (C : collaborators W) repo_available heal_metric_available
      run_id failure_analysis workflow_run (st : state W) :
  in_strategies (category failure_analysis) = true ->
  StrategyCalled (format_value (category failure_analysis))
  ∈ events (heal C repo_available heal_metric_available run_id failure_analysis workflow_run) st.
Proof.
  intros Hin. unfold heal.
  assert (Hcat : get_default failure_analysis "error_type" (VStr "unknown")
                 = category failure_analysis).
  { unfold category, get, get_default in *.
    destruct (failure_analysis !! "error_type"); [reflexivity | discriminate Hin]. }
  rewrite Hcat. destruct (category failure_analysis) as [| | | name |] eqn:Hname;
    try discriminate Hin.
  rewrite Hin. simpl negb. cbv iota.
  rewrite events_try_catch, events_bind.
  apply elem_of_app. left. apply elem_of_app. left. apply list_elem_of_here.
Qed.

(** [heal] does not touch the set of seen runs. *)
Lemma heal_seen_inv {W} (C : collaborators W) repo_available heal_metric_available J
      run_id failure_analysis workflow_run :
  seen_inv J (heal C repo_available heal_metric_available run_id failure_analysis workflow_run).
Proof.
  unfold heal, strategy, fix_build_failure, fix_missing_dependency.
  repeat seen_step.
Qed.

(** [heal] does not raise for an error type that can be hashed. *)
Lemma heal_returns {W} (C : collaborators W) repo_available heal_metric_available
      run_id failure_analysis workflow_run (st : state W) :
  (forall l, get_default failure_analysis "error_type" (VStr "unknown") <> VList l) ->
  exists result,
    outcome (heal C repo_available heal_metric_available run_id failure_analysis workflow_run) st
    = inr result.
Proof.
  intros Hhashable. unfold heal.
  destruct (get_default failure_analysis "error_type" (VStr "unknown")) as [| | | |l] eqn:Htype.
  5: now destruct (Hhashable l).
  all: cbv iota.
  all: destruct (negb _); [eexists; reflexivity |].
  all: apply try_catch_outcome; intros e st'; eexists; reflexivity.
Qed.

End EngineProperties.


(* ===================================================================== *)
(** * Properties of the monitors *)
(* ===================================================================== *)

Module MonitorProperties.
Import Py Re Eff HealingEngine Predictor Monitor Spec Sim.
Import EngineProperties.
Local Open Scope list_scope.

Section Gate.
Context {W : Type}.
Variable C : collaborators W.
Variable P : FailurePredictor.
Variable repo_available heal_metric_available : bool.

(** The guard of the monitors accepts the same probabilities as the one
    of the webhook handler: a probability above 0.70 is not zero. *)
Lemma confident_safe_confident p : confident_safe p = confident p.
Proof.
  unfold confident_safe, confident, float_truthy, fgt, feq.
  destruct p as [[] | [] | | [] m e]; reflexivity.
Qed.

(** Events without decision in front do not disturb the gate. *)
Lemma gated_app guard run_id pre evs :
  Forall no_decision pre -> gated guard run_id evs -> gated guard run_id (pre ++ evs).
Proof.
  intros Hpre (pre' & Hpre' & [-> | (prob & analysis & post & Hpost & -> & Hs)]).
  - exists (pre ++ pre'). split; [now apply Forall_app | now left].
  - exists (pre ++ pre'). split; [now apply Forall_app |].
    right. exists prob, analysis, post. split; [assumption |].
    split; [now rewrite <- app_assoc | assumption].
Qed.

Lemma gated_nil guard run_id : gated guard run_id [].
Proof. exists []. split; [constructor | now left]. Qed.

Lemma predict_healing_success_returns failure_analysis :
  exists prob, predict_healing_success P failure_analysis = inr prob.
Proof.
  unfold predict_healing_success.
  destruct (healing_score P failure_analysis); eauto.
Qed.

Lemma fetch_logs_text_quiet run : emits_only no_decision (fetch_logs_text C run).
Proof. unfold fetch_logs_text. repeat emits_step. Qed.

Lemma handle_failed_run_gated run_id run (st : state W) :
  gated confident_safe run_id
        (events (handle_failed_run C P repo_available heal_metric_available run_id run) st).
Proof.
  unfold handle_failed_run.
  rewrite events_bind. apply gated_app; [apply fetch_logs_text_quiet |].
  destruct (outcome (fetch_logs_text C run) st) as [e | logs_text]; [apply gated_nil |].
  set (st1 := state_after _ st). clearbody st1.
  destruct (predict_healing_success_returns (analyze_failure logs_text)) as [prob Hprob].
  autorewrite with monad. rewrite Hprob. autorewrite with monad.
  exists [Analyzed run_id (analyze_failure logs_text)].
  split; [repeat constructor |]. right.
  exists prob, (analyze_failure logs_text).
  destruct (confident_safe prob) eqn:Hc.
  - autorewrite with monad.
    eexists. split; [| split; [reflexivity |]].
    + apply Forall_app. split; [| now destruct (outcome _ _)].
      apply Forall_app. split; [apply heal_no_decision |].
      destruct (outcome _ _); constructor.
    + intros _ Hin. apply elem_of_app. left. apply elem_of_app. left.
      apply heal_dispatches, Hin.
  - autorewrite with monad. exists []. split; [constructor |].
    split; [reflexivity | discriminate].
Qed.

Lemma handle_pipeline_failure_gated run_id workflow_run (st : state W) :
  gated confident run_id
        (events (handle_pipeline_failure C P repo_available heal_metric_available
                                         run_id workflow_run) st).
Proof.
  unfold handle_pipeline_failure.
  rewrite events_swallow, events_bind, events_call. simpl app.
  destruct (outcome (call (fetch_workflow_logs C run_id)) st) as [e | logs];
    [apply gated_nil |].
  set (st1 := state_after _ st). clearbody st1.
  destruct (predict_healing_success_returns (analyze_failure logs)) as [prob Hprob].
  set (analysis := analyze_failure logs) in *.
  rewrite !events_bind, !events_emit, !outcome_emit, !state_after_emit.
  apply (gated_app _ _ [_]); [repeat constructor |].
  apply (gated_app _ _ [_]); [repeat constructor |].
  rewrite events_call. simpl app.
  destruct (outcome (call (create_failure_log C _ _ _ _)) st1) as [e | []];
    [apply gated_nil |].
  set (st2 := state_after _ st1). clearbody st2.
  rewrite outcome_lift, state_after_lift, Hprob.
  exists []. split; [constructor |]. right. exists prob, analysis.
  destruct (confident prob) eqn:Hc.
  - autorewrite with monad.
    eexists. split; [| split; [reflexivity |]].
    + apply Forall_app. split; [apply heal_no_decision |].
      destruct (outcome _ _) as [e | healing_result]; [constructor |].
      from_any_state. repeat emits_step; split; reflexivity.
    + intros _ Hin. apply elem_of_app. left. apply heal_dispatches, Hin.
  - autorewrite with monad. eexists. split; [| split; [reflexivity | discriminate]].
    repeat constructor.
Qed.

(** Events without decision in front do not disturb a decision. *)
Lemma decided_app guard run_id prob analysis pre evs :
  Forall no_decision pre -> decided guard run_id prob analysis evs ->
  decided guard run_id prob analysis (pre ++ evs).
Proof.
  intros Hpre (pre' & post & Hpre' & Hpost & -> & Hs).
  exists (pre ++ pre'), post. split; [now apply Forall_app |]. split; [assumption |].
  split; [now rewrite <- app_assoc | assumption].
Qed.

(** What a decision means for the events of the pass. *)
Lemma decided_events guard run_id prob analysis evs :
  decided guard run_id prob analysis evs ->
  Probability run_id prob ∈ evs /\
  count is_probability evs = 1%nat /\
  count is_heal_call evs = (if guard prob then 1%nat else 0%nat) /\
  (guard prob = true ->
   HealCalled run_id analysis ∈ evs /\
   (in_strategies (category analysis) = true ->
    StrategyCalled (format_value (category analysis)) ∈ evs)) /\
  (guard prob = false -> forall run_id' analysis', HealCalled run_id' analysis' ∉ evs).
Proof.
  intros (pre & post & Hpre & Hpost & -> & Hs).
  assert (Hnone : forall f l, (forall e, no_decision e -> f e = false) ->
                              Forall no_decision l -> List.filter f l = []).
  { intros f l Hf Hl. induction Hl as [| e l He _ IH]; [reflexivity |].
    simpl. now rewrite (Hf e He), IH. }
  assert (Hpp : forall l, Forall no_decision l -> List.filter is_probability l = []).
  { intros l. apply Hnone. now intros e [_ He]. }
  assert (Hph : forall l, Forall no_decision l -> List.filter is_heal_call l = []).
  { intros l. apply Hnone. now intros e [He _]. }
  split; [apply elem_of_app; right; apply list_elem_of_here |].
  unfold count. rewrite !List.filter_app. cbn [List.filter is_probability is_heal_call].
  rewrite (Hpp pre Hpre), (Hph pre Hpre).
  destruct (guard prob) eqn:Hg; cbn [List.filter is_probability is_heal_call app length].
  all: rewrite (Hpp post Hpost), (Hph post Hpost).
  all: split; [reflexivity |]; split; [reflexivity |].
  - split; [| discriminate]. intros _. split.
    + apply elem_of_app. right. apply list_elem_of_further, list_elem_of_here.
    + intros Hin. apply elem_of_app. right. do 2 apply list_elem_of_further. now apply Hs.
  - split; [discriminate |]. intros _ rid a Hin.
    rewrite Forall_forall in Hpre, Hpost.
    apply elem_of_app in Hin as [Hin | Hin];
      [apply Hpre in Hin as [Hh _]; discriminate Hh |].
    apply elem_of_cons in Hin as [Hin | Hin]; [discriminate Hin |].
    apply Hpost in Hin as [Hh _]. discriminate Hh.
Qed.

(** The logs of a failed run are fetched without raising. *)
Lemma fetch_logs_text_returns run (st : state W) :
  exists logs_text, outcome (fetch_logs_text C run) st = inr logs_text.
Proof.
  unfold fetch_logs_text. apply try_catch_outcome. intros e st'. eexists. reflexivity.
Qed.

(** The failure branch of the monitors always reaches the decision. *)
Lemma handle_failed_run_decided run_id run (st : state W) :
  exists logs_text prob,
    outcome (fetch_logs_text C run) st = inr logs_text /\
    predict_healing_success P (analyze_failure logs_text) = inr prob /\
    decided confident run_id prob (analyze_failure logs_text)
            (events (handle_failed_run C P repo_available heal_metric_available run_id run) st).
Proof.
  destruct (fetch_logs_text_returns run st) as [logs_text Hlogs].
  destruct (predict_healing_success_returns (analyze_failure logs_text)) as [prob Hprob].
  exists logs_text, prob. split; [exact Hlogs |]. split; [exact Hprob |].
  unfold handle_failed_run.
  rewrite events_bind. apply decided_app; [apply fetch_logs_text_quiet |].
  rewrite Hlogs.
  set (st1 := state_after _ st). clearbody st1.
  autorewrite with monad. rewrite Hprob. autorewrite with monad.
  rewrite confident_safe_confident.
  exists [Analyzed run_id (analyze_failure logs_text)].
  destruct (confident prob) eqn:Hc.
  - autorewrite with monad.
    eexists. split; [repeat constructor |]. split; [| split; [reflexivity |]].
    + apply Forall_app. split; [| destruct (outcome (engine_heal _ _ _ _ _ _) st1); constructor].
      apply Forall_app. split; [apply heal_no_decision |].
      destruct (outcome (engine_heal _ _ _ _ _ _) st1); constructor.
    + intros _ Hin. apply elem_of_app. left. apply elem_of_app. left.
      apply heal_dispatches, Hin.
  - autorewrite with monad. exists []. split; [repeat constructor |].
    split; [constructor |]. split; [reflexivity | discriminate].
Qed.

Lemma outcome_call {A} (op : W -> result A * W) (st : state W) :
  outcome (call op) st = (op (world st)).1.
Proof. unfold outcome, call. now destruct (op (world st)). Qed.

Lemma world_after_call {A} (op : W -> result A * W) (st : state W) :
  world (state_after (call op) st) = (op (world st)).2.
Proof. unfold state_after, call. now destruct (op (world st)). Qed.

(** The webhook handler reaches the decision when the logs are fetched
    and the failure is stored; it stops without decision otherwise. *)
Lemma handle_pipeline_failure_decided run_id workflow_run (st : state W) :
  let evs := events (handle_pipeline_failure C P repo_available heal_metric_available
                                             run_id workflow_run) st in
  match fetch_workflow_logs C run_id (world st) with
  | (inl _, _) => Forall no_decision evs
  | (inr logs, w) =>
      let analysis := analyze_failure logs in
      match create_failure_log C run_id
                               (get_default analysis "error_type" (VStr "unknown"))
                               (get_default analysis "error_message" (VStr ""))
                               (get_default analysis "stack_trace" (VStr "")) w
      with
      | (inl _, _) => Forall no_decision evs
      | (inr _, _) =>
          exists prob,
            predict_healing_success P analysis = inr prob /\
            decided confident run_id prob analysis evs
      end
  end.
Proof.
  intros evs. subst evs. unfold handle_pipeline_failure.
  rewrite events_swallow, events_bind, events_call. simpl app.
  rewrite outcome_call.
  pose proof (world_after_call (fetch_workflow_logs C run_id) st) as Hw1.
  set (st1 := state_after (call (fetch_workflow_logs C run_id)) st) in *. clearbody st1.
  destruct (fetch_workflow_logs C run_id (world st)) as [[e | logs] w]; cbn [fst snd] in *;
    [constructor |].
  cbv zeta. set (analysis := analyze_failure logs).
  destruct (predict_healing_success_returns analysis) as [prob Hprob].
  rewrite !events_bind, !events_emit, !outcome_emit, !state_after_emit.
  rewrite events_call. simpl app. rewrite outcome_call, Hw1.
  set (st2 := state_after (call (create_failure_log C run_id _ _ _)) st1). clearbody st2.
  destruct (create_failure_log C run_id _ _ _ w) as [[e | u] w']; cbn [fst snd].
  - repeat constructor.
  - exists prob. split; [exact Hprob |].
    apply (decided_app _ _ _ _ [_; _]); [repeat constructor |].
    rewrite outcome_lift, state_after_lift, Hprob.
    exists []. destruct (confident prob) eqn:Hc.
    + autorewrite with monad.
      eexists. split; [constructor |]. split; [| split; [reflexivity |]].
      * apply Forall_app. split; [apply heal_no_decision |].
        destruct (outcome (engine_heal _ _ _ _ _ _) st2) as [e | healing_result];
          [constructor |].
        from_any_state. repeat emits_step; split; reflexivity.
      * intros _ Hin. apply elem_of_app. left. apply heal_dispatches, Hin.
    + autorewrite with monad. eexists. split; [constructor |].
      split; [| split; [reflexivity | discriminate]].
      repeat constructor.
Qed.

(** What the gate means for the events of a pass. *)
Lemma gated_only_when guard run_id evs :
  gated guard run_id evs ->
  forall run_id' analysis,
    HealCalled run_id' analysis ∈ evs ->
    exists prob, Probability run_id prob ∈ evs /\ guard prob = true.
Proof.
  intros (pre & Hpre & [-> | (prob & a & post & Hpost & -> & _)]) rid' analysis Hin.
  - rewrite Forall_forall in Hpre. apply Hpre in Hin as [Hh _]. discriminate Hh.
  - rewrite Forall_forall in Hpre, Hpost.
    apply elem_of_app in Hin as [Hin | Hin];
      [apply Hpre in Hin as [Hh _]; discriminate Hh |].
    apply elem_of_cons in Hin as [Hin | Hin]; [discriminate Hin |].
    destruct (guard prob) eqn:Hg.
    + exists prob. split; [| exact Hg].
      apply elem_of_app. right. apply list_elem_of_here.
    + apply Hpost in Hin as [Hh _]. discriminate Hh.
Qed.

Lemma gated_decision guard run_id evs :
  gated guard run_id evs ->
  forall prob,
    Probability run_id prob ∈ evs ->
    (guard prob = false -> forall run_id' analysis, HealCalled run_id' analysis ∉ evs) /\
    (guard prob = true ->
     exists analysis,
       HealCalled run_id analysis ∈ evs /\
       (in_strategies (category analysis) = true ->
        StrategyCalled (format_value (category analysis)) ∈ evs)).
Proof.
  intros (pre & Hpre & [-> | (prob' & a & post & Hpost & -> & Hs)]) prob Hin.
  - rewrite Forall_forall in Hpre. apply Hpre in Hin as [_ Hp]. discriminate Hp.
  - rewrite Forall_forall in Hpre, Hpost.
    assert (prob = prob') as ->.
    { apply elem_of_app in Hin as [Hin | Hin];
        [apply Hpre in Hin as [_ Hp]; discriminate Hp |].
      apply elem_of_cons in Hin as [Hin | Hin]; [now injection Hin |].
      destruct (guard prob').
      - apply elem_of_cons in Hin as [Hin | Hin]; [discriminate Hin |].
        apply Hpost in Hin as [_ Hp]. discriminate Hp.
      - apply Hpost in Hin as [_ Hp]. discriminate Hp. }
    split.
    + intros Hg rid' analysis Hh. rewrite Hg in Hh.
      apply elem_of_app in Hh as [Hh | Hh];
        [apply Hpre in Hh as [Hh _]; discriminate Hh |].
      apply elem_of_cons in Hh as [Hh | Hh]; [discriminate Hh |].
      apply Hpost in Hh as [Hh _]. discriminate Hh.
    + intros Hg. rewrite Hg in *. exists a. split.
      * apply elem_of_app. right. apply list_elem_of_further, list_elem_of_here.
      * intros Hstrat. apply elem_of_app. right.
        do 2 apply list_elem_of_further. now apply Hs.
Qed.

(** ** Dispatch is gated by the predicted probability (C1) *)

(** C1: in the events of one processing pass of a failed run, by the
    webhook handler [handle_pipeline_failure] or by the failure branch of
    the two monitors, [heal] is called only if a healing probability
    strictly greater than 0.70 was predicted for the run; when the
    predicted probability is exactly 0.70 [heal] is not called; when it
    is 0.701 [heal] is called, and the strategy of the failure category
    is called when there is one.  The failure branch of the monitors
    always takes the decision: it reports the probability the predictor
    answers for the analysis of the logs, once, and calls [heal] for
    this analysis, once, exactly when the probability is above 0.70.  So
    does the webhook handler when the logs are fetched and the failure
    is stored; when one of the two raises it stops without reporting a
    probability and without calling [heal]. *)
Theorem C1_heal_gated_above_threshold (run_id : value) (run : dict) (st : state W) :
  let handler :=
    events (handle_pipeline_failure C P repo_available heal_metric_available run_id run) st in
  let monitor :=
    events (handle_failed_run C P repo_available heal_metric_available run_id run) st in
  let takes_decision analysis evs :=
    exists prob,
      predict_healing_success P analysis = inr prob /\
      Probability run_id prob ∈ evs /\
      count is_probability evs = 1%nat /\
      count is_heal_call evs = (if flt f_0_7 prob then 1%nat else 0%nat) /\
      (flt f_0_7 prob = true ->
       HealCalled run_id analysis ∈ evs /\
       (in_strategies (category analysis) = true ->
        StrategyCalled (format_value (category analysis)) ∈ evs)) /\
      (flt f_0_7 prob = false -> forall run_id' analysis', HealCalled run_id' analysis' ∉ evs) in
  (forall evs,
      evs = handler \/ evs = monitor ->
      (forall run_id' analysis,
          HealCalled run_id' analysis ∈ evs ->
          exists prob, Probability run_id prob ∈ evs /\ flt f_0_7 prob = true) /\
      (forall prob,
          Probability run_id prob ∈ evs ->
          flt f_0_7 prob = true ->
          exists analysis, HealCalled run_id analysis ∈ evs) /\
      (Probability run_id f_0_7 ∈ evs ->
       forall run_id' analysis, HealCalled run_id' analysis ∉ evs) /\
      (Probability run_id f_0_701 ∈ evs ->
       exists analysis,
         HealCalled run_id analysis ∈ evs /\
         (in_strategies (category analysis) = true ->
          StrategyCalled (format_value (category analysis)) ∈ evs))) /\
  (exists logs_text,
      outcome (fetch_logs_text C run) st = inr logs_text /\
      takes_decision (analyze_failure logs_text) monitor) /\
  match fetch_workflow_logs C run_id (world st) with
  | (inl _, _) => Forall no_decision handler
  | (inr logs, w) =>
      let analysis := analyze_failure logs in
      match create_failure_log C run_id
                               (get_default analysis "error_type" (VStr "unknown"))
                               (get_default analysis "error_message" (VStr ""))
                               (get_default analysis "stack_trace" (VStr "")) w
      with
      | (inl _, _) => Forall no_decision handler
      | (inr _, _) => takes_decision analysis handler
      end
  end.
Proof.
  intros handler monitor takes_decision. subst handler monitor.
  assert (Htakes : forall prob analysis evs,
             predict_healing_success P analysis = inr prob ->
             decided confident run_id prob analysis evs -> takes_decision analysis evs).
  { intros prob analysis evs Hprob Hd. exists prob. split; [exact Hprob |].
    exact (decided_events _ _ _ _ _ Hd). }
  split; [| split].
  - intros evs Hevs.
    assert (Hg : gated confident run_id evs).
    { destruct Hevs as [-> | ->]; [apply handle_pipeline_failure_gated |].
      pose proof (handle_failed_run_gated run_id run st) as (pre & Hpre & Hcases).
      exists pre. split; [assumption |].
      destruct Hcases as [-> | (prob & a & post & Hpost & -> & Hs)]; [now left |].
      right. exists prob, a, post. rewrite <- confident_safe_confident. auto. }
    split; [| split; [| split]].
    + intros rid' analysis Hin. apply (gated_only_when _ _ _ Hg) in Hin. exact Hin.
    + intros prob Hin Hgt.
      destruct (proj2 (gated_decision _ _ _ Hg prob Hin) Hgt) as (a & Ha & _). eauto.
    + intros Hin. apply (proj1 (gated_decision _ _ _ Hg f_0_7 Hin)). reflexivity.
    + intros Hin. apply (proj2 (gated_decision _ _ _ Hg f_0_701 Hin)). reflexivity.
  - destruct (handle_failed_run_decided run_id run st) as (logs_text & prob & Hl & Hp & Hd).
    exists logs_text. split; [exact Hl |]. exact (Htakes _ _ _ Hp Hd).
  - pose proof (handle_pipeline_failure_decided run_id run st) as H. cbv zeta in H.
    destruct (fetch_workflow_logs C run_id (world st)) as [[e | logs] w]; [exact H |].
    cbv zeta.
    destruct (create_failure_log C run_id _ _ _ w) as [[e | u] w']; [exact H |].
    destruct H as (prob & Hp & Hd). exact (Htakes _ _ _ Hp Hd).
Qed.

End Gate.

(** ** The set of seen runs *)

Section Tracker.
Context {W : Type}.
Variable C : collaborators W.
Variable P : FailurePredictor.
Variable repo_available heal_metric_available : bool.
Variable set_pop : gset value -> value.

Abbreviation safe_run :=
  (run_safe_monitor_run C P repo_available heal_metric_available set_pop).

(** Processing a run does not touch the set. *)
Lemma process_run_seen_inv J run_id run :
  seen_inv J (process_run C P repo_available heal_metric_available run_id run).
Proof.
  unfold process_run, predict_and_record, handle_failed_run, fetch_logs_text, engine_heal.
  repeat first [apply heal_seen_inv | seen_step].
Qed.

Lemma process_run_last_seen run_id run (st : state W) :
  last_seen (state_after (process_run C P repo_available heal_metric_available run_id run) st)
  = last_seen st.
Proof. now apply (process_run_seen_inv (fun s => s = last_seen st)). Qed.

(** A run whose id is in the set is skipped: no event, no change. *)
Lemma safe_run_skips_seen run (st : state W) :
  norm (get run "id") ∈ last_seen st ->
  (forall l, get run "id" <> VList l) ->
  events (safe_run (RunDict run)) st = [] /\
  state_after (safe_run (RunDict run)) st = st /\
  outcome (safe_run (RunDict run)) st = inr tt.
Proof.
  intros Hin Hl. unfold run_safe_monitor_run.
  destruct (get run "id") as [| b | z | s | l] eqn:Hid;
    [repeat split | | | | now destruct (Hl l)].
  all: autorewrite with monad; unfold get_last_seen; simpl;
    (destruct (decide _) as [_ | Hn]; [repeat split | contradiction]).
Qed.

(** A run that is not skipped is put in the set, which is then cut down. *)
Lemma safe_run_last_seen run (st : state W) :
  get run "id" <> VNone ->
  (forall l, get run "id" <> VList l) ->
  norm (get run "id") ∉ last_seen st ->
  last_seen (state_after (safe_run (RunDict run)) st)
  = limit_size set_pop ({[ norm (get run "id") ]} ∪ last_seen st).
Proof.
  intros Hn Hl Hnew. unfold run_safe_monitor_run.
  destruct (get run "id") as [| b | z | s | l] eqn:Hid;
    [contradiction | | | | now destruct (Hl l)].
  all: rewrite state_after_bind; unfold get_last_seen at 1 2; simpl;
    (destruct (decide _) as [Hs | _]; [contradiction |]);
    rewrite state_after_bind; simpl; now rewrite process_run_last_seen.
Qed.

(** *** The size of the set is bounded *)

Hypothesis pop_member : pops_member set_pop.

Lemma pop_down_size fuel (s : gset value) :
  (size s - 100 <= fuel)%nat ->
  size (pop_down set_pop fuel s) = Nat.min (size s) 100.
Proof.
  revert s. induction fuel as [| fuel IH]; intros s Hfuel; simpl.
  - lia.
  - destruct (decide (100 < size s)%nat) as [Hbig | Hsmall]; [| lia].
    assert (Hne : s ≠ ∅).
    { intros ->. rewrite size_empty in Hbig. lia. }
    assert (Hsz : size (s ∖ {[ set_pop s ]}) = (size s - 1)%nat).
    { rewrite size_difference by (apply singleton_subseteq_l, pop_member, Hne).
      now rewrite size_singleton. }
    rewrite IH by lia. lia.
Qed.

Lemma limit_size_bound (s : gset value) : (size (limit_size set_pop s) <= 200)%nat.
Proof.
  unfold limit_size. destruct (decide (200 < size s)%nat); [| lia].
  rewrite pop_down_size; lia.
Qed.

Lemma limit_size_cut (s : gset value) :
  (200 < size s)%nat -> size (limit_size set_pop s) = 100%nat.
Proof.
  intros Hbig. unfold limit_size. destruct (decide (200 < size s)%nat); [| lia].
  rewrite pop_down_size; lia.
Qed.

Lemma limit_size_small (s : gset value) :
  (size s <= 200)%nat -> limit_size set_pop s = s.
Proof.
  intros Hsmall. unfold limit_size. destruct (decide (200 < size s)%nat); [lia | reflexivity].
Qed.

Lemma safe_run_bounded e :
  seen_inv (fun s => (size s <= 200)%nat) (safe_run e).
Proof.
  intros st Hst. destruct e as [| run]; [exact Hst |].
  unfold run_safe_monitor_run.
  destruct (get run "id") as [| b | z | s | l]; try exact Hst.
  all: rewrite state_after_bind; unfold get_last_seen at 1 2; simpl;
    (destruct (decide _) as [_ | _]; [exact Hst |]);
    rewrite state_after_bind; simpl; rewrite process_run_last_seen; simpl;
    apply limit_size_bound.
Qed.

(** The set never holds more than 200 run ids, however long the monitor
    runs, and a cut leaves 100 of them. *)
Lemma run_safe_monitor_bounded cycles (st : state W) :
  (size (last_seen st) <= 200)%nat ->
  (size (last_seen (state_after
                      (run_safe_monitor C P repo_available heal_metric_available set_pop cycles)
                      st)) <= 200)%nat.
Proof.
  revert st. induction cycles as [| n IH]; intros st Hst; simpl; [exact Hst |].
  rewrite state_after_bind.
  assert (Hcycle : seen_inv (fun s => (size s <= 200)%nat)
                     (run_safe_monitor_cycle C P repo_available heal_metric_available set_pop)).
  { unfold run_safe_monitor_cycle.
    repeat first [apply seen_inv_for_each; intros ?; apply safe_run_bounded | seen_step]. }
  destruct (outcome _ st); [apply Hcycle, Hst | apply IH, Hcycle, Hst].
Qed.

(** *** A run seen twice within the window is processed once *)

Lemma safe_run_grows e (st : state W) :
  (size (last_seen st) < 200)%nat ->
  last_seen st ⊆ last_seen (state_after (safe_run e) st) /\
  (size (last_seen (state_after (safe_run e) st)) <= S (size (last_seen st)))%nat.
Proof.
  intros Hsz.
  assert (Hsame : forall st', st' = st ->
            last_seen st ⊆ last_seen st' /\ (size (last_seen st') <= S (size (last_seen st)))%nat).
  { intros st' ->. split; [reflexivity | lia]. }
  destruct e as [| run]; [now apply Hsame |].
  destruct (get run "id") as [| b | z | s | l] eqn:Hid;
    [ apply Hsame; unfold run_safe_monitor_run; now rewrite Hid | | |
    | apply Hsame; unfold run_safe_monitor_run; now rewrite Hid ].
  all: assert (Hn : get run "id" <> VNone) by (rewrite Hid; discriminate).
  all: assert (Hl : forall l, get run "id" <> VList l) by (intros l; rewrite Hid; discriminate).
  all: clear Hid.
  all: destruct (decide (norm (get run "id") ∈ last_seen st)) as [Hin | Hnew];
    [ destruct (safe_run_skips_seen run st Hin Hl) as (_ & -> & _);
      split; [reflexivity | lia] | ].
  all: rewrite safe_run_last_seen by assumption.
  all: assert (Hu : size ({[ norm (get run "id") ]} ∪ last_seen st) = S (size (last_seen st)))
    by (rewrite size_union by set_solver; now rewrite size_singleton).
  all: rewrite limit_size_small by lia; (split; [apply union_subseteq_r | lia]).
Qed.

Lemma for_each_safe_run_grows runs (st : state W) :
  (size (last_seen st) + length runs <= 200)%nat ->
  last_seen st ⊆ last_seen (state_after (for_each runs safe_run) st).
Proof.
  revert st. induction runs as [| e runs IH]; intros st Hsz; simpl; [reflexivity |].
  simpl in Hsz. rewrite state_after_bind.
  destruct (safe_run_grows e st) as [Hsub Hsize]; [lia |].
  destruct (outcome (safe_run e) st); [exact Hsub |].
  etransitivity; [exact Hsub | apply IH; lia].
Qed.

(** After a run has been handled its id is in the set, as long as the
    set was not full. *)
Lemma safe_run_remembers run (st : state W) :
  (size (last_seen st) < 200)%nat ->
  outcome (safe_run (RunDict run)) st = inr tt ->
  get run "id" = VNone \/
  norm (get run "id") ∈ last_seen (state_after (safe_run (RunDict run)) st).
Proof.
  intros Hsz Hout.
  destruct (decide (get run "id" = VNone)) as [Hn | Hn]; [now left | right].
  assert (Hl' : forall l, get run "id" <> VList l).
  { intros l Hl. unfold run_safe_monitor_run, outcome in Hout. rewrite Hl in Hout.
    discriminate Hout. }
  destruct (decide (norm (get run "id") ∈ last_seen st)) as [Hin | Hnew].
  { now destruct (safe_run_skips_seen run st Hin Hl') as (_ & -> & _). }
  rewrite safe_run_last_seen by assumption.
  rewrite limit_size_small; [apply elem_of_union_l, elem_of_singleton; reflexivity |].
  rewrite size_union by set_solver. rewrite size_singleton. lia.
Qed.

Lemma events_for_each_app {A} (l1 l2 : list A) (body : A -> M W unit) (st : state W) :
  events (for_each (l1 ++ l2) body) st
  = events (for_each l1 body) st
    ++ match outcome (for_each l1 body) st with
       | inr _ => events (for_each l2 body) (state_after (for_each l1 body) st)
       | inl _ => []
       end.
Proof.
  revert st. induction l1 as [| x l1 IH]; intros st; simpl; [reflexivity |].
  rewrite !events_bind, outcome_bind, state_after_bind.
  destruct (outcome (body x) st); simpl; [now rewrite !app_nil_r |].
  now rewrite IH, app_assoc.
Qed.

Lemma for_each_cons {A} (x : A) (l : list A) (body : A -> M W unit) :
  for_each (x :: l) body = bind (body x) (fun _ => for_each l body).
Proof. reflexivity. Qed.

(** In [run_safe_monitor], a run that comes back while the set has not
    been cut (fewer than 200 ids were seen) produces nothing the second
    time: no observation, no analysis, no call of [heal]. *)
Lemma run_safe_monitor_run_twice run others (st : state W) :
  (size (last_seen st) + S (length others) <= 200)%nat ->
  events (for_each (RunDict run :: others ++ [RunDict run]) safe_run) st
  = events (for_each (RunDict run :: others) safe_run) st.
Proof.
  intros Hsz.
  change (RunDict run :: others ++ [RunDict run])
    with ((RunDict run :: others) ++ [RunDict run]).
  rewrite events_for_each_app.
  destruct (outcome (for_each (RunDict run :: others) safe_run) st) as [e | []] eqn:Hout;
    [apply app_nil_r |].
  rewrite <- (app_nil_r (events (for_each (RunDict run :: others) safe_run) st)) at 2.
  f_equal. rewrite !for_each_cons in *.
  rewrite outcome_bind in Hout. rewrite state_after_bind.
  destruct (outcome (safe_run (RunDict run)) st) as [e | []] eqn:Hfirst; [discriminate Hout |].
  set (st1 := state_after (safe_run (RunDict run)) st) in *.
  set (st2 := state_after (for_each others safe_run) st1).
  rewrite events_bind.
  destruct (safe_run_remembers run st ltac:(lia) Hfirst) as [Hnone | Hin].
  { unfold run_safe_monitor_run. rewrite Hnone. reflexivity. }
  assert (Hin2 : norm (get run "id") ∈ last_seen st2).
  { apply (for_each_safe_run_grows others st1); [| exact Hin].
    destruct (safe_run_grows (RunDict run) st) as [_ Hs]; [lia |]. fold st1 in Hs. lia. }
  assert (Hl' : forall l, get run "id" <> VList l).
  { intros l Hl. unfold run_safe_monitor_run, outcome in Hfirst. rewrite Hl in Hfirst.
    discriminate Hfirst. }
  destruct (safe_run_skips_seen run st2 Hin2 Hl') as (-> & -> & ->). reflexivity.
Qed.

End Tracker.

(** A failed run whose log reports a missing module, in a world whose
    model predicts 0.701 and in one whose model predicts 0.70: the
    webhook handler and the failure branch of the monitors call [heal]
    and the strategy in the first, and do not call [heal] in the
    second. *)
Lemma C1_heal_gated_above_threshold_witness :
  let w := {| listings := []; requirements := None;
              logs := "ModuleNotFoundError: No module named 'pandas'" |} in
  let run : dict := <["logs_url" := VStr "https://api.github.com/logs/7"]> ∅ in
  let analysis := analyze_failure "ModuleNotFoundError: No module named 'pandas'" in
  let handler p :=
    events (handle_pipeline_failure github (constant_predictor p) true true (VInt 7) run)
           (initial_state w) in
  let monitor p :=
    events (handle_failed_run github (constant_predictor p) true true (VInt 7) run)
           (initial_state w) in
  (HealCalled (VInt 7) analysis ∈ handler f_0_701 /\
   StrategyCalled "missing_dependency" ∈ handler f_0_701) /\
  (HealCalled (VInt 7) analysis ∈ monitor f_0_701 /\
   StrategyCalled "missing_dependency" ∈ monitor f_0_701) /\
  (forall run_id' analysis', HealCalled run_id' analysis' ∉ handler f_0_7) /\
  (forall run_id' analysis', HealCalled run_id' analysis' ∉ monitor f_0_7).
Proof.
  intros w run analysis handler monitor.
  pose proof (C1_heal_gated_above_threshold
                github (constant_predictor f_0_701) true true (VInt 7) run (initial_state w))
    as Hhigh.
  pose proof (C1_heal_gated_above_threshold
                github (constant_predictor f_0_7) true true (VInt 7) run (initial_state w))
    as Hlow.
  cbv zeta in Hhigh, Hlow.
  destruct Hhigh as (_ & (logs_high & Hlogs_high & Hmonitor_high) & Hhandler_high).
  destruct Hlow as (_ & (logs_low & Hlogs_low & Hmonitor_low) & Hhandler_low).
  assert (Hlogs : outcome (fetch_logs_text github run) (initial_state w)
                  = inr "ModuleNotFoundError: No module named 'pandas'")
    by (vm_compute; reflexivity).
  rewrite Hlogs in Hlogs_high, Hlogs_low.
  injection Hlogs_high as <-. injection Hlogs_low as <-.
  cbn [fetch_workflow_logs create_failure_log github world initial_state logs]
    in Hhandler_high, Hhandler_low.
  fold analysis in Hmonitor_high, Hmonitor_low, Hhandler_high, Hhandler_low.
  assert (Hpredicted : forall p,
             predict_healing_success (constant_predictor p) analysis = inr p)
    by (intros p; vm_compute; reflexivity).
  destruct Hmonitor_high as (p1 & Hp1 & _ & _ & _ & Hm1 & _).
  destruct Hhandler_high as (p2 & Hp2 & _ & _ & _ & Hh1 & _).
  destruct Hmonitor_low as (p3 & Hp3 & _ & _ & _ & _ & Hm0).
  destruct Hhandler_low as (p4 & Hp4 & _ & _ & _ & _ & Hh0).
  rewrite Hpredicted in Hp1, Hp2, Hp3, Hp4.
  injection Hp1 as <-. injection Hp2 as <-. injection Hp3 as <-. injection Hp4 as <-.
  destruct (Hm1 eq_refl) as [Hm_heal Hm_strategy].
  destruct (Hh1 eq_refl) as [Hh_heal Hh_strategy].
  split; [split; [exact Hh_heal | exact (Hh_strategy eq_refl)] |].
  split; [split; [exact Hm_heal | exact (Hm_strategy eq_refl)] |].
  split; [exact (Hh0 eq_refl) | exact (Hm0 eq_refl)].
Defined.

(** ** The simulated [set.pop] is a legal one *)

Lemma pop_lowest_slot_member : pops_member pop_lowest_slot.
Proof.
  intros s Hne. unfold pop_lowest_slot.
  destruct (elements s) as [| v l] eqn:Hel.
  { apply elements_empty_inv in Hel. apply leibniz_equiv in Hel. contradiction. }
  assert (Hpick : forall l v,
            fold_left (fun best x => if Z.ltb (slot x) (slot best) then x else best) l v
            ∈ v :: l).
  { clear. induction l as [| x l IH]; intros v; simpl; [apply list_elem_of_here |].
    destruct (Z.ltb (slot x) (slot v)).
    - apply list_elem_of_further, IH.
    - specialize (IH v). apply elem_of_cons in IH as [-> | IH];
        [apply list_elem_of_here | do 2 apply list_elem_of_further; exact IH]. }
  apply elem_of_elements. rewrite Hel. apply Hpick.
Qed.

(** ** At most one pass per run (C2) *)

(** C2, evaluated on [main.monitor_pipelines]: the runs 1 and 2 are
    listed in two consecutive polls and nothing about them changes in
    between.  The monitor remembers only the last run it saw, so in the
    second poll run 1 is not recognised.  When the runs are in progress
    (no conclusion yet), run 1 is observed in both polls; when they have
    failed, run 1 is observed, analysed and passed to [heal] in both
    polls: two failure analyses and two remediation attempts for one
    run. *)
Theorem C2_monitor_pipelines_processes_run_twice :
  let in_progress := [run_entry 1 VNone; run_entry 2 VNone] in
  let failed := [run_entry 1 (VStr "failure"); run_entry 2 (VStr "failure")] in
  let trace poll :=
    events (monitor_pipelines github (constant_predictor f_0_701) true true 2)
           (initial_state (listing_world [poll; poll])) in
  count (is_observed (VInt 1)) (trace in_progress) = 2%nat /\
  count (is_observed (VInt 1)) (trace failed) = 2%nat /\
  count (is_analysis (VInt 1)) (trace failed) = 2%nat /\
  count (is_remediation (VInt 1)) (trace failed) = 2%nat.
Proof. vm_compute. repeat split. Qed.

(** The same two polls through [monitor_safe.run_safe_monitor]: one
    observation, one analysis, one call of [heal]. *)
Example run_safe_monitor_processes_run_once :
  let poll := [run_entry 1 (VStr "failure"); run_entry 2 (VStr "failure")] in
  let evs :=
    events (run_safe_monitor github (constant_predictor f_0_701) true true pop_lowest_slot 2)
           (initial_state (listing_world [poll; poll])) in
  count (is_observed (VInt 1)) evs = 1%nat /\
  count (is_analysis (VInt 1)) evs = 1%nat /\
  count (is_remediation (VInt 1)) evs = 1%nat.
Proof. vm_compute. repeat split. Qed.

(** ** Eviction order (C9) *)

(** C9, evaluated on [monitor_safe.run_safe_monitor]: the runs 900 to
    1100 are listed, five per poll, oldest poll first.  When run 1100
    makes the set exceed 200 ids, it is cut down to 100 ids by [set.pop],
    which does not take the oldest ids: the 100 ids that stay are 924 to
    1023, so the newest run, 1100, is dropped at once and run 1024 is
    dropped although the older run 924 is kept. *)
Theorem C9_eviction_is_not_oldest_first :
  let w := listing_world (pages 900 40 ++ [[run_entry 1100 VNone]]) in
  let seen :=
    last_seen (state_after (run_safe_monitor github unloaded_predictor false false
                                             pop_lowest_slot 41)
                           (initial_state w)) in
  size seen = 100%nat /\
  seen = list_to_set (map VInt (ids_from 924 100)) /\
  (VInt 1100 ∉ seen) /\ (VInt 1024 ∉ seen) /\ (VInt 924 ∈ seen).
Proof.
  intros w seen.
  assert (Hseen : seen = list_to_set (map VInt (ids_from 924 100))).
  { apply (bool_decide_unpack _). vm_compute. exact I. }
  split; [| split; [exact Hseen |]]; rewrite Hseen.
  - vm_compute. reflexivity.
  - repeat split; apply (bool_decide_unpack _); vm_compute; exact I.
Qed.

(** After that cut run 1100 is no longer in the set: listed again in the
    next poll, it is observed a second time. *)
Example run_safe_monitor_forgets_newest_run :
  let w := listing_world (pages 900 40 ++ [[run_entry 1100 VNone]; [run_entry 1100 VNone]]) in
  count (is_observed (VInt 1100))
        (events (run_safe_monitor github unloaded_predictor false false pop_lowest_slot 42)
                (initial_state w)) = 2%nat.
Proof. vm_compute. reflexivity. Qed.

End MonitorProperties.


(* ===================================================================== *)
(** * Binary64 arithmetic: the quotient of two integers *)
(* ===================================================================== *)

Module FloatProperties.
Import Py Spec.
Local Open Scope Z_scope.

(** The float literals of the sources are the doubles nearest to the
    decimal constants they are written as. *)
Example literals_are_nearest :
  nearest_double f_0_2 2 10 /\ nearest_double f_0_3 3 10 /\ nearest_double f_0_4 4 10 /\
  nearest_double f_0_5 5 10 /\ nearest_double f_0_6 6 10 /\ nearest_double f_0_7 7 10 /\
  nearest_double f_0_701 701 1000 /\ nearest_double f_0_8 8 10 /\ nearest_double f_1_0 1 1.
Proof. unfold nearest_double. cbn. lia. Qed.

Lemma digits2_size p : digits2_pos p = Pos.size p.
Proof. induction p; simpl; congruence. Qed.

Lemma digits2_bounds p d :
  2 ^ (d - 1) <= Zpos p < 2 ^ d -> 0 < d -> Zpos (digits2_pos p) = d.
Proof.
  intros [Hlo Hhi] Hd. rewrite digits2_size.
  pose proof (Pos.size_gt p) as Hgt. pose proof (Pos.size_le p) as Hle.
  apply Pos2Z.pos_lt_pos in Hgt. apply Pos2Z.pos_le_pos in Hle.
  rewrite Pos2Z.inj_pow in Hgt, Hle. rewrite Pos2Z.inj_xO in Hle.
  change (Z.pos 2~0) with 2 in *. change ((2 * 1) ^ Z.pos (Pos.size p)) with (2 ^ Z.pos (Pos.size p)) in Hle.
  assert (Hs : 0 < Z.pos (Pos.size p)) by lia.
  set (s := Zpos (Pos.size p)) in *. clearbody s.
  destruct (Z.lt_trichotomy s d) as [Hlt | [Heq | Hgt']]; [| exact Heq |].
  - assert (2 ^ s <= 2 ^ (d - 1)) by (apply Z.pow_le_mono_r; lia). lia.
  - assert (2 ^ d <= 2 ^ (s - 1)) by (apply Z.pow_le_mono_r; lia).
    replace (2 ^ s) with (2 * 2 ^ (s - 1)) in Hle
      by (rewrite <- Z.pow_succ_r by lia; f_equal; lia).
    lia.
Qed.

Lemma new_location_is d r : 0 <= r < d -> loc_is (new_location d r) r d.
Proof.
  intros Hr. unfold new_location, new_location_even, new_location_odd.
  destruct (Z.even d) eqn:Hev; destruct (Z.eqb_spec r 0) as [-> | Hnz];
    try reflexivity.
  - destruct (Z.compare_spec (2 * r) d); unfold loc_is; lia.
  - assert (Hodd : Z.odd d = true) by (rewrite <- Z.negb_even, Hev; reflexivity).
    apply Z.odd_spec in Hodd as [c ->].
    destruct (Z.compare_spec (2 * r + 1) (2 * c + 1)); unfold loc_is; lia.
Qed.

Lemma fexp_normal e : -1021 <= e -> fexp 53 1024 e = e - 53.
Proof. intros H. unfold fexp, emin. lia. Qed.

Lemma shr_fexp_53 m e l :
  2 ^ 52 <= m < 2 ^ 53 -> -1074 <= e ->
  shr_fexp 53 1024 m e l = (shr_record_of_loc m l, e).
Proof.
  intros Hm He. unfold shr_fexp.
  destruct m as [| p | p]; try lia.
  simpl Zdigits2. rewrite (digits2_bounds p 53) by (simpl; lia).
  rewrite fexp_normal by lia.
  replace (53 + e - 53 - e) with 0 by lia. reflexivity.
Qed.

Lemma shr_fexp_54 m e l :
  2 ^ 53 <= m < 2 ^ 54 -> -1074 <= e ->
  shr_fexp 53 1024 m e l = (shr_1 (shr_record_of_loc m l), e + 1).
Proof.
  intros Hm He. unfold shr_fexp.
  destruct m as [| p | p]; try lia.
  simpl Zdigits2. rewrite (digits2_bounds p 54) by (simpl; lia).
  rewrite fexp_normal by lia.
  replace (54 + e - 53 - e) with 1 by lia. reflexivity.
Qed.

(** The last step of rounding: renormalise a mantissa that may have
    reached 2^53. *)
Lemma round_finish m1 e1 :
  2 ^ 52 <= m1 <= 2 ^ 53 -> -1074 <= e1 <= 900 ->
  exists mR s,
    (let '(mrs, e) := shr_fexp 53 1024 m1 e1 loc_Exact in
     match shr_m mrs with
     | Z0 => S754_zero false
     | Zpos m => if Z.leb e (1024 - 53) then S754_finite false m e else S754_infinity false
     | Zneg _ => S754_nan
     end) = S754_finite false mR (e1 + s) /\
    2 ^ 52 <= Zpos mR < 2 ^ 53 /\ 0 <= s <= 1 /\ Zpos mR * 2 ^ s = m1.
Proof.
  intros Hm He.
  destruct (Z.eq_dec m1 (2 ^ 53)) as [-> | Hne].
  - rewrite shr_fexp_54 by lia.
    change (shr_1 (shr_record_of_loc (2 ^ 53) loc_Exact))
      with {| shr_m := Zpos 4503599627370496; shr_r := false; shr_s := false |}.
    cbn [shr_m]. change (1024 - 53) with 971.
    destruct (Z.leb_spec (e1 + 1) 971); [| lia].
    exists 4503599627370496%positive, 1. split; [reflexivity |]. lia.
  - rewrite shr_fexp_53 by lia.
    destruct m1 as [| p | p]; try lia.
    cbn [shr_record_of_loc shr_m]. change (1024 - 53) with 971.
    destruct (Z.leb_spec e1 971); [| lia].
    exists p, 0. rewrite Z.add_0_r. split; [reflexivity |]. lia.
Qed.

Lemma loc_of_shr_record_of_loc m l :
  loc_of_shr_record (shr_record_of_loc m l) = l /\ shr_m (shr_record_of_loc m l) = m.
Proof. now destruct l as [| []]. Qed.

(** Rounding to nearest, ties to even, of [q + r/d] at a unit in the
    last place of 1. *)
Lemma round_nearest_even_is q l r d :
  0 <= r < d -> loc_is l r d ->
  q <= round_nearest_even q l <= q + 1 /\
  Z.abs (2 * round_nearest_even q l * d - 2 * (q * d + r)) <= d.
Proof.
  intros Hr Hl. destruct l as [| []]; unfold loc_is in Hl; cbn [round_nearest_even];
    try destruct (Z.even q); split; try lia.
Qed.

(** The same after one halving: [h] is [q / 2], the bit shifted out and
    the earlier location give the new location. *)
Lemma shr_1_is p l r d :
  0 <= r < d -> loc_is l r d ->
  let mrs := shr_1 (shr_record_of_loc (Zpos p) l) in
  let m1 := round_nearest_even (shr_m mrs) (loc_of_shr_record mrs) in
  (p <> 1%positive ->
   Zpos p / 2 <= m1 <= Zpos p / 2 + 1 /\
   Z.abs (4 * m1 * d - 2 * (Zpos p * d + r)) <= 2 * d).
Proof.
  intros Hr Hl mrs m1 Hp. subst mrs m1.
  destruct p as [p | p |]; [| | contradiction].
  - assert (Hh : Zpos p~1 / 2 = Zpos p)
      by (symmetry; apply Z.div_unique with 1; lia).
    rewrite Hh.
    destruct l as [| []]; unfold loc_is in Hl;
      cbn [shr_record_of_loc shr_1 shr_m loc_of_shr_record orb round_nearest_even];
      try destruct (Z.even (Zpos p)); rewrite Pos2Z.inj_xI; split; lia.
  - assert (Hh : Zpos p~0 / 2 = Zpos p)
      by (symmetry; apply Z.div_unique with 0; lia).
    rewrite Hh.
    destruct l as [| []]; unfold loc_is in Hl;
      cbn [shr_record_of_loc shr_1 shr_m loc_of_shr_record orb round_nearest_even];
      try destruct (Z.even (Zpos p)); rewrite Pos2Z.inj_xO; split; lia.
Qed.

Lemma binary_round_aux_is q e l r d :
  2 ^ 52 <= q < 2 ^ 54 -> -1074 <= e <= 800 -> 0 <= r < d -> loc_is l r d ->
  exists mR s,
    binary_round_aux 53 1024 false q e l = S754_finite false mR (e + s) /\
    2 ^ 52 <= Zpos mR < 2 ^ 53 /\ 0 <= s <= 2 /\
    Z.abs (2 * (Zpos mR * 2 ^ s) * d - 2 * (q * d + r)) <= 2 ^ s * d.
Proof.
  intros Hq He Hr Hl. unfold binary_round_aux.
  destruct (Z.lt_ge_cases q (2 ^ 53)) as [Hsmall | Hbig].
  - rewrite shr_fexp_53 by lia.
    destruct (loc_of_shr_record_of_loc q l) as [-> ->].
    destruct (round_nearest_even_is q l r d Hr Hl) as [Hm1 Herr].
    set (m1 := round_nearest_even q l) in *. clearbody m1.
    destruct (round_finish m1 e) as (mR & s & -> & HmR & Hs & Hval); [lia | lia |].
    exists mR, s. split; [reflexivity |]. split; [exact HmR |]. split; [lia |].
    rewrite Hval.
    assert (s = 0 \/ s = 1) as [-> | ->] by lia; [change (2 ^ 0) with 1 | change (2 ^ 1) with 2];
      lia.
  - rewrite shr_fexp_54 by lia.
    destruct q as [| p | p]; try lia.
    assert (Hp : p <> 1%positive) by (intros ->; lia).
    destruct (shr_1_is p l r d Hr Hl Hp) as [Hm1 Herr].
    set (m1 := round_nearest_even _ _) in *. clearbody m1.
    assert (Hhalf : 2 ^ 52 <= Zpos p / 2 < 2 ^ 53).
    { split; [apply Z.div_le_lower_bound; lia | apply Z.div_lt_upper_bound; lia]. }
    destruct (round_finish m1 (e + 1)) as (mR & s & -> & HmR & Hs & Hval); [lia | lia |].
    exists mR, (1 + s). split; [f_equal; lia |]. split; [exact HmR |]. split; [lia |].
    rewrite Z.pow_add_r by lia. change (2 ^ 1) with 2.
    replace (Zpos mR * (2 * 2 ^ s)) with (2 * m1) by lia.
    assert (s = 0 \/ s = 1) as [-> | ->] by lia; [change (2 ^ 0) with 1 | change (2 ^ 1) with 2];
      lia.
Qed.

Lemma iter_xO_is p d : Zpos (Pos.iter xO p d) = Zpos p * 2 ^ Zpos d.
Proof.
  induction d as [| d IH] using Pos.peano_ind.
  - simpl. lia.
  - rewrite Pos.iter_succ, Pos2Z.inj_xO, IH, Pos2Z.inj_succ, Z.pow_succ_r by lia. lia.
Qed.

Lemma digits2_range p : 2 ^ (Zpos (digits2_pos p) - 1) <= Zpos p < 2 ^ Zpos (digits2_pos p).
Proof.
  rewrite digits2_size.
  pose proof (Pos.size_gt p) as Hgt. pose proof (Pos.size_le p) as Hle.
  apply Pos2Z.pos_lt_pos in Hgt. apply Pos2Z.pos_le_pos in Hle.
  rewrite Pos2Z.inj_pow in Hgt, Hle. rewrite Pos2Z.inj_xO in Hle.
  change (Z.pos 2~0) with 2 in *.
  change ((2 * 1) ^ Z.pos (Pos.size p)) with (2 ^ Z.pos (Pos.size p)) in Hle.
  split; [| exact Hgt].
  replace (2 ^ Z.pos (Pos.size p)) with (2 * 2 ^ (Z.pos (Pos.size p) - 1)) in Hle
    by (rewrite <- Z.pow_succ_r by lia; f_equal; lia).
  lia.
Qed.

(** An integer below 2^53 is a float: its mantissa is the integer
    shifted left until it has 53 bits. *)
Lemma float_of_int_is z :
  0 < z < 2 ^ 53 ->
  exists m a,
    binary_normalize 53 1024 z 0 false = S754_finite false m (- a) /\
    0 <= a <= 52 /\ Zpos m = z * 2 ^ a /\ 2 ^ 52 <= Zpos m < 2 ^ 53.
Proof.
  intros Hz. destruct z as [| p | p]; try lia.
  unfold binary_normalize, binary_round.
  pose proof (digits2_range p) as Hdg.
  set (dg := Zpos (digits2_pos p)) in *.
  assert (Hdg1 : 1 <= dg) by (unfold dg; lia).
  assert (Hdg53 : dg <= 53).
  { destruct (Z.le_gt_cases dg 53) as [H | H]; [exact H |].
    assert (2 ^ 53 <= 2 ^ (dg - 1)) by (apply Z.pow_le_mono_r; lia). lia. }
  rewrite fexp_normal by lia.
  assert (Hpow : 2 ^ (dg - 1) * 2 ^ (53 - dg) = 2 ^ 52 /\ 2 ^ dg * 2 ^ (53 - dg) = 2 ^ 53).
  { split; rewrite <- Z.pow_add_r by lia; f_equal; lia. }
  assert (Hpos : 0 < 2 ^ (53 - dg)) by (apply Z.pow_pos_nonneg; lia).
  assert (Hm : 2 ^ 52 <= Zpos p * 2 ^ (53 - dg) < 2 ^ 53) by nia.
  clearbody dg.
  assert (Hal : exists mz, shl_align p 0 (dg + 0 - 53) = (mz, dg - 53) /\
                           Zpos mz = Zpos p * 2 ^ (53 - dg)).
  { unfold shl_align. replace (dg + 0 - 53 - 0) with (dg - 53) by lia.
    destruct (dg - 53) as [| d | d] eqn:Hd; try lia.
    - exists p. replace (53 - dg) with 0 by lia. split; [reflexivity | lia].
    - exists (Pos.iter xO p d). replace (dg + 0 - 53) with (Zneg d) by lia.
      split; [reflexivity |]. rewrite iter_xO_is. f_equal. f_equal. lia. }
  destruct Hal as (mz & -> & Hmz). rewrite <- Hmz in Hm.
  unfold binary_round_aux. rewrite shr_fexp_53 by lia.
  cbn [shr_record_of_loc shr_m loc_of_shr_record round_nearest_even].
  destruct (round_finish (Zpos mz) (dg - 53)) as (mR & s & -> & HmR & Hs & Hval); [lia | lia |].
  assert (s = 0) as -> by (destruct (Z.eq_dec s 0); [assumption | assert (s = 1) as -> by lia; lia]).
  exists mR, (53 - dg). split; [f_equal; lia |].
  change (2 ^ 0) with 1 in Hval. split; [lia |]. split; lia.
Qed.

(** The quotient of two positive integers below 2^53, the first at most
    the second: a float whose value is within half a unit in the last
    place of the exact quotient. *)
Lemma int_quotient_is k n :
  0 < k <= n -> n < 2 ^ 53 ->
  exists mR eR,
    SFdiv 53 1024 (binary_normalize 53 1024 k 0 false) (binary_normalize 53 1024 n 0 false)
    = S754_finite false mR eR /\
    2 ^ 52 <= Zpos mR < 2 ^ 53 /\ -107 <= eR <= -51 /\
    Z.abs (2 * Zpos mR * n - k * 2 ^ (1 - eR)) <= n.
Proof.
  intros Hk Hn.
  destruct (float_of_int_is k) as (mk & a & -> & Ha & Hmk & Hmk'); [lia |].
  destruct (float_of_int_is n) as (mn & b & -> & Hb & Hmn & Hmn'); [lia |].
  assert (Hab : b <= a).
  { destruct (Z.le_gt_cases b a) as [H | H]; [exact H |].
    assert (2 ^ (a + 1) <= 2 ^ b) by (apply Z.pow_le_mono_r; lia).
    rewrite Z.pow_add_r in H0 by lia. change (2 ^ 1) with 2 in H0.
    assert (0 < 2 ^ a) by (apply Z.pow_pos_nonneg; lia). nia. }
  unfold SFdiv, SFdiv_core_binary. cbn [xorb Zdigits2].
  rewrite (digits2_bounds mk 53), (digits2_bounds mn 53) by (simpl; lia).
  rewrite fexp_normal by lia.
  replace (Z.min (53 + - a - (53 + - b) - 53) (- a - - b)) with (b - a - 53) by lia.
  replace (- a - - b - (b - a - 53)) with 53 by lia.
  rewrite Z.shiftl_mul_pow2 by lia.
  pose proof (Z_div_mod (Zpos mk * 2 ^ 53) (Zpos mn) eq_refl) as Hdiv.
  destruct (Z.div_eucl (Zpos mk * 2 ^ 53) (Zpos mn)) as [q r].
  destruct Hdiv as [Hdiv Hr].
  assert (Hq : 2 ^ 52 <= q < 2 ^ 54) by nia.
  destruct (binary_round_aux_is q (b - a - 53) (new_location (Zpos mn) r) r (Zpos mn))
    as (mR & s & -> & HmR & Hs & Herr);
    [exact Hq | lia | exact Hr | apply new_location_is; exact Hr |].
  exists mR, (b - a - 53 + s). split; [reflexivity |]. split; [exact HmR |]. split; [lia |].
  replace (1 - (b - a - 53 + s)) with (a + 54 - (s + b)) by lia.
  set (c := 2 ^ (s + b)).
  assert (Hc : 0 < c) by (apply Z.pow_pos_nonneg; lia).
  assert (Hc' : c = 2 ^ s * 2 ^ b) by (unfold c; apply Z.pow_add_r; lia).
  assert (Hp : 2 ^ (a + 54 - (s + b)) * c = 2 * (2 ^ a * 2 ^ 53)).
  { unfold c. rewrite <- Z.pow_add_r by lia.
    replace (a + 54 - (s + b) + (s + b)) with (1 + (a + 53)) by lia.
    rewrite Z.pow_add_r by lia. change (2 ^ 1) with 2.
    rewrite Z.pow_add_r by lia. reflexivity. }
  apply (Z.mul_le_mono_pos_r _ _ c Hc).
  rewrite <- (Z.abs_eq c) at 1 by lia. rewrite <- Z.abs_mul.
  replace ((2 * Zpos mR * n - k * 2 ^ (a + 54 - (s + b))) * c)
    with (2 * (Zpos mR * 2 ^ s) * Zpos mn - 2 * (q * Zpos mn + r)).
  - replace (n * c) with (2 ^ s * Zpos mn) by (rewrite Hc', Hmn; ring). exact Herr.
  - rewrite Z.mul_sub_distr_r.
    replace (k * 2 ^ (a + 54 - (s + b)) * c) with (k * (2 ^ (a + 54 - (s + b)) * c)) by ring.
    rewrite Hp.
    replace (q * Zpos mn + r) with (Zpos mk * 2 ^ 53) by lia.
    rewrite Hmk, Hmn, Hc'. ring.
Qed.

Lemma SFleb_finite m1 e1 m2 e2 :
  SFleb (S754_finite false m1 e1) (S754_finite false m2 e2) = true
  <-> e1 < e2 \/ (e1 = e2 /\ Zpos m1 <= Zpos m2).
Proof.
  unfold SFleb, SFcompare.
  change (Pos.compare_cont Eq m1 m2) with (Pos.compare m1 m2).
  destruct (Z.compare_spec e1 e2); [destruct (Pos.compare_spec m1 m2) |..];
    split; intros; try discriminate; try reflexivity; lia.
Qed.

(** The rounded quotient is at least the float 0.2 exactly when the
    exact quotient is at least one fifth. *)
Lemma quotient_ge_0_2 mR eR k n :
  0 < k <= n -> n < 2 ^ 53 ->
  2 ^ 52 <= Zpos mR < 2 ^ 53 -> -107 <= eR <= -51 ->
  Z.abs (2 * Zpos mR * n - k * 2 ^ (1 - eR)) <= n ->
  (fle f_0_2 (S754_finite false mR eR) = true <-> n <= 5 * k).
Proof.
  intros Hk Hn HmR HeR Herr. unfold fle, f_0_2. rewrite SFleb_finite.
  set (X := Zpos mR * n) in *.
  replace (2 * Zpos mR * n) with (2 * X) in Herr by (unfold X; ring).
  assert (HX : 2 ^ 52 * n <= X < 2 ^ 53 * n) by (unfold X; nia).
  destruct (Z.lt_trichotomy eR (-55)) as [Hlt | [-> | Hgt]].
  - assert (Hp : 2 ^ 57 <= 2 ^ (1 - eR)) by (apply Z.pow_le_mono_r; lia).
    set (p := 2 ^ (1 - eR)) in *. clearbody p X.
    assert (k * 2 ^ 57 <= k * p) by nia.
    split; [lia | intros H5; exfalso; lia].
  - change (2 ^ (1 - -55)) with (2 ^ 56) in Herr.
    destruct (Z.le_gt_cases 7205759403792794 (Zpos mR)) as [Hm | Hm].
    + assert (7205759403792794 * n <= X) by (unfold X; nia). clearbody X.
      split; [intros _; lia | intros _; right; lia].
    + assert (X <= 7205759403792793 * n) by (unfold X; nia). clearbody X.
      split; [lia | intros H5; exfalso; lia].
  - assert (Hp : 2 ^ (1 - eR) <= 2 ^ 55) by (apply Z.pow_le_mono_r; lia).
    assert (Hp0 : 0 < 2 ^ (1 - eR)) by (apply Z.pow_pos_nonneg; lia).
    set (p := 2 ^ (1 - eR)) in *. clearbody p X.
    assert (k * p <= k * 2 ^ 55) by nia.
    split; [intros _; lia | intros _; left; lia].
Qed.

(** The rounded quotient is at most the float 0.8 exactly when the
    exact quotient is at most four fifths, for denominators below 2^50. *)
Lemma quotient_le_0_8 mR eR k n :
  0 < k <= n -> n < 2 ^ 50 ->
  2 ^ 52 <= Zpos mR < 2 ^ 53 -> -107 <= eR <= -51 ->
  Z.abs (2 * Zpos mR * n - k * 2 ^ (1 - eR)) <= n ->
  (fle (S754_finite false mR eR) f_0_8 = true <-> 5 * k <= 4 * n).
Proof.
  intros Hk Hn HmR HeR Herr. unfold fle, f_0_8. rewrite SFleb_finite.
  set (X := Zpos mR * n) in *.
  replace (2 * Zpos mR * n) with (2 * X) in Herr by (unfold X; ring).
  assert (HX : 2 ^ 52 * n <= X < 2 ^ 53 * n) by (unfold X; nia).
  destruct (Z.lt_trichotomy eR (-53)) as [Hlt | [-> | Hgt]].
  - assert (Hp : 2 ^ 55 <= 2 ^ (1 - eR)) by (apply Z.pow_le_mono_r; lia).
    set (p := 2 ^ (1 - eR)) in *. clearbody p X.
    assert (k * 2 ^ 55 <= k * p) by nia.
    split; [intros _; lia | intros _; left; lia].
  - change (2 ^ (1 - -53)) with (2 ^ 54) in Herr.
    destruct (Z.le_gt_cases (Zpos mR) 7205759403792794) as [Hm | Hm].
    + assert (X <= 7205759403792794 * n) by (unfold X; nia). clearbody X.
      split; [intros _; lia | intros _; right; lia].
    + assert (7205759403792795 * n <= X) by (unfold X; nia). clearbody X.
      split; [lia | intros H5; exfalso; lia].
  - assert (Hp : 2 ^ (1 - eR) <= 2 ^ 53) by (apply Z.pow_le_mono_r; lia).
    assert (Hp0 : 0 < 2 ^ (1 - eR)) by (apply Z.pow_pos_nonneg; lia).
    set (p := 2 ^ (1 - eR)) in *. clearbody p X.
    assert (k * p <= k * 2 ^ 53) by nia.
    split; [lia | intros H5; exfalso; lia].
Qed.

End FloatProperties.


(* ===================================================================== *)
(** * Properties of the flakiness test *)
(* ===================================================================== *)

Module FlakinessProperties.
Import Py FailurePatterns Spec FloatProperties.
Local Open Scope Z_scope.

Lemma count_false_range (test_history : list bool) :
  0 <= count_false test_history <= Z.of_nat (length test_history).
Proof.
  unfold count_false. split; [lia |].
  apply inj_le, length_filter.
Qed.

(** The failure rate lies in the band when the counts do. *)
Lemma failure_rate_band (test_history : list bool) :
  test_history <> [] ->
  (1 # 5 <= failure_rate test_history <= 4 # 5)%Q
  <-> Z.of_nat (length test_history) <= 5 * count_false test_history /\
      5 * count_false test_history <= 4 * Z.of_nat (length test_history).
Proof.
  intros Hne. destruct test_history as [| b l]; [contradiction |].
  unfold failure_rate, Qle. cbn [Qnum Qden].
  set (k := count_false (b :: l)). set (n := length (b :: l)).
  assert (Hn : Zpos (Pos.of_nat n) = Z.of_nat n).
  { rewrite <- (positive_nat_Z (Pos.of_nat n)), Nat2Pos.id by (unfold n; simpl; lia).
    reflexivity. }
  rewrite Hn. lia.
Qed.

(** ** Flaky exactly in the band, over at least five observations (C6) *)

(** C6: [is_flaky_test] returns a verdict for every history, and (for
    histories of fewer than 2^50 entries, where the float quotient and
    the exact failure rate compare alike with 0.20 and 0.80) the verdict
    is "flaky" if and only if the history has at least 5 observations and
    its failure rate lies in the closed interval [0.20, 0.80]; in
    particular a history of fewer than 5 observations is not flaky. *)
Theorem C6_flaky_iff_rate_in_band (test_history : list bool) :
  Z.of_nat (length test_history) < 2 ^ 50 ->
  exists flaky,
    is_flaky_test test_history = inr flaky /\
    (flaky = true <->
     5 <= Z.of_nat (length test_history) /\
     (1 # 5 <= failure_rate test_history <= 4 # 5)%Q) /\
    (Z.of_nat (length test_history) < 5 -> flaky = false).
Proof.
  intros Hlen. unfold is_flaky_test.
  destruct (Z.ltb_spec (Z.of_nat (length test_history)) 5) as [Hshort | Hlong].
  { exists false. split; [reflexivity |]. split; [| reflexivity].
    split; [discriminate | lia]. }
  assert (Hne : test_history <> []) by (intros ->; simpl in Hlong; lia).
  pose proof (failure_rate_band _ Hne) as Hband.
  pose proof (count_false_range test_history) as Hk.
  set (k := count_false test_history) in *.
  set (n := Z.of_nat (length test_history)) in *. clearbody k n.
  unfold truediv. destruct (Z.eqb_spec n 0) as [-> | _]; [lia |].
  eexists. split; [reflexivity |]. split; [| lia].
  rewrite Hband, andb_true_iff.
  destruct (Z.eq_dec k 0) as [-> | Hk0].
  - change (float_of_int 0) with (S754_zero false).
    split; [intros [H _]; destruct (float_of_int n); discriminate H | lia].
  - unfold float_of_int, prec, emax.
    destruct (int_quotient_is k n) as (mR & eR & -> & HmR & HeR & Herr); [lia | lia |].
    rewrite (quotient_ge_0_2 mR eR k n) by (assumption || lia).
    rewrite (quotient_le_0_8 mR eR k n) by (assumption || lia).
    lia.
Qed.

(** The two histories of the specification: two failures out of five
    observations are flaky, four observations are not enough. *)
Lemma C6_flaky_iff_rate_in_band_witness :
  is_flaky_test [true; false; true; false; true] = inr true /\
  is_flaky_test [true; true; true; true] = inr false.
Proof.
  split.
  - destruct (C6_flaky_iff_rate_in_band [true; false; true; false; true])
      as (flaky & -> & Hiff & _); [simpl; lia |].
    f_equal. apply Hiff. split; [simpl; lia |]. split; vm_compute; discriminate.
  - destruct (C6_flaky_iff_rate_in_band [true; true; true; true])
      as (flaky & -> & _ & Hshort); [simpl; lia |].
    f_equal. apply Hshort. simpl. lia.
Defined.

(** The same two verdicts, by running the test. *)
Example is_flaky_test_two_of_five : is_flaky_test [true; false; true; false; true] = inr true.
Proof. vm_compute. reflexivity. Qed.

Example is_flaky_test_four_samples : is_flaky_test [true; true; true; true] = inr false.
Proof. vm_compute. reflexivity. Qed.

(** One failure out of five is exactly on the lower edge, four out of
    five exactly on the upper edge: both are flaky. *)
Example is_flaky_test_edges :
  is_flaky_test [false; true; true; true; true] = inr true /\
  is_flaky_test [false; false; false; false; true] = inr true /\
  is_flaky_test [true; true; true; true; true] = inr false /\
  is_flaky_test [false; false; false; false; false] = inr false.
Proof. vm_compute. repeat split. Qed.

End FlakinessProperties.


(* ===================================================================== *)
(** * What the matcher reports is a match *)
(* ===================================================================== *)

Module MatcherProperties.
Import Py Re ReLang.
Local Open Scope list_scope.

Lemma firstn_consumed {A} (w rest : list A) :
  firstn (length (w ++ rest) - length rest) (w ++ rest) = w.
Proof.
  rewrite length_app. replace (length w + length rest - length rest)%nat with (length w) by lia.
  rewrite firstn_app, Nat.sub_diag, firstn_all. simpl. apply app_nil_r.
Qed.

(** Whatever [go] answers, it answers through its continuation, after a
    text the pattern denotes. *)
Lemma go_sound {R} ic r : forall s g (k : list ascii -> option (list ascii) -> option R) x,
  go ic r s g k = Some x ->
  exists w rest g1, s = w ++ rest /\ derives ic r w g g1 /\ k rest g1 = Some x.
Proof.
  induction r as [| p | | cs | r1 IH1 r2 IH2 | r1 IH1 r2 IH2 | r1 IH1 | r1 IH1];
    intros s g k x H; simpl in H.
  - exists [], s, g. split; [reflexivity |]. split; [constructor | exact H].
  - destruct s as [| c s']; [discriminate |].
    destruct (chr_eq ic p c) eqn:Hc; [| discriminate].
    exists [c], s', g. split; [reflexivity |]. split; [now constructor | exact H].
  - destruct s as [| c s']; [discriminate |].
    destruct (Ascii.eqb c newline) eqn:Hc; [discriminate |].
    exists [c], s', g. split; [reflexivity |]. split; [now constructor | exact H].
  - destruct s as [| c s']; [discriminate |].
    destruct (cset_mem ic cs c) eqn:Hc; [| discriminate].
    exists [c], s', g. split; [reflexivity |]. split; [now constructor | exact H].
  - apply IH1 in H. destruct H as (w1 & s1 & g1 & -> & Hd1 & H).
    apply IH2 in H. destruct H as (w2 & s2 & g2 & -> & Hd2 & H).
    exists (w1 ++ w2), s2, g2. split; [now rewrite app_assoc |].
    split; [econstructor; eassumption | exact H].
  - destruct (go ic r1 s g k) as [y |] eqn:H1.
    + injection H as <-. apply IH1 in H1. destruct H1 as (w & rest & g1 & -> & Hd & Hk).
      exists w, rest, g1. split; [reflexivity |]. split; [now apply derives_alt_l | exact Hk].
    + apply IH2 in H. destruct H as (w & rest & g1 & -> & Hd & Hk).
      exists w, rest, g1. split; [reflexivity |]. split; [now apply derives_alt_r | exact Hk].
  - revert H. generalize (length s) at 1. intros fuel. revert s g.
    induction fuel as [| fuel IHf]; intros s g H.
    + exists [], s, g. split; [reflexivity |]. split; [constructor | exact H].
    + match type of H with
      | match ?t with _ => _ end = _ => destruct t as [y |] eqn:H1
      end.
      * injection H as <-. apply IH1 in H1.
        destruct H1 as (w1 & s1 & g1 & -> & Hd1 & H1).
        destruct (Nat.ltb_spec (length s1) (length (w1 ++ s1))) as [Hlt |]; [| discriminate].
        apply IHf in H1. destruct H1 as (w2 & s2 & g2 & -> & Hd2 & Hk).
        exists (w1 ++ w2), s2, g2. split; [now rewrite app_assoc |].
        split; [| exact Hk].
        apply derives_star_cons with g1; [| assumption | assumption].
        intros ->. simpl in Hlt. lia.
      * exists [], s, g. split; [reflexivity |]. split; [constructor | exact H].
  - apply IH1 in H. destruct H as (w & rest & g1 & -> & Hd & Hk).
    rewrite firstn_consumed in Hk.
    exists w, rest, (Some w). split; [reflexivity |].
    split; [econstructor; eassumption | exact Hk].
Qed.

(** A match object holds a text the pattern denotes, found in the input. *)
Lemma match_at_sound ic r s m :
  match_at ic r s = Some m ->
  exists w rest g1,
    s = w ++ rest /\ derives ic r w None g1 /\
    group0 m = str w /\ group1 m = option_map str g1.
Proof.
  unfold match_at. intros H. apply go_sound in H.
  destruct H as (w & rest & g1 & -> & Hd & [= <-]).
  exists w, rest, g1. rewrite firstn_consumed. repeat split; assumption.
Qed.

Lemma search_chars_sound ic r s m :
  search_chars ic r s = Some m ->
  exists pre w rest g1,
    s = pre ++ w ++ rest /\ derives ic r w None g1 /\
    group0 m = str w /\ group1 m = option_map str g1.
Proof.
  induction s as [| c s IH]; simpl.
  - destruct (match_at ic r []) as [m' |] eqn:Hm; [| discriminate].
    intros [= <-]. apply match_at_sound in Hm.
    destruct Hm as (w & rest & g1 & Hs & Hd & H0 & H1).
    exists [], w, rest, g1. repeat split; assumption.
  - destruct (match_at ic r (c :: s)) as [m' |] eqn:Hm.
    + intros [= <-]. apply match_at_sound in Hm.
      destruct Hm as (w & rest & g1 & Hs & Hd & H0 & H1).
      exists [], w, rest, g1. repeat split; assumption.
    + intros H. apply IH in H. destruct H as (pre & w & rest & g1 & -> & Hd & H0 & H1).
      exists (c :: pre), w, rest, g1. repeat split; assumption.
Qed.

Lemma search_sound ic r s m :
  search ic r s = Some m ->
  exists pre w rest g1,
    chars s = pre ++ w ++ rest /\ derives ic r w None g1 /\
    group0 m = str w /\ group1 m = option_map str g1.
Proof. apply search_chars_sound. Qed.

(** The text of the group, when there is one, is denoted by the body of
    a group of the pattern. *)
Lemma derives_groups ic r w g g' :
  derives ic r w g g' ->
  g' = g \/
  exists body wg g0 g1, body ∈ groups r /\ derives ic body wg g0 g1 /\ g' = Some wg.
Proof.
  induction 1 as [g | p c g Hc | c g Hc | cs c g Hc
                  | r1 r2 w1 w2 g g1 g2 _ IH1 _ IH2
                  | r1 r2 w g g1 _ IH | r1 r2 w g g1 _ IH
                  | r g | r w1 w2 g g1 g2 Hne _ IH1 _ IH2
                  | r w g g1 Hd IH]; simpl; try (now left).
  - destruct IH2 as [-> | (body & wg & g0 & g3 & Hin & Hd & ->)].
    + destruct IH1 as [-> | (body & wg & g0 & g3 & Hin & Hd & ->)]; [now left |].
      right. exists body, wg, g0, g3. split; [apply elem_of_app; auto | auto].
    + right. exists body, wg, g0, g3. split; [apply elem_of_app; auto | auto].
  - destruct IH as [-> | (body & wg & g0 & g3 & Hin & Hd & ->)]; [now left |].
    right. exists body, wg, g0, g3. split; [apply elem_of_app; auto | auto].
  - destruct IH as [-> | (body & wg & g0 & g3 & Hin & Hd & ->)]; [now left |].
    right. exists body, wg, g0, g3. split; [apply elem_of_app; auto | auto].
  - destruct IH2 as [-> | (body & wg & g0 & g3 & Hin & Hd & ->)].
    + destruct IH1 as [-> | (body & wg & g0 & g3 & Hin & Hd & ->)]; [now left |].
      right. exists body, wg, g0, g3. auto.
    + right. exists body, wg, g0, g3. auto.
  - right. exists r, w, g, g1. split; [apply list_elem_of_here | auto].
Qed.

(** A pattern whose every match goes through a group leaves a group. *)
Lemma derives_must_group ic r w g g' :
  derives ic r w g g' ->
  must_group r = true ->
  exists body wg g0 g1, body ∈ groups r /\ derives ic body wg g0 g1 /\ g' = Some wg.
Proof.
  induction 1 as [g | p c g Hc | c g Hc | cs c g Hc
                  | r1 r2 w1 w2 g g1 g2 Hd1 IH1 Hd2 IH2
                  | r1 r2 w g g1 _ IH | r1 r2 w g g1 _ IH
                  | r g | r w1 w2 g g1 g2 Hne _ IH1 _ IH2
                  | r w g g1 Hd IH]; simpl; try discriminate.
  - intros Hm. apply orb_true_iff in Hm.
    destruct (must_group r2) eqn:H2.
    + destruct (IH2 eq_refl) as (body & wg & g0 & g3 & Hin & Hd & ->).
      exists body, wg, g0, g3. split; [apply elem_of_app; auto | auto].
    + destruct Hm as [Hm | Hm]; [| discriminate].
      destruct (IH1 Hm) as (body & wg & g0 & g3 & Hin & Hd & ->).
      destruct (derives_groups _ _ _ _ _ Hd2) as [-> | (body' & wg' & g0' & g3' & Hin' & Hd' & ->)].
      * exists body, wg, g0, g3. split; [apply elem_of_app; auto | auto].
      * exists body', wg', g0', g3'. split; [apply elem_of_app; auto | auto].
  - intros Hm. apply andb_true_iff in Hm. destruct Hm as [Hm _].
    destruct (IH Hm) as (body & wg & g0 & g3 & Hin & Hd & ->).
    exists body, wg, g0, g3. split; [apply elem_of_app; auto | auto].
  - intros Hm. apply andb_true_iff in Hm. destruct Hm as [_ Hm].
    destruct (IH Hm) as (body & wg & g0 & g3 & Hin & Hd & ->).
    exists body, wg, g0, g3. split; [apply elem_of_app; auto | auto].
  - intros _. exists r, w, g, g1. split; [apply list_elem_of_here | auto].
Qed.

(** A pattern without groups leaves the group as it was. *)
Lemma derives_no_group ic r w g g' :
  derives ic r w g g' -> groups r = [] -> g' = g.
Proof.
  intros Hd Hg. destruct (derives_groups _ _ _ _ _ Hd) as [-> | (b & _ & _ & _ & Hin & _)];
    [reflexivity |].
  rewrite Hg in Hin. now apply elem_of_nil in Hin.
Qed.

(** One character or more of a class. *)
Lemma derives_star_cls ic cs w g g' :
  derives ic (Star (Cls cs)) w g g' -> Forall (fun c => cset_mem ic cs c = true) w.
Proof.
  remember (Star (Cls cs)) as r eqn:Hr. induction 1; try discriminate.
  - constructor.
  - injection Hr as ->. apply Forall_app. split; [| auto].
    match goal with H : derives _ (Cls _) _ _ _ |- _ => inversion H; subst end.
    repeat constructor. assumption.
Qed.

Lemma derives_plus_cls ic cs w g g' :
  derives ic (Plus (Cls cs)) w g g' ->
  w <> [] /\ Forall (fun c => cset_mem ic cs c = true) w.
Proof.
  unfold Plus. intros H. inversion H as [| | | | r1 r2 w1 w2 g0 g1 g2 H1 H2 | | | | |]; subst.
  inversion H1; subst. apply derives_star_cls in H2.
  split; [discriminate | constructor; assumption].
Qed.

End MatcherProperties.


(* ===================================================================== *)
(** * What the failure analysis holds *)
(* ===================================================================== *)

Module AnalysisProperties.
Import Py Re ReLang Eff HealingEngine Spec PatternAnalyzer.
Import ClassifierProperties EngineProperties MatcherProperties.
Local Open Scope list_scope.

(** The group of a match lies inside the matched text. *)
Lemma derives_group_inside ic r w g g' :
  derives ic r w g g' ->
  g' = g \/ exists a wg b, w = a ++ wg ++ b /\ g' = Some wg.
Proof.
  induction 1 as [g | p c g Hc | c g Hc | cs c g Hc
                  | r1 r2 w1 w2 g g1 g2 _ IH1 _ IH2
                  | r1 r2 w g g1 _ IH | r1 r2 w g g1 _ IH
                  | r g | r w1 w2 g g1 g2 Hne _ IH1 _ IH2
                  | r w g g1 Hd IH]; try (now left); try exact IH.
  - destruct IH2 as [-> | (a & wg & b & -> & ->)].
    + destruct IH1 as [-> | (a & wg & b & -> & ->)]; [now left |].
      right. exists a, wg, (b ++ w2). split; [now rewrite <- !app_assoc | reflexivity].
    + right. exists (w1 ++ a), wg, b. split; [now rewrite <- !app_assoc | reflexivity].
  - destruct IH2 as [-> | (a & wg & b & -> & ->)].
    + destruct IH1 as [-> | (a & wg & b & -> & ->)]; [now left |].
      right. exists a, wg, (b ++ w2). split; [now rewrite <- !app_assoc | reflexivity].
    + right. exists (w1 ++ a), wg, b. split; [now rewrite <- !app_assoc | reflexivity].
  - right. exists [], w, []. split; [now rewrite app_nil_r | reflexivity].
Qed.

Lemma substring_refl s : substring s s.
Proof. exists [], []. now rewrite app_nil_r. Qed.

Lemma substring_empty s : substring "" s.
Proof. exists [], (chars s). reflexivity. Qed.

Lemma substring_trans a b c : substring a b -> substring b c -> substring a c.
Proof.
  intros (p1 & q1 & H1) (p2 & q2 & H2).
  exists (p2 ++ p1), (q1 ++ q2). rewrite H2, H1. now rewrite <- !app_assoc.
Qed.

(** A word character is not white space. *)
Lemma is_word_not_space c : is_word c = true -> is_space c = false.
Proof.
  destruct c as [[] [] [] [] [] [] [] []]; vm_compute; congruence.
Qed.

(** What a match object of a search holds, for a pattern whose group is
    one or more characters of a class. *)
Lemma search_group ic r cs s m :
  search ic r s = Some m ->
  must_group r = true ->
  groups r = [Plus (Cls cs)] ->
  substring (group0 m) s /\
  exists name,
    group1 m = Some name /\ name <> "" /\ substring name (group0 m) /\
    Forall (fun c => cset_mem ic cs c = true) (chars name).
Proof.
  intros Hs Hmust Hgroups. apply search_sound in Hs.
  destruct Hs as (pre & w & rest & g1 & Hchars & Hd & H0 & H1).
  split.
  { exists pre, rest. now rewrite H0, chars_str. }
  destruct (derives_must_group _ _ _ _ _ Hd Hmust) as (body & wg & g0 & g3 & Hin & Hbody & ->).
  rewrite Hgroups in Hin. apply list_elem_of_singleton in Hin. subst body.
  apply derives_plus_cls in Hbody. destruct Hbody as [Hne Hall].
  exists (str wg). split; [exact H1 |]. split.
  { intros Hempty. apply Hne. rewrite <- (chars_str wg), Hempty. reflexivity. }
  split.
  - destruct (derives_group_inside _ _ _ _ _ Hd) as [[=] | (a & wg' & b & -> & [= <-])].
    exists a, b. now rewrite H0, !chars_str.
  - now rewrite chars_str.
Qed.

(** A search that succeeds reports a text of the input. *)
Lemma search_substring ic r s m : search ic r s = Some m -> substring (group0 m) s.
Proof.
  intros Hs. apply search_sound in Hs.
  destruct Hs as (pre & w & rest & g1 & Hchars & _ & H0 & _).
  exists pre, rest. now rewrite H0, chars_str.
Qed.

(** ** The dictionary a recorded match leaves *)

Lemma record_match_error_message etype m analysis :
  record_match etype m analysis !! "error_message" = Some (VStr (group0 m)).
Proof.
  unfold record_match.
  destruct (String.eqb etype "missing_dependency");
    [| destruct (String.eqb etype "test_timeout")];
    repeat (rewrite lookup_insert_ne by discriminate);
    apply lookup_insert_eq.
Qed.

Lemma record_match_missing_package etype m :
  record_match etype m initial_analysis !! "missing_package"
  = if String.eqb etype "missing_dependency" then Some (group1_or_none m) else None.
Proof.
  unfold record_match.
  destruct (String.eqb etype "missing_dependency");
    [| destruct (String.eqb etype "test_timeout")];
    try (rewrite lookup_insert_eq; reflexivity);
    repeat (rewrite lookup_insert_ne by discriminate); reflexivity.
Qed.

Lemma record_match_test_name etype m :
  record_match etype m initial_analysis !! "test_name"
  = if String.eqb etype "missing_dependency" then None
    else if String.eqb etype "test_timeout" then Some (group1_or_none m) else None.
Proof.
  unfold record_match.
  destruct (String.eqb etype "missing_dependency");
    [| destruct (String.eqb etype "test_timeout")];
    try (rewrite lookup_insert_eq; reflexivity);
    repeat (rewrite lookup_insert_ne by discriminate); reflexivity.
Qed.

(** The steps after the pattern loop touch the stack trace and the
    severity only. *)
Lemma analyze_failure_other_key logs k :
  k <> "stack_trace" -> k <> "severity" ->
  analyze_failure logs !! k = match_patterns patterns logs initial_analysis !! k.
Proof.
  intros H1 H2. unfold analyze_failure.
  rewrite lookup_insert_ne by congruence.
  destruct (search_traceback (chars logs)); [rewrite lookup_insert_ne by congruence |];
    reflexivity.
Qed.

Lemma match_patterns_stack_trace logs :
  match_patterns patterns logs initial_analysis !! "stack_trace" = Some (VStr "").
Proof.
  destruct (match_patterns_cases patterns logs initial_analysis)
    as [[_ ->] | (pre & p & et & post & m & _ & _ & _ & ->)]; [reflexivity |].
  unfold record_match.
  destruct (String.eqb et "missing_dependency");
    [| destruct (String.eqb et "test_timeout")];
    repeat (rewrite lookup_insert_ne by discriminate); reflexivity.
Qed.

Lemma analyze_failure_stack_trace logs :
  get (analyze_failure logs) "stack_trace"
  = VStr (match search_traceback (chars logs) with Some t => t | None => "" end).
Proof.
  unfold get, analyze_failure. rewrite lookup_insert_ne by discriminate.
  destruct (search_traceback (chars logs)).
  - now rewrite lookup_insert_eq.
  - now rewrite match_patterns_stack_trace.
Qed.

(** ** The naive extraction of the stack trace *)

Lemma starts_with_split p l : starts_with p l = true -> l = p ++ skipn (length p) l.
Proof.
  revert l. induction p as [| a p IH]; intros l H; simpl; [reflexivity |].
  destruct l as [| b l]; [discriminate |]. simpl in H.
  apply andb_true_iff in H. destruct H as [Hab Hp].
  apply Ascii.eqb_eq in Hab. subst b. simpl. f_equal. now apply IH.
Qed.

Lemma until_blank_line_prefix s : exists post, s = until_blank_line s ++ post.
Proof.
  induction s as [| c s (post & IH)]; [now exists [] |].
  cbn [until_blank_line].
  destruct (starts_with [newline; newline] (c :: s)).
  - now exists (c :: s).
  - exists post. simpl. now rewrite <- IH.
Qed.

Lemma until_blank_line_head c s :
  starts_with [newline; newline] (c :: s) = false ->
  starts_with [newline; newline] (c :: until_blank_line s) = false.
Proof.
  cbn [starts_with]. destruct (Ascii.eqb newline c); [| reflexivity].
  rewrite !andb_true_l.
  destruct s as [| d s]; [reflexivity |].
  intros Hd. cbn [until_blank_line].
  destruct (starts_with [newline; newline] (d :: s)); [reflexivity | exact Hd].
Qed.

Lemma until_blank_line_no_blank s : contains [newline; newline] (until_blank_line s) = false.
Proof.
  induction s as [| c s IH]; [reflexivity |].
  cbn [until_blank_line].
  destruct (starts_with [newline; newline] (c :: s)) eqn:Hc; [reflexivity |].
  cbn [contains]. rewrite IH, (until_blank_line_head _ _ Hc). reflexivity.
Qed.

Lemma search_traceback_cases s t :
  search_traceback s = Some t ->
  exists pre body post,
    s = pre ++ traceback_marker ++ body ++ post /\
    t = str (traceback_marker ++ body) /\
    contains [newline; newline] (traceback_marker ++ body) = false.
Proof.
  induction s as [| c s IH].
  - simpl. discriminate.
  - cbn [search_traceback].
    destruct (starts_with traceback_marker (c :: s)) eqn:Hm.
    + intros [= <-]. apply starts_with_split in Hm.
      destruct (until_blank_line_prefix (skipn (length traceback_marker) (c :: s)))
        as [post Hpost].
      exists [], (until_blank_line (skipn (length traceback_marker) (c :: s))), post.
      split; [rewrite app_nil_l, <- Hpost; exact Hm |]. split; [reflexivity |].
      generalize (until_blank_line_no_blank (skipn (length traceback_marker) (c :: s))).
      generalize (until_blank_line (skipn (length traceback_marker) (c :: s))).
      intros body Hbody. cbn. exact Hbody.
    + intros H. destruct (IH H) as (pre & body & post & -> & -> & Hb).
      exists (c :: pre), body, post. repeat split; assumption.
Qed.

(** X1: the evidence of an analysis is quoted from the log.  For every
    log text the error message and the stack trace of
    [analyze_failure] are runs of consecutive characters of the log;
    the stack trace is empty or begins with the traceback marker, and
    it contains no blank line. *)
Theorem analyze_failure_quotes_the_log (logs : string) :
  exists msg trace,
    get (analyze_failure logs) "error_message" = VStr msg /\
    get (analyze_failure logs) "stack_trace" = VStr trace /\
    substring msg logs /\
    substring trace logs /\
    (trace = "" \/ exists body, trace = "Traceback (most recent call last):" +:+ body) /\
    str_in (nl +:+ nl) trace = false.
Proof.
  assert (Hmsg : exists msg, get (analyze_failure logs) "error_message" = VStr msg /\
                             substring msg logs).
  { unfold get. rewrite analyze_failure_other_key by discriminate.
    destruct (match_patterns_cases patterns logs initial_analysis)
      as [[_ ->] | (pre & p & et & post & m & _ & _ & Hm & ->)].
    - exists "". split; [reflexivity | apply substring_empty].
    - rewrite record_match_error_message. exists (group0 m).
      split; [reflexivity | eapply search_substring, Hm]. }
  destruct Hmsg as (msg & Hmsg & Hsub).
  exists msg. eexists. split; [exact Hmsg |].
  split; [apply analyze_failure_stack_trace |]. split; [exact Hsub |].
  destruct (search_traceback (chars logs)) as [t |] eqn:Ht.
  - destruct (search_traceback_cases _ _ Ht) as (pre & body & post & Hlogs & -> & Hb).
    split; [| split].
    + exists pre, post. rewrite chars_str, Hlogs. now rewrite <- !app_assoc.
    + right. exists (str body). unfold traceback_marker.
      rewrite <- (str_chars (_ +:+ str body)), chars_app, chars_str. reflexivity.
    + unfold str_in. rewrite chars_str. exact Hb.
  - split; [apply substring_empty |]. split; [now left | reflexivity].
Qed.

(** ** The package and the test an analysis names *)

(** The groups of the rules of [analyze_failure] that extract a name. *)
Lemma patterns_groups :
  Forall (fun rule : regex * string =>
            (rule.2 = "missing_dependency" ->
             must_group rule.1 = true /\
             (groups rule.1 = [Plus (Cls CWord)] \/ groups rule.1 = [Plus (Cls CNotSpace)])) /\
            (rule.2 = "test_timeout" ->
             must_group rule.1 = true /\ groups rule.1 = [Plus (Cls CWord)]))
         patterns.
Proof.
  unfold patterns.
  repeat (constructor;
          [split; cbn [fst snd]; intros H; try discriminate H; vm_compute; auto |]).
  constructor.
Qed.

(** X2: an analysis names its culprit.  For every log text, an analysis
    of type missing_dependency holds under ["missing_package"] a name
    that is not empty, has no white space and occurs in the error
    message; an analysis of type test_timeout holds under ["test_name"]
    a non-empty run of word characters; an analysis of another type has
    neither key. *)
Theorem analyze_failure_names_the_culprit (logs : string) :
  let analysis := analyze_failure logs in
  (category analysis = VStr "missing_dependency" ->
   exists pkg msg,
     get analysis "missing_package" = VStr pkg /\ pkg <> "" /\
     Forall (fun c => is_space c = false) (chars pkg) /\
     get analysis "error_message" = VStr msg /\ substring pkg msg) /\
  (category analysis = VStr "test_timeout" ->
   exists name,
     get analysis "test_name" = VStr name /\ name <> "" /\
     Forall (fun c => is_word c = true) (chars name)) /\
  (category analysis <> VStr "missing_dependency" -> analysis !! "missing_package" = None) /\
  (category analysis <> VStr "test_timeout" -> analysis !! "test_name" = None).
Proof.
  intros analysis. subst analysis. unfold category, get.
  rewrite !analyze_failure_other_key by discriminate.
  destruct (match_patterns_cases patterns logs initial_analysis)
    as [[_ ->] | (pre & p & et & post & m & Hps & _ & Hm & ->)].
  { repeat split; try discriminate; reflexivity. }
  rewrite record_match_error_type, record_match_missing_package, record_match_test_name,
    record_match_error_message.
  assert (Hrule : (p, et) ∈ patterns).
  { rewrite Hps. apply elem_of_app. right. apply list_elem_of_here. }
  pose proof patterns_groups as Hall. rewrite Forall_forall in Hall.
  destruct (Hall _ Hrule) as [Hdep Htime]. cbn [fst snd] in Hdep, Htime.
  split; [| split; [| split]].
  - intros [= ->]. destruct (Hdep eq_refl) as [Hmust Hgroups]. simpl.
    assert (Hname : exists cs, groups p = [Plus (Cls cs)] /\
                               forall c, cset_mem true cs c = true -> is_space c = false).
    { destruct Hgroups as [Hg | Hg]; eexists; (split; [exact Hg |]); intros c Hc.
      - now apply is_word_not_space.
      - simpl in Hc. now apply negb_true_iff in Hc. }
    destruct Hname as (cs & Hg & Hcs).
    destruct (search_group _ _ _ _ _ Hm Hmust Hg) as (_ & name & H1 & Hne & Hin & Hchars).
    exists name, (group0 m). unfold group1_or_none. rewrite H1.
    split; [reflexivity |]. split; [exact Hne |].
    split; [| split; [reflexivity | exact Hin]].
    eapply Forall_impl; [exact Hchars | exact Hcs].
  - intros [= ->]. destruct (Htime eq_refl) as [Hmust Hg]. simpl.
    destruct (search_group _ _ _ _ _ Hm Hmust Hg) as (_ & name & H1 & Hne & _ & Hchars).
    exists name. unfold group1_or_none. rewrite H1. repeat split; assumption.
  - intros Hne. destruct (String.eqb_spec et "missing_dependency") as [-> |]; [| reflexivity].
    now contradiction Hne.
  - intros Hne. destruct (String.eqb_spec et "missing_dependency"); [reflexivity |].
    destruct (String.eqb_spec et "test_timeout") as [-> |]; [| reflexivity].
    now contradiction Hne.
Qed.

(** A pip error with a version specifier, a pytest timeout, and an
    out-of-memory kill. *)
Lemma analyze_failure_names_the_culprit_witness :
  (exists pkg msg,
      get (analyze_failure "ERROR: Could not find a version that satisfies the requirement numpy>=2 (none)")
          "missing_package" = VStr pkg /\ pkg <> "" /\
      Forall (fun c => is_space c = false) (chars pkg) /\
      get (analyze_failure "ERROR: Could not find a version that satisfies the requirement numpy>=2 (none)")
          "error_message" = VStr msg /\ substring pkg msg) /\
  (exists name,
      get (analyze_failure "FAILED tests/test_slow.py::test_data - Timeout") "test_name"
      = VStr name /\ name <> "" /\ Forall (fun c => is_word c = true) (chars name)) /\
  analyze_failure "OOMKilled" !! "missing_package" = None /\
  analyze_failure "OOMKilled" !! "test_name" = None.
Proof.
  split; [| split; [| split]].
  - apply (proj1 (analyze_failure_names_the_culprit
                    "ERROR: Could not find a version that satisfies the requirement numpy>=2 (none)")).
    vm_compute. reflexivity.
  - apply (proj1 (proj2 (analyze_failure_names_the_culprit
                           "FAILED tests/test_slow.py::test_data - Timeout"))).
    vm_compute. reflexivity.
  - apply (proj1 (proj2 (proj2 (analyze_failure_names_the_culprit "OOMKilled")))).
    vm_compute. discriminate.
  - apply (proj2 (proj2 (proj2 (analyze_failure_names_the_culprit "OOMKilled")))).
    vm_compute. discriminate.
Defined.

(** ** Fixable analyses and the strategies *)

(** The types of the rules of [analyze_failure], and ["unknown"], are
    judged alike by the registry of strategies and by [can_auto_heal]. *)
Lemma engine_categories_auto_heal :
  Forall (fun c => in_strategies (VStr c) = can_auto_heal c) engine_categories.
Proof. unfold engine_categories. repeat constructor. Qed.

Lemma analyze_failure_type logs :
  exists c,
    category (analyze_failure logs) = VStr c /\ c ∈ engine_categories /\
    get (analyze_failure logs) "fixable" = VBool (in_strategies (VStr c)).
Proof.
  destruct (analyze_failure_category logs)
    as [(_ & Hc & Hf) | (pre & p & et & post & Hps & _ & _ & Hc & Hf)].
  - exists "unknown". split; [exact Hc |]. split; [| exact Hf].
    apply (bool_decide_unpack _). vm_compute. exact I.
  - exists et. split; [exact Hc |]. split; [| exact Hf].
    assert (Hall : Forall (fun rule : regex * string => rule.2 ∈ engine_categories) patterns).
    { unfold patterns, engine_categories.
      repeat (constructor; [cbn [snd]; apply (bool_decide_unpack _); vm_compute; exact I |]).
      constructor. }
    rewrite Forall_forall in Hall. apply (Hall (p, et)).
    rewrite Hps. apply elem_of_app. right. apply list_elem_of_here.
Qed.

(** X3: the flag ["fixable"] and what can be healed.  For every log text
    the flag ["fixable"] of [analyze_failure] says whether the error
    type it found has a strategy in the registry of the engine, and it
    is the answer of [FailurePatternAnalyzer.can_auto_heal] for that
    type.  The registry and [can_auto_heal] judge every type alike but
    one, ["flaky_test"], which has a strategy and is not healable for
    the analyzer; [analyze_failure] never finds that type. *)
Theorem analyze_failure_fixable_agrees (logs : string) :
  (exists c,
      category (analyze_failure logs) = VStr c /\
      c <> "flaky_test" /\
      get (analyze_failure logs) "fixable" = VBool (in_strategies (VStr c)) /\
      in_strategies (VStr c) = can_auto_heal c) /\
  (forall pattern_type,
      in_strategies (VStr pattern_type) <> can_auto_heal pattern_type <->
      pattern_type = "flaky_test").
Proof.
  split.
  - pose proof engine_categories_auto_heal as Hall. rewrite Forall_forall in Hall.
    destruct (analyze_failure_type logs) as (c & Hc & Hin & Hfix).
    exists c. split; [exact Hc |]. split; [| split; [exact Hfix | apply Hall, Hin]].
    intros ->. revert Hin. apply (bool_decide_unpack _). vm_compute. exact I.
  - intros pattern_type. unfold in_strategies, can_auto_heal, strategy_names. split.
    + intros Hdiffer. destruct (decide (pattern_type = "flaky_test")) as [| Hne]; [assumption |].
      exfalso. apply Hdiffer. apply bool_decide_ext.
      rewrite !elem_of_cons, !elem_of_nil. tauto.
    + intros ->. vm_compute. discriminate.
Qed.

End AnalysisProperties.


(* ===================================================================== *)
(** * Properties of the pattern analyzer *)
(* ===================================================================== *)

Module AnalyzerProperties.
Import Py Re ReLang FailurePatterns PatternAnalyzer Spec.
Import ClassifierProperties EngineProperties MatcherProperties AnalysisProperties.
Local Open Scope list_scope.

(** ** The details of an identified pattern *)

Lemma first_rule_cases rules error_log :
  first_rule rules error_log = None \/
  exists r pattern_type m,
    (r, pattern_type) ∈ rules /\ search true r error_log = Some m /\
    first_rule rules error_log = Some (pattern_type, details_of pattern_type m).
Proof.
  induction rules as [| [r c] rules IH]; simpl; [now left |].
  destruct (search true r error_log) as [m |] eqn:Hm.
  - right. exists r, c, m. split; [apply list_elem_of_here | auto].
  - destruct IH as [-> | (r' & c' & m' & Hin & Hs & ->)]; [now left |].
    right. exists r', c', m'. split; [now apply list_elem_of_further | auto].
Qed.

(** Every category of the rule table has a difficulty, and none of them
    is called unknown. *)
Lemma flat_rules_difficulty :
  Forall (fun rule : regex * string =>
            rule.2 <> "unknown" /\
            difficulty_of healing_difficulty rule.2 ∈ ["easy"; "medium"; "hard"])
         (flat_rules patterns).
Proof.
  apply Forall_forall. intros [r c] Hin.
  assert (Hc : c ∈ (flat_rules patterns).*2).
  { apply list_elem_of_fmap. now exists (r, c). }
  clear Hin. cbn [snd]. revert c Hc. apply Forall_forall.
  set (l := (flat_rules patterns).*2). vm_compute in l. subst l.
  repeat (constructor; [split; [discriminate | apply (bool_decide_unpack _); vm_compute; exact I] |]).
  constructor.
Qed.

(** X4: what [identify_pattern] reports.  For every log text the
    details repeat the returned category and give a difficulty that is
    easy, medium or hard (the default of the lookup is never used); when
    the category is not unknown the matched text is quoted from the
    log, and at most one captured group is listed, which occurs in the
    matched text; when it is unknown there is no matched text and the
    difficulty is hard. *)
Theorem identify_pattern_details (error_log : string) :
  let category := (identify_pattern error_log).1 in
  let details := (identify_pattern error_log).2 in
  get details "pattern_type" = VStr category /\
  (exists d, get details "difficulty" = VStr d /\ d ∈ ["easy"; "medium"; "hard"]) /\
  (category <> "unknown" ->
   exists text captured,
     get details "matched_text" = VStr text /\ substring text error_log /\
     get details "captured_groups" = VList captured /\
     (length captured <= 1)%nat /\ Forall (fun g => substring g text) captured) /\
  (category = "unknown" ->
   details !! "matched_text" = None /\ get details "difficulty" = VStr "hard").
Proof.
  intros category details. subst category details.
  unfold identify_pattern. rewrite first_pattern_flat.
  destruct (first_rule_cases (flat_rules patterns) error_log)
    as [-> | (r & c & m & Hin & Hm & ->)]; cbn [fst snd].
  { split; [reflexivity |]. split.
    - exists "hard". split; [reflexivity |]. apply (bool_decide_unpack _). vm_compute. exact I.
    - split; [intros H; now contradiction H | intros _; split; reflexivity]. }
  pose proof flat_rules_difficulty as Hall. rewrite Forall_forall in Hall.
  destruct (Hall _ Hin) as [Hne Hd]. cbn [snd] in Hne, Hd.
  unfold details_of, get.
  split; [| split; [| split]].
  - repeat (rewrite lookup_insert_ne by discriminate). now rewrite lookup_insert_eq.
  - rewrite lookup_insert_eq. eauto.
  - intros _. exists (group0 m). eexists.
    repeat (rewrite lookup_insert_ne by discriminate). rewrite lookup_insert_eq.
    split; [reflexivity |]. split; [eapply search_substring, Hm |].
    rewrite lookup_insert_ne by discriminate. rewrite lookup_insert_eq.
    split; [reflexivity |].
    apply search_sound in Hm. destruct Hm as (pre & w & rest & g1 & _ & Hd' & H0 & H1).
    rewrite H1. destruct g1 as [wg |]; simpl; [| split; [lia | constructor]].
    split; [lia |]. constructor; [| constructor].
    destruct (derives_group_inside _ _ _ _ _ Hd') as [[=] | (a & wg' & b & -> & [= <-])].
    exists a, b. now rewrite H0, !chars_str.
  - intros ->. now contradiction Hne.
Qed.

(** A pytest assertion, and a text no rule knows. *)
Lemma identify_pattern_details_witness :
  (exists text captured,
      get (identify_pattern "AssertionError: boom").2 "matched_text" = VStr text /\
      substring text "AssertionError: boom" /\
      get (identify_pattern "AssertionError: boom").2 "captured_groups" = VList captured /\
      (length captured <= 1)%nat /\ Forall (fun g => substring g text) captured) /\
  (identify_pattern "all quiet").2 !! "matched_text" = None /\
  get (identify_pattern "all quiet").2 "difficulty" = VStr "hard".
Proof.
  split.
  - apply (proj1 (proj2 (proj2 (identify_pattern_details "AssertionError: boom")))).
    vm_compute. discriminate.
  - apply (proj2 (proj2 (proj2 (identify_pattern_details "all quiet")))).
    vm_compute. reflexivity.
Defined.

(** ** The three lookup tables *)

Ltac by_key p :=
  repeat match goal with
         | |- context [String.eqb ?k p] =>
             destruct (String.eqb_spec k p) as [<- | ?]; [vm_compute; intuition congruence |]
         end.

Lemma can_auto_heal_key p :
  can_auto_heal p = true ->
  p ∈ ["missing_dependency"; "test_timeout"; "build_failure";
       "deployment_crash"; "resource_limit"; "network_timeout"].
Proof. apply bool_decide_eq_true. Qed.

(** X5: the tables of the analyzer agree.  For every pattern type, the
    estimated fix time is zero exactly when the recommended strategy is
    manual intervention, and it is never negative; a type that can be
    healed automatically has a positive fix time, a strategy other than
    manual intervention, and a strategy in the registry of the healing
    engine. *)
Theorem analyzer_tables_agree (pattern_type : string) :
  (estimate_fix_time pattern_type = 0 <->
   get_healing_strategy pattern_type = "manual_intervention") /\
  0 <= estimate_fix_time pattern_type /\
  (can_auto_heal pattern_type = true ->
   0 < estimate_fix_time pattern_type /\
   get_healing_strategy pattern_type <> "manual_intervention" /\
   HealingEngine.in_strategies (VStr pattern_type) = true).
Proof.
  split; [| split].
  - unfold estimate_fix_time, get_healing_strategy, lookup_default.
    by_key pattern_type. intuition reflexivity.
  - unfold estimate_fix_time, lookup_default. by_key pattern_type. lia.
  - intros H. apply can_auto_heal_key in H.
    repeat (apply elem_of_cons in H; destruct H as [-> | H];
            [vm_compute; repeat split; (reflexivity || discriminate) |]).
    now apply elem_of_nil in H.
Qed.

Lemma analyzer_tables_agree_witness :
  0 < estimate_fix_time "resource_limit" /\
  get_healing_strategy "resource_limit" <> "manual_intervention" /\
  HealingEngine.in_strategies (VStr "resource_limit") = true.
Proof.
  apply (proj2 (proj2 (analyzer_tables_agree "resource_limit"))). reflexivity.
Defined.

(** ** Greedy runs of one class of characters *)

Section GreedyStar.
Context {R : Type}.
Variable ic : bool.

(** A star over a pattern that reads one character of a class, before a
    continuation that always answers, reads as many as there are. *)
Lemma go_star_class (r1 : regex) (P : ascii -> bool)
      (k : list ascii -> option (list ascii) -> option R) :
  (forall s g (k' : list ascii -> option (list ascii) -> option R),
      go ic r1 s g k' = match s with
                    | c :: s' => if P c then k' s' g else None
                    | [] => None
                    end) ->
  (forall s g, is_Some (k s g)) ->
  forall s g, go ic (Star r1) s g k = k (drop_while P s) g.
Proof.
  intros Hr1 Hk s g. cbn [go].
  assert (Hfuel : (length s <= length s)%nat) by lia. revert Hfuel.
  generalize (length s) at 2 3. intros fuel. revert s g.
  induction fuel as [| fuel IH]; intros s g Hfuel.
  - destruct s; [reflexivity | simpl in Hfuel; lia].
  - rewrite Hr1. destruct s as [| c s']; [reflexivity |]. simpl drop_while.
    destruct (P c); [| reflexivity].
    destruct (Nat.ltb_spec (length s') (length (c :: s'))) as [_ | Hge]; [| simpl in Hge; lia].
    rewrite IH by (simpl in Hfuel; lia).
    destruct (Hk (drop_while P s') g) as [x ->]. reflexivity.
Qed.

Lemma go_seq r1 r2 s g (k : list ascii -> option (list ascii) -> option R) :
  go ic (Seq r1 r2) s g k = go ic r1 s g (fun s1 g1 => go ic r2 s1 g1 k).
Proof. reflexivity. Qed.

Lemma go_cls cs c s g (k : list ascii -> option (list ascii) -> option R) :
  go ic (Cls cs) (c :: s) g k = if cset_mem ic cs c then k s g else None.
Proof. reflexivity. Qed.

End GreedyStar.

Lemma length_str l : String.length (str l) = length l.
Proof. induction l as [| c l IH]; simpl; [reflexivity | now rewrite IH]. Qed.

Lemma drop_while_all P l : Forall (fun c => P c = true) l -> drop_while P l = [].
Proof. induction 1 as [| c l Hc _ IH]; simpl; [reflexivity | now rewrite Hc]. Qed.

Lemma drop_while_suffix P l : exists pre, l = pre ++ drop_while P l.
Proof.
  induction l as [| c l (pre & IH)]; [now exists [] |]. simpl.
  destruct (P c); [exists (c :: pre); simpl; now rewrite <- IH | now exists []].
Qed.

Lemma drop_while_head_false P l :
  match l with [] => True | c :: _ => P c = false end -> drop_while P l = l.
Proof. destruct l as [| c l]; simpl; [reflexivity | now intros ->]. Qed.

(** A text without white space is its own [strip]. *)
Lemma strip_no_space l : Forall (fun c => is_space c = false) l -> strip (str l) = str l.
Proof.
  intros Hall. unfold strip, lstrip_ws, rstrip_ws. rewrite chars_str. f_equal.
  rewrite (drop_while_head_false is_space l) by (destruct Hall; auto).
  rewrite (drop_while_head_false is_space (rev l)); [apply rev_involutive |].
  apply Forall_rev in Hall. destruct Hall; auto.
Qed.

(** ** The package name of a dependency error *)

Lemma match_at_specifier_none c w :
  is_specifier c = false -> match_at false specifier (c :: w) = None.
Proof.
  intros Hc. unfold match_at, specifier, Plus. rewrite !go_seq, go_cls.
  unfold is_specifier in Hc. now rewrite Hc.
Qed.

Lemma match_at_specifier_all c w :
  is_specifier c = true ->
  Forall (fun d => Ascii.eqb d newline = false) w ->
  exists m, match_at false specifier (c :: w) = Some m /\
            String.length (group0 m) = S (length w).
Proof.
  intros Hc Hw. unfold match_at, specifier, Plus.
  set (K := fun (rest : list ascii) (g : option (list ascii)) =>
              Some {| group0 := str (firstn (length (c :: w) - length rest) (c :: w));
                      group1 := option_map str g |}).
  change (exists m,
             go false (Seq (Seq (Cls (COneOf specifier_chars))
                                (Star (Cls (COneOf specifier_chars))))
                           (Star Dot)) (c :: w) None K = Some m /\
             String.length (group0 m) = S (length w)).
  rewrite !go_seq, go_cls. unfold is_specifier in Hc. rewrite Hc.
  set (notnl := fun d : ascii => negb (Ascii.eqb d newline)).
  assert (Hdot : forall s g, go false (Star Dot) s g K = K (drop_while notnl s) g).
  { apply go_star_class.
    - intros s g k'. destruct s as [| d s']; [reflexivity |]. cbn [go]. unfold notnl.
      now destruct (Ascii.eqb d newline).
    - intros s g. unfold K. eauto. }
  rewrite (go_star_class false _ is_specifier).
  - rewrite Hdot.
    destruct (drop_while_suffix is_specifier w) as [pre Hpre].
    rewrite drop_while_all.
    + eexists. split; [reflexivity |]. cbn [group0]. rewrite length_str.
      rewrite Nat.sub_0_r. now rewrite firstn_all.
    + rewrite Hpre in Hw. apply Forall_app in Hw. destruct Hw as [_ Hw].
      eapply Forall_impl; [exact Hw |]. intros d Hd. unfold notnl. now rewrite Hd.
  - intros s g k'. destruct s; reflexivity.
  - intros s g. rewrite Hdot. unfold K. eauto.
Qed.

Lemma sub_chars_skip_all s : sub_chars false specifier [] (length s) s = [].
Proof. induction s as [| c s IH]; [reflexivity | exact IH]. Qed.

(** On a text of one line, the substitution of [extract_package_name]
    keeps what stands before the first specifier character. *)
Lemma sub_specifier w :
  Forall (fun d => Ascii.eqb d newline = false) w ->
  exists kept dropped,
    w = kept ++ dropped /\
    Forall (fun c => is_specifier c = false) kept /\
    sub_chars false specifier [] 0 w = kept.
Proof.
  induction 1 as [| c w Hc Hw (kept & dropped & IHw & IHk & IHs)].
  - exists [], []. repeat split; constructor.
  - destruct (is_specifier c) eqn:Hspec.
    + destruct (match_at_specifier_all c w Hspec Hw) as (m & Hm & Hlen).
      exists [], (c :: w). split; [reflexivity |]. split; [constructor |].
      cbn [sub_chars]. rewrite Hm, Hlen. apply sub_chars_skip_all.
    + exists (c :: kept), dropped. split; [simpl; now rewrite <- IHw |].
      split; [now constructor |].
      cbn [sub_chars]. rewrite (match_at_specifier_none c w Hspec). now rewrite IHs.
Qed.

(** The groups of the patterns of [extract_package_name]. *)
Lemma package_patterns_groups :
  Forall (fun p => must_group p = true /\
                   (groups p = [Plus (Cls CWord)] \/ groups p = [Plus (Cls CNotSpace)]))
         package_patterns.
Proof.
  unfold package_patterns.
  repeat (constructor; [vm_compute; auto |]). constructor.
Qed.

Lemma space_is_not_newline c : is_space c = false -> Ascii.eqb c newline = false.
Proof. destruct c as [[] [] [] [] [] [] [] []]; vm_compute; congruence. Qed.

Lemma first_package_clean ps error_log :
  Forall (fun p => must_group p = true /\
                   (groups p = [Plus (Cls CWord)] \/ groups p = [Plus (Cls CNotSpace)])) ps ->
  exists r,
    first_package ps error_log = inr r /\
    forall package,
      r = Some package ->
      Forall (fun c => is_space c = false /\ is_specifier c = false) (chars package) /\
      substring package error_log.
Proof.
  induction 1 as [| p ps [Hmust Hgroups] _ IH]; simpl.
  - exists None. split; [reflexivity | discriminate].
  - destruct (search false p error_log) as [m |] eqn:Hm; [| exact IH].
    assert (Hname : exists cs, groups p = [Plus (Cls cs)] /\
                               forall c, cset_mem false cs c = true -> is_space c = false).
    { destruct Hgroups as [Hg | Hg]; eexists; (split; [exact Hg |]); intros c Hc.
      - now apply is_word_not_space.
      - simpl in Hc. now apply negb_true_iff in Hc. }
    destruct Hname as (cs & Hg & Hcs).
    destruct (search_group _ _ _ _ _ Hm Hmust Hg) as (Hlog & name & H1 & _ & Hin & Hchars).
    rewrite H1. eexists. split; [reflexivity |].
    intros package [= <-].
    assert (Hns : Forall (fun c => is_space c = false) (chars name)).
    { eapply Forall_impl; [exact Hchars | exact Hcs]. }
    destruct (sub_specifier (chars name)) as (kept & dropped & Hsplit & Hkept & Hsub).
    { eapply Forall_impl; [exact Hns | exact space_is_not_newline]. }
    unfold sub. change (chars "") with (@nil ascii). rewrite Hsub.
    assert (Hkns : Forall (fun c => is_space c = false) kept).
    { rewrite Hsplit in Hns. now apply Forall_app in Hns. }
    rewrite (strip_no_space kept Hkns), chars_str. split.
    + apply Forall_forall. intros c Hc. split.
      * rewrite Forall_forall in Hkns. now apply Hkns.
      * rewrite Forall_forall in Hkept. now apply Hkept.
    + apply substring_trans with name; [| eapply substring_trans; eassumption].
      exists [], dropped. now rewrite chars_str.
Qed.

(** X6: the package name [extract_package_name] returns is clean.  For
    every log text the method returns without raising; a name it
    returns is quoted from the log, has no white space, and has none of
    the characters [<], [>], [=] and [!] of a version specifier. *)
Theorem extract_package_name_clean (error_log : string) :
  exists r,
    extract_package_name error_log = inr r /\
    forall package,
      r = Some package ->
      Forall (fun c => is_space c = false /\ is_specifier c = false) (chars package) /\
      substring package error_log.
Proof. apply first_package_clean, package_patterns_groups. Qed.

(** The error pip prints for a pinned requirement that does not exist. *)
Lemma extract_package_name_clean_witness :
  extract_package_name
    "Could not find a version that satisfies the requirement numpy>=2.0 (from versions: none)"
  = inr (Some "numpy") /\
  Forall (fun c => is_space c = false /\ is_specifier c = false) (chars "numpy") /\
  substring "numpy"
    "Could not find a version that satisfies the requirement numpy>=2.0 (from versions: none)".
Proof.
  destruct (extract_package_name_clean
              "Could not find a version that satisfies the requirement numpy>=2.0 (from versions: none)")
    as (r & Hr & Hclean).
  assert (Heq : r = Some "numpy") by (vm_compute in Hr; congruence).
  split; [rewrite Hr, Heq; reflexivity | exact (Hclean "numpy" Heq)].
Defined.

(** ** The name of a failed test *)

Lemma test_patterns_groups :
  Forall (fun p => must_group p = true /\ groups p = [Plus (Cls CWord)]) test_patterns.
Proof.
  unfold test_patterns.
  repeat (constructor; [vm_compute; auto |]). constructor.
Qed.

Lemma first_test_shape ps error_log :
  Forall (fun p => must_group p = true /\ groups p = [Plus (Cls CWord)]) ps ->
  first_test ps error_log = "unknown_test" \/
  exists name,
    first_test ps error_log = "test_" +:+ name /\ name <> "" /\
    Forall (fun c => is_word c = true) (chars name) /\ substring name error_log.
Proof.
  induction 1 as [| p ps [Hmust Hg] _ IH]; simpl; [now left |].
  destruct (search false p error_log) as [m |] eqn:Hm; [| exact IH].
  destruct (search_group _ _ _ _ _ Hm Hmust Hg) as (Hlog & name & H1 & Hne & Hin & Hchars).
  right. exists name. rewrite H1. split; [reflexivity |]. split; [exact Hne |].
  split; [exact Hchars | eapply substring_trans; eassumption].
Qed.

(** X7: the test name [extract_test_name] returns.  For every log text
    the method returns ["unknown_test"], or ["test_"] followed by a
    non-empty run of word characters quoted from the log. *)
Theorem extract_test_name_shape (error_log : string) :
  extract_test_name error_log = "unknown_test" \/
  exists name,
    extract_test_name error_log = "test_" +:+ name /\ name <> "" /\
    Forall (fun c => is_word c = true) (chars name) /\ substring name error_log.
Proof. apply first_test_shape, test_patterns_groups. Qed.

(** ** Batch statistics *)

Lemma bump_total k counts : total_count (bump k counts) = total_count counts + 1.
Proof.
  induction counts as [| [k' n] counts IH]; simpl; [lia |].
  destruct (String.eqb k' k); simpl; lia.
Qed.

Lemma bump_positive k counts :
  Forall (fun x : string * Z => 1 <= x.2) counts ->
  Forall (fun x : string * Z => 1 <= x.2) (bump k counts).
Proof.
  induction 1 as [| [k' n] counts Hn Hc IH]; simpl.
  - repeat constructor. simpl. lia.
  - cbn [snd] in Hn. destruct (String.eqb k' k); constructor; cbn [snd]; auto; lia.
Qed.

Lemma bump_key k counts x : x ∈ (bump k counts).*1 -> x = k \/ x ∈ counts.*1.
Proof.
  induction counts as [| [k' n] counts IH]; simpl.
  - intros H. apply list_elem_of_singleton in H. now left.
  - destruct (String.eqb k' k); simpl; [now right |].
    intros H. apply elem_of_cons in H. destruct H as [-> | H].
    + right. apply list_elem_of_here.
    + destruct (IH H) as [-> | Hin]; [now left | right; now apply list_elem_of_further].
Qed.

Lemma bump_nodup k counts : NoDup counts.*1 -> NoDup (bump k counts).*1.
Proof.
  induction counts as [| [k' n] counts IH]; simpl.
  - intros _. apply NoDup_singleton.
  - intros H. apply NoDup_cons in H. destruct H as [Hnotin Hnd].
    destruct (String.eqb_spec k' k); simpl.
    + apply NoDup_cons. split; assumption.
    + apply NoDup_cons. split; [| auto].
      intros Hin. apply bump_key in Hin. destruct Hin as [-> | Hin]; [congruence | auto].
Qed.

Lemma bump_count_of k t counts :
  count_of t (bump k counts) = count_of t counts + (if String.eqb k t then 1 else 0).
Proof.
  induction counts as [| [k' n] counts IH]; simpl.
  - destruct (String.eqb k t); lia.
  - destruct (String.eqb_spec k' k) as [-> | Hne]; simpl.
    + destruct (String.eqb k t); lia.
    + destruct (String.eqb_spec k' t) as [-> | Hne'].
      * destruct (String.eqb_spec k t); [congruence | lia].
      * exact IH.
Qed.

Lemma count_patterns_count_of t error_logs : forall counts details_list,
  count_of t (count_patterns error_logs counts details_list).1
  = count_of t counts + occurrences t error_logs.
Proof.
  unfold occurrences.
  induction error_logs as [| log error_logs IH]; intros counts details_list; simpl.
  - lia.
  - destruct (identify_pattern log) as [pattern_type details] eqn:Hid.
    rewrite IH, bump_count_of. cbn [fst].
    destruct (String.eqb pattern_type t); cbn [length]; lia.
Qed.

(** In a counter with distinct keys and positive counts, the entries are
    the keys that count, with their count. *)
Lemma counter_entries counts t n :
  NoDup counts.*1 ->
  Forall (fun x : string * Z => 1 <= x.2) counts ->
  (t, n) ∈ counts <-> n = count_of t counts /\ 1 <= n.
Proof.
  induction counts as [| [k m] counts IH]; cbn [fmap list_fmap fst count_of]; intros Hnd Hpos.
  - split; [intros H; now apply elem_of_nil in H | lia].
  - apply NoDup_cons in Hnd. destruct Hnd as [Hfresh Hnd].
    apply Forall_cons in Hpos. destruct Hpos as [Hm Hpos]. cbn [snd] in Hm.
    rewrite elem_of_cons. destruct (String.eqb_spec k t) as [-> | Hne].
    + split.
      * intros [[= ->] | Hin]; [now split |].
        exfalso. apply Hfresh. apply list_elem_of_fmap. now exists (t, n).
      * intros [-> _]. now left.
    + rewrite <- (IH Hnd Hpos). split; [| tauto].
      intros [[= -> ->] | Hin]; [congruence | exact Hin].
Qed.

Lemma pattern_stats_difficulty counts total stats :
  pattern_stats counts total = inr stats ->
  Forall (fun x : string * pattern_stat =>
            stat_difficulty x.2 = difficulty_of healing_difficulty x.1) stats.
Proof.
  revert stats. induction counts as [| [pattern count] counts IH]; simpl; intros stats.
  - intros [= <-]. constructor.
  - destruct (truediv count total); [discriminate |].
    destruct (pattern_stats counts total) as [e | stats']; [discriminate |].
    intros [= <-]. constructor; [reflexivity | now apply IH].
Qed.

Lemma count_patterns_spec error_logs : forall counts details_list,
  let result := count_patterns error_logs counts details_list in
  total_count result.1 = total_count counts + Z.of_nat (length error_logs) /\
  (NoDup counts.*1 -> NoDup result.1.*1) /\
  (Forall (fun x : string * Z => 1 <= x.2) counts ->
   Forall (fun x : string * Z => 1 <= x.2) result.1) /\
  result.2 = details_list ++ map (fun log => (identify_pattern log).2) error_logs.
Proof.
  induction error_logs as [| log error_logs IH]; intros counts details_list; simpl.
  - split; [lia |]. split; [auto |]. split; [auto | now rewrite app_nil_r].
  - destruct (identify_pattern log) as [pattern_type details] eqn:Hid.
    destruct (IH (bump pattern_type counts) (details_list ++ [details]))
      as (Htotal & Hnd & Hpos & Hdetails).
    split; [rewrite Htotal, bump_total; lia |].
    split; [intros H; now apply Hnd, bump_nodup |].
    split; [intros H; now apply Hpos, bump_positive |].
    rewrite Hdetails, <- app_assoc. reflexivity.
Qed.

Lemma pattern_stats_counts counts total :
  total <> 0 ->
  exists stats, pattern_stats counts total = inr stats /\ counts_of stats = counts.
Proof.
  intros Htotal. induction counts as [| [pattern count] counts (stats & IH & Hcounts)]; simpl.
  - now exists [].
  - unfold truediv. destruct (Z.eqb_spec total 0); [contradiction |].
    rewrite IH. eexists. split; [reflexivity |]. simpl. now rewrite Hcounts.
Qed.

Lemma insert_by_count_elem x l z : z ∈ insert_by_count x l <-> z = x \/ z ∈ l.
Proof.
  induction l as [| y l IH]; simpl.
  - rewrite list_elem_of_singleton, elem_of_nil. tauto.
  - destruct (Z.ltb y.2 x.2); rewrite !elem_of_cons; [tauto |]. rewrite IH. tauto.
Qed.

Lemma insert_by_count_falling x l : falling l -> falling (insert_by_count x l).
Proof.
  induction l as [| y l IH]; simpl.
  - intros _. repeat split. constructor.
  - intros [Hy Hl]. destruct (Z.ltb_spec y.2 x.2) as [Hlt | Hge].
    + split; [| split; assumption].
      constructor; [lia |]. eapply Forall_impl; [exact Hy |]. simpl. intros z Hz. lia.
    + split; [| now apply IH].
      apply Forall_forall. intros z Hz. apply insert_by_count_elem in Hz.
      destruct Hz as [-> | Hz]; [lia |]. rewrite Forall_forall in Hy. now apply Hy.
Qed.

Lemma sort_by_count counts : forall sorted,
  falling sorted ->
  falling (fold_left (fun sorted x => insert_by_count x sorted) counts sorted) /\
  forall z, z ∈ fold_left (fun sorted x => insert_by_count x sorted) counts sorted
            <-> z ∈ counts \/ z ∈ sorted.
Proof.
  induction counts as [| x counts IH]; intros sorted Hs; simpl.
  - split; [exact Hs |]. intros z. rewrite elem_of_nil. tauto.
  - destruct (IH (insert_by_count x sorted) (insert_by_count_falling x sorted Hs)) as [Hf Hz].
    split; [exact Hf |]. intros z. rewrite Hz, insert_by_count_elem, elem_of_cons. tauto.
Qed.

Lemma falling_app l1 l2 :
  falling (l1 ++ l2) ->
  falling l1 /\ forall x y, x ∈ l1 -> y ∈ l2 -> y.2 <= x.2.
Proof.
  induction l1 as [| a l1 IH]; simpl.
  - intros _. split; [exact I |]. intros x y Hx. now apply elem_of_nil in Hx.
  - intros [Ha Hl]. destruct (IH Hl) as [Hf Hxy].
    apply Forall_app in Ha. destruct Ha as [Ha1 Ha2].
    split; [split; assumption |].
    intros x y Hx Hy. apply elem_of_cons in Hx. destruct Hx as [-> | Hx]; [| auto].
    rewrite Forall_forall in Ha2. now apply Ha2.
Qed.

(** X8: the statistics of a batch of logs.  For every list of logs,
    the empty one included, [analyze_batch] returns without raising;
    the total is the number of logs and the details hold one entry for
    each log, in order; the distribution has exactly one entry for each
    type that [identify_pattern] gives to a log of the batch, its count
    is the number of these logs and its difficulty the difficulty of
    the type, so the counts add up to the total; [most_common] lists at
    most five of these entries, by falling count, and an entry it leaves
    out counts no more than any entry it lists. *)
Theorem analyze_batch_counts (error_logs : list string) :
  exists b,
    analyze_batch error_logs = inr b /\
    total_failures b = Z.of_nat (length error_logs) /\
    details b = map (fun log => (identify_pattern log).2) error_logs /\
    NoDup (pattern_distribution b).*1 /\
    (forall pattern_type count,
        (pattern_type, count) ∈ counts_of (pattern_distribution b) <->
        count = occurrences pattern_type error_logs /\ 1 <= count) /\
    Forall (fun x : string * pattern_stat =>
              stat_difficulty x.2 = difficulty_of healing_difficulty x.1)
           (pattern_distribution b) /\
    Forall (fun x : string * Z => 1 <= x.2) (counts_of (pattern_distribution b)) /\
    total_count (counts_of (pattern_distribution b)) = total_failures b /\
    (length (most_common b) <= 5)%nat /\
    falling (most_common b) /\
    (forall x, x ∈ most_common b -> x ∈ counts_of (pattern_distribution b)) /\
    (forall x y, x ∈ most_common b -> y ∈ counts_of (pattern_distribution b) ->
                 y ∉ most_common b -> y.2 <= x.2).
Proof.
  unfold analyze_batch.
  pose proof (count_patterns_spec error_logs [] []) as Hspec.
  pose proof (fun t => count_patterns_count_of t error_logs [] []) as Hocc.
  destruct (count_patterns error_logs [] []) as [counts details_list] eqn:Hrun.
  cbn [fst snd] in Hspec, Hocc. destruct Hspec as (Htotal & Hnd & Hpos & Hdetails).
  assert (Hstats : exists stats,
             pattern_stats counts (Z.of_nat (length error_logs)) = inr stats /\
             counts_of stats = counts).
  { destruct error_logs as [| log error_logs].
    - injection Hrun as <- <-. now exists [].
    - apply pattern_stats_counts. simpl length. lia. }
  destruct Hstats as (stats & Hstats & Hcounts).
  pose proof (pattern_stats_difficulty _ _ _ Hstats) as Hdifficulty.
  rewrite Hstats.
  assert (Hkeys : stats.*1 = counts.*1).
  { rewrite <- Hcounts. unfold counts_of. rewrite <- !list_fmap_compose. reflexivity. }
  eexists. split; [reflexivity |]. cbn [total_failures details pattern_distribution most_common].
  rewrite Hcounts, Hkeys.
  destruct (sort_by_count counts [] I) as [Hfall Helem].
  set (sorted := fold_left (fun sorted x => insert_by_count x sorted) counts []) in *.
  assert (Hparts : falling (take 5 sorted ++ drop 5 sorted)) by now rewrite take_drop.
  apply falling_app in Hparts. destruct Hparts as [Htake Hcross].
  split; [reflexivity |]. split; [exact Hdetails |].
  split; [apply Hnd; constructor |].
  split.
  { intros pattern_type count.
    rewrite (counter_entries counts pattern_type count (Hnd ltac:(constructor))
                             (Hpos ltac:(constructor))).
    rewrite Hocc. cbn [count_of]. rewrite Z.add_0_l. reflexivity. }
  split; [exact Hdifficulty |].
  split; [apply Hpos; constructor |].
  split; [simpl in Htotal; lia |].
  unfold most_common_of. fold sorted.
  split; [rewrite length_take; lia |]. split; [exact Htake |].
  split.
  - intros x Hx. apply elem_of_take in Hx. destruct Hx as (i & Hx & _).
    apply list_elem_of_lookup_2 in Hx. apply Helem in Hx.
    destruct Hx as [Hx | Hx]; [exact Hx | now apply elem_of_nil in Hx].
  - intros x y Hx Hy Hnot. apply Hcross; [exact Hx |].
    assert (Hys : y ∈ take 5 sorted ++ drop 5 sorted).
    { rewrite take_drop. apply Helem. now left. }
    apply elem_of_app in Hys. destruct Hys as [Hys | Hys]; [contradiction | exact Hys].
Qed.

End AnalyzerProperties.


(* ===================================================================== *)
(** * Properties of the strategies of the registry *)
(* ===================================================================== *)

Module StrategyProperties.
Import Py Re ReLang Eff HealingEngine Spec EngineStrategies Sim SimMore.
Import EngineProperties MatcherProperties.
Local Open Scope list_scope.

Section Answers.
Context {W A : Type}.
Variable Q : A -> Prop.

Lemma answers_ret (a : A) : Q a -> answers Q (ret a : M W A).
Proof. intros Ha st. exact Ha. Qed.

Lemma answers_raise e : answers Q (raise e : M W A).
Proof. intros st. exact I. Qed.

Lemma answers_bind {B} (m : M W B) (k : B -> M W A) :
  (forall b, answers Q (k b)) -> answers Q (bind m k).
Proof.
  intros Hk st. rewrite outcome_bind. destruct (outcome m st); [exact I | apply Hk].
Qed.

Lemma answers_try_catch (m : M W A) (h : exn -> M W A) :
  answers Q m -> (forall e, answers Q (h e)) -> answers Q (try_catch m h).
Proof.
  intros Hm Hh st. rewrite outcome_try_catch. specialize (Hm st).
  destruct (outcome m st); [apply Hh | exact Hm].
Qed.

Lemma returns_ret (a : A) : Q a -> returns Q (ret a : M W A).
Proof. intros Ha st. now exists a. Qed.

Lemma returns_try_catch (m : M W A) (h : exn -> M W A) :
  answers Q m -> (forall e, returns Q (h e)) -> returns Q (try_catch m h).
Proof.
  intros Hm Hh st. rewrite outcome_try_catch. specialize (Hm st).
  destruct (outcome m st) as [e | a]; [apply Hh | now exists a].
Qed.

End Answers.

(** A dictionary literal with the two keys reports. *)
Ltac report :=
  unfold reports; do 2 eexists;
  split; [apply lookup_insert_eq | rewrite lookup_insert_ne by discriminate; apply lookup_insert_eq].

Ltac answers_step :=
  first
    [ apply answers_ret; report
    | apply answers_raise
    | apply answers_bind; intros ?
    | apply answers_try_catch; [| intros ?]
    | match goal with
      | |- answers _ (if ?b then _ else _) => destruct b
      | |- answers _ (match ?x with _ => _ end) => destruct x
      | |- answers _ (let _ := _ in _) => cbv zeta
      end ].

Ltac returns_report :=
  first
    [ apply returns_ret; report
    | apply returns_try_catch; [repeat answers_step | intros ?; apply returns_ret; report] ].

(** Which entry of the registry is it? *)
Ltac pick_strategy H :=
  unfold strategies in H;
  repeat (apply elem_of_cons in H; destruct H as [[= -> ->] | H]);
  try (apply elem_of_nil in H; contradiction).

(** X9: the strategies of the registry report and do not raise.  For
    every strategy registered in [self.strategies], every analysis
    whose error message is a text, every run and every behaviour of
    the repository, the strategy returns a dictionary with a boolean
    ["success"] and a text under ["details"]. *)
Theorem registered_strategies_report
        {W : Type} (C : collaborators W) (C' : more_collaborators W)
        (repo_available heal_metric_available : bool)
        (name : string) (strategy : dict -> dict -> M W dict)
        (analysis workflow_run : dict) (st : state W) :
  (name, strategy) ∈ strategies C C' repo_available heal_metric_available ->
  (exists message, get_default analysis "error_message" (VStr "") = VStr message) ->
  exists result, outcome (strategy analysis workflow_run) st = inr result /\ reports result.
Proof.
  intros Hin [message Hmessage]. revert st.
  change (returns reports (strategy analysis workflow_run)).
  pick_strategy Hin.
  - unfold fix_missing_dependency. destruct (negb _); returns_report.
  - unfold fix_test_timeout. returns_report.
  - unfold fix_flaky_test. returns_report.
  - unfold fix_build_failure. rewrite Hmessage.
    destruct (str_in "cache" _); [| destruct (str_in "permission denied" _)]; returns_report.
  - unfold rollback_deployment, count_heal_action. returns_report.
  - unfold increase_resources. returns_report.
  - unfold add_retry_logic, count_heal_action. returns_report.
Qed.

(** The timeout strategy, on the analysis of a pytest timeout, in a
    repository without [pytest.ini]. *)
Lemma registered_strategies_report_witness :
  exists result,
    outcome (fix_test_timeout github true
               (analyze_failure "FAILED tests/test_slow.py::test_data - Timeout") ∅)
            (Monitor.initial_state (listing_world []))
    = inr result /\ reports result.
Proof.
  apply (registered_strategies_report github github_more true true "test_timeout").
  - apply list_elem_of_further, list_elem_of_here.
  - eexists. vm_compute. reflexivity.
Defined.

(** ** The files a strategy touches *)

Ltac allowed_event :=
  first
    [ left; reflexivity
    | right; split; [reflexivity | cbn; apply (bool_decide_unpack _); vm_compute; exact I]
    | right; split; [reflexivity | exact I] ].

Lemma add_package_allowed {W} (C : collaborators W) repo_available name package branch :
  "requirements.txt" ∈ files_of name ->
  emits_only (allowed name branch) (add_package_to_requirements C repo_available package branch).
Proof.
  intros Hfile. unfold add_package_to_requirements.
  repeat emits_step; right; (split; [reflexivity | first [exact Hfile | exact I]]).
Qed.

(** X10: a strategy stays in its files.  Every event of a registered
    strategy is the count of a healing action or a call of the
    repository on the branch of the run, and a write goes to a file of
    the strategy: the dependency manifest for missing_dependency and
    network_timeout, [pytest.ini] for test_timeout, both for flaky_test,
    the workflow file for resource_limit, and no file at all for
    build_failure and deployment_crash.  An engine without repository
    makes no repository call. *)
Theorem strategies_stay_in_their_files
        {W : Type} (C : collaborators W) (C' : more_collaborators W)
        (repo_available heal_metric_available : bool)
        (name : string) (strategy : dict -> dict -> M W dict)
        (analysis workflow_run : dict) (st : state W) :
  (name, strategy) ∈ strategies C C' repo_available heal_metric_available ->
  Forall (allowed name (get_default workflow_run "head_branch" (VStr "main")))
         (events (strategy analysis workflow_run) st) /\
  (repo_available = false ->
   Forall (fun e => e = MetricHealAction) (events (strategy analysis workflow_run) st)).
Proof.
  intros Hin. split.
  - from_any_state. pick_strategy Hin.
    + unfold fix_missing_dependency. repeat emits_step; allowed_event.
    + unfold fix_test_timeout. repeat emits_step; allowed_event.
    + unfold fix_flaky_test.
      repeat first [apply add_package_allowed; apply (bool_decide_unpack _); vm_compute; exact I
                   | emits_step]; allowed_event.
    + unfold fix_build_failure. repeat emits_step.
    + unfold rollback_deployment, count_heal_action. repeat emits_step; allowed_event.
    + unfold increase_resources. repeat emits_step; allowed_event.
    + unfold add_retry_logic, count_heal_action.
      repeat first [apply add_package_allowed; apply (bool_decide_unpack _); vm_compute; exact I
                   | emits_step]; allowed_event.
  - intros ->. from_any_state. pick_strategy Hin.
    + unfold fix_missing_dependency. repeat emits_step.
    + unfold fix_test_timeout. repeat emits_step.
    + unfold fix_flaky_test, add_package_to_requirements. repeat emits_step.
    + unfold fix_build_failure. repeat emits_step.
    + unfold rollback_deployment. repeat emits_step.
    + unfold increase_resources. repeat emits_step.
    + unfold add_retry_logic, add_package_to_requirements, count_heal_action.
      repeat emits_step. reflexivity.
Qed.

(** The retry strategy in a repository whose manifest lists [flask]. *)
Lemma strategies_stay_in_their_files_witness :
  let st := Monitor.initial_state
              {| listings := []; requirements := Some "flask"; logs := "" |} in
  Forall (allowed "network_timeout" (VStr "main"))
         (events (add_retry_logic github true true ∅ ∅) st) /\
  Forall (fun e => e = MetricHealAction) (events (add_retry_logic github false true ∅ ∅) st).
Proof.
  intros st. split.
  - refine (proj1 (strategies_stay_in_their_files github github_more true true
                     "network_timeout" (add_retry_logic github true true) ∅ ∅ st _)).
    do 6 apply list_elem_of_further. apply list_elem_of_here.
  - refine (proj2 (strategies_stay_in_their_files github github_more false true
                     "network_timeout" (add_retry_logic github false true) ∅ ∅ st _) eq_refl).
    do 6 apply list_elem_of_further. apply list_elem_of_here.
Defined.

(** ** What the strategies write *)

(** A text the pattern occurs nowhere in is left as it is. *)
Lemma sub_chars_no_match ic r repl s :
  search_chars ic r s = None -> sub_chars ic r repl 0 s = s.
Proof.
  induction s as [| c s IH]; cbn [search_chars sub_chars].
  - destruct (match_at ic r []); [discriminate | reflexivity].
  - destruct (match_at ic r (c :: s)); [discriminate |].
    intros H. now rewrite IH.
Qed.

Lemma sub_no_match ic r repl s : search ic r s = None -> sub ic r repl s = s.
Proof.
  unfold search, sub. intros H. rewrite sub_chars_no_match by exact H. apply str_chars.
Qed.

(** The helper writes at most once. *)
Lemma add_package_writes_once {W} (C : collaborators W) (repo_available : bool)
      (package : string) (branch : value) (st : state W) :
  (count is_write (events (add_package_to_requirements C repo_available package branch) st)
   <= 1)%nat.
Proof.
  unfold add_package_to_requirements.
  destruct repo_available; run_monad; repeat (case_step; run_monad).
  all: unfold count; simpl; lia.
Qed.

(** X11: [add_package_to_requirements] appends, once, what is absent.
    The helper never raises; it never creates a file; it writes at most
    once, and only after it has read a manifest in which the package
    does not occur, and then it writes that manifest, trimmed, with the
    package on a new line, under the sha it has read. *)
Theorem add_package_to_requirements_appends
        {W : Type} (C : collaborators W) (repo_available : bool)
        (package : string) (branch : value) (st : state W) :
  let m := add_package_to_requirements C repo_available package branch in
  (exists r, outcome m st = inr r) /\
  (count is_write (events m st) <= 1)%nat /\
  (forall e, e ∈ events m st -> is_write e = true ->
             repo_available = true /\
             exists f w,
               repo_get_contents C "requirements.txt" branch (world st) = (inr f, w) /\
               str_in package (decoded_content f) = false /\
               e = RepoUpdateFile "requirements.txt" ("[AUTO-HEAL] Add " +:+ package)
                                  (strip (decoded_content f) +:+ nl +:+ package +:+ nl)
                                  (sha f) branch).
Proof.
  intros m. subst m. unfold add_package_to_requirements.
  destruct repo_available; run_monad; repeat (case_step; run_monad).
  all: split; [eexists; reflexivity |]; split; [unfold count; simpl; lia |].
  all: intros ev Hev Hw; pick_event Hev; try discriminate Hw.
  all: split; [reflexivity |]; do 2 eexists; split; [reflexivity |].
  all: split; [now apply negb_true_iff | reflexivity].
Qed.

(** A manifest that lists [flask]: [requests] is appended. *)
Lemma add_package_to_requirements_appends_witness :
  let st := Monitor.initial_state
              {| listings := []; requirements := Some "flask"; logs := "" |} in
  exists f w,
    repo_get_contents github "requirements.txt" (VStr "main") (world st) = (inr f, w) /\
    str_in "requests" (decoded_content f) = false /\
    RepoUpdateFile "requirements.txt" "[AUTO-HEAL] Add requests"
                   ("flask" +:+ nl +:+ "requests" +:+ nl) "3b18e512" (VStr "main")
    = RepoUpdateFile "requirements.txt" ("[AUTO-HEAL] Add " +:+ "requests")
                     (strip (decoded_content f) +:+ nl +:+ "requests" +:+ nl)
                     (sha f) (VStr "main").
Proof.
  intros st.
  apply (proj2 (proj2 (add_package_to_requirements_appends
                         github true "requests" (VStr "main") st))
               (RepoUpdateFile "requirements.txt" "[AUTO-HEAL] Add requests"
                               ("flask" +:+ nl +:+ "requests" +:+ nl) "3b18e512" (VStr "main"))).
  - vm_compute. apply list_elem_of_further, list_elem_of_here.
  - reflexivity.
Defined.

(** ** Rollback *)

Lemma last_good_found workflows run :
  last_good workflows = Some run ->
  run ∈ workflows /\ run_conclusion run = VStr "success".
Proof.
  induction workflows as [| r workflows IH]; simpl; [discriminate |].
  destruct (Monitor.str_is (run_conclusion r) "success") eqn:Hr.
  - intros [= <-]. split; [apply list_elem_of_here |].
    unfold Monitor.str_is in Hr. destruct (run_conclusion r); try discriminate Hr.
    apply String.eqb_eq in Hr. now subst.
  - intros H. destruct (IH H). split; [now apply list_elem_of_further | assumption].
Qed.

Lemma last_good_none workflows :
  last_good workflows = None ->
  Forall (fun run => run_conclusion run <> VStr "success") workflows.
Proof.
  induction workflows as [| r workflows IH]; simpl; [constructor |].
  destruct (Monitor.str_is (run_conclusion r) "success") eqn:Hr; [discriminate |].
  intros H. constructor; [| auto].
  intros Heq. rewrite Heq in Hr. discriminate Hr.
Qed.

(** The first run of a listing that concluded with success is the one
    [last_good] finds. *)
Lemma last_good_first pre run post :
  Forall (fun r => run_conclusion r <> VStr "success") pre ->
  run_conclusion run = VStr "success" ->
  last_good (pre ++ run :: post) = Some run.
Proof.
  intros Hpre Hrun. induction Hpre as [| r pre Hr _ IH]; simpl.
  - now rewrite Hrun.
  - destruct (Monitor.str_is (run_conclusion r) "success") eqn:Hs; [| exact IH].
    exfalso. apply Hr. unfold Monitor.str_is in Hs.
    destruct (run_conclusion r); try discriminate Hs.
    apply String.eqb_eq in Hs. now subst.
Qed.

(** X12: the rollback only reads.  [rollback_deployment] never raises
    and makes no call that writes to the repository: its only events
    are counts of a healing action.  When the engine has a repository
    and the listing of runs holds a run that concluded with success, it
    reports success, names the first seven characters of the commit of
    the first such run, and counts one healing action when the metric
    is there.  It reports success in no other case: without repository,
    when the listing raises and when no run of the listing concluded
    with success, it reports a failure and counts nothing. *)
Theorem rollback_deployment_only_reads
        {W : Type} (C : collaborators W) (C' : more_collaborators W)
        (repo_available heal_metric_available : bool)
        (analysis workflow_run : dict) (st : state W) :
  let m := rollback_deployment C' repo_available heal_metric_available analysis workflow_run in
  let listing := repo_get_workflow_runs C' "push" "success" (world st) in
  Forall (fun e => e = MetricHealAction) (events m st) /\
  exists result,
    outcome m st = inr result /\
    (forall pre run post,
        repo_available = true ->
        listing.1 = inr (pre ++ run :: post) ->
        Forall (fun r => run_conclusion r <> VStr "success") pre ->
        run_conclusion run = VStr "success" ->
        result
        = <["success" := VBool true]>
          (<["details" := VStr ("Rolled back to commit " +:+ prefix_of 7 (run_head_sha run))]>
          (<["changes_made" :=
               VList ["deployment: reverted to " +:+ prefix_of 7 (run_head_sha run)]]> ∅)) /\
        events m st = if heal_metric_available then [MetricHealAction] else []) /\
    (result !! "success" = Some (VBool true) ->
     repo_available = true /\
     exists workflows run,
       listing.1 = inr workflows /\ run ∈ workflows /\ run_conclusion run = VStr "success") /\
    (result !! "success" <> Some (VBool true) ->
     result !! "success" = Some (VBool false) /\ events m st = []).
Proof.
  intros m listing. subst m listing. split.
  { from_any_state. unfold rollback_deployment, count_heal_action. repeat emits_step. reflexivity. }
  unfold rollback_deployment, count_heal_action.
  destruct repo_available; run_monad.
  2: { eexists. split; [reflexivity |]. split; [discriminate |].
       split; [discriminate |]. intros _. split; reflexivity. }
  destruct (repo_get_workflow_runs C' "push" "success" (world st)) as [[e | workflows] w] eqn:Hcall;
    simpl.
  { eexists. split; [reflexivity |]. split; [discriminate |].
    split; [discriminate |]. intros _. split; reflexivity. }
  destruct (last_good workflows) as [run |] eqn:Hgood; simpl.
  - destruct (last_good_found _ _ Hgood) as [Hin Hsuccess].
    destruct heal_metric_available; simpl; (eexists; split; [reflexivity |]).
    all: split; [intros pre run' post _ [= ->] Hpre Hrun';
                 rewrite (last_good_first pre run' post Hpre Hrun') in Hgood;
                 injection Hgood as ->; split; reflexivity |].
    all: split; [intros _; split; [reflexivity |]; now exists workflows, run |].
    all: intros Hnot; now destruct Hnot.
  - eexists. split; [reflexivity |].
    split; [intros pre run post _ [= ->] Hpre Hrun;
            rewrite (last_good_first pre run post Hpre Hrun) in Hgood; discriminate |].
    split; [discriminate |]. intros _. split; reflexivity.
Qed.

(** In the simulated repository the second run of the listing is the
    good one. *)
Lemma rollback_deployment_only_reads_witness :
  let m := rollback_deployment github_more true true ∅ ∅ in
  let st := Monitor.initial_state (listing_world []) in
  exists result,
    outcome m st = inr result /\
    result !! "success" = Some (VBool true) /\
    result !! "details" = Some (VStr "Rolled back to commit 9a8b7c6") /\
    events m st = [MetricHealAction].
Proof.
  intros m st.
  destruct (rollback_deployment_only_reads github github_more true true ∅ ∅ st)
    as [_ (result & Hout & Hsuccess & _)].
  destruct (Hsuccess [ {| run_conclusion := VStr "failure"; run_head_sha := "1f0c9d2e7ab3" |} ]
                     {| run_conclusion := VStr "success"; run_head_sha := "9a8b7c6d5e4f" |}
                     [] eq_refl eq_refl)
    as [Hresult Hevents].
  - repeat constructor. discriminate.
  - reflexivity.
  - exists result. split; [exact Hout |]. rewrite Hresult.
    split; [reflexivity |]. split; [reflexivity | exact Hevents].
Defined.

(** ** Failures the strategies swallow *)

Lemma add_package_returns {W} (C : collaborators W) repo_available package branch (st : state W) :
  exists r, outcome (add_package_to_requirements C repo_available package branch) st = inr r.
Proof.
  unfold add_package_to_requirements. apply try_catch_outcome.
  intros e st'. eexists. reflexivity.
Qed.

(** X13: the retry strategy reports success whatever happens.  For
    every behaviour of the repository, [add_retry_logic] returns its
    success dictionary: a manifest that cannot be read or updated does
    not change the answer.  It counts one healing action when the
    metric is there, and writes at most twice. *)
Theorem add_retry_logic_always_succeeds
        {W : Type} (C : collaborators W) (repo_available heal_metric_available : bool)
        (analysis workflow_run : dict) (st : state W) :
  let m := add_retry_logic C repo_available heal_metric_available analysis workflow_run in
  outcome m st
  = inr (<["success" := VBool true]>
         (<["details" := VStr "Added retry-capable HTTP libraries"]>
         (<["changes_made" := VList ["requirements.txt: +requests";
                                     "Suggested: Implement retry logic in code"]]> ∅))) /\
  count is_heal_metric (events m st) = (if heal_metric_available then 1 else 0)%nat /\
  (count is_write (events m st) <= 2)%nat.
Proof.
  intros m. subst m. unfold add_retry_logic, count_heal_action.
  set (branch := get_default workflow_run "head_branch" (VStr "main")).
  set (st1 := state_after (add_package_to_requirements C repo_available "requests" branch) st).
  destruct (add_package_returns C repo_available "requests" branch st) as [r1 H1].
  destruct (add_package_returns C repo_available "urllib3" branch st1) as [r2 H2].
  rewrite outcome_try_catch, events_try_catch, !outcome_bind, !events_bind.
  rewrite H1. fold st1. rewrite H2.
  pose proof (add_package_writes_once C repo_available "requests" branch st) as Hw1.
  pose proof (add_package_writes_once C repo_available "urllib3" branch st1) as Hw2.
  assert (Hnone : forall package s,
             count is_heal_metric
                   (events (add_package_to_requirements C repo_available package branch) s)
             = 0%nat).
  { intros package s. unfold count.
    assert (Hall : Forall (fun e => is_heal_metric e = false)
                     (events (add_package_to_requirements C repo_available package branch) s)).
    { from_any_state. unfold add_package_to_requirements. repeat emits_step; reflexivity. }
    induction Hall as [| e l He _ IH]; [reflexivity |]. simpl. now rewrite He. }
  destruct heal_metric_available; autorewrite with monad.
  all: split; [reflexivity |].
  all: unfold count in *; rewrite !List.filter_app, !length_app, !Hnone; simpl; lia.
Qed.

(** X14: the flaky-test strategy fails only on a failed creation.
    Without repository [fix_flaky_test] does nothing and reports
    success.  With a repository it reports success when it does not
    come to create [pytest.ini] and when the creation returns; it
    reports the error of the repository exactly when the creation
    raises.  The creation, when there is one, is the last call of the
    strategy.  A manifest that cannot be read or updated does not change
    the answer. *)
Theorem fix_flaky_test_outcome
        {W : Type} (C : collaborators W) (repo_available : bool)
        (analysis workflow_run : dict) (st : state W) :
  let m := fix_flaky_test C repo_available analysis workflow_run in
  let branch := get_default workflow_run "head_branch" (VStr "main") in
  let manifest := add_package_to_requirements C repo_available "pytest-rerunfailures" branch in
  let done :=
    <["success" := VBool true]>
    (<["details" := VStr "Added retry logic (3 retries) for flaky tests"]>
    (<["changes_made" := VList ["requirements.txt: +pytest-rerunfailures";
                                "pytest.ini: --reruns 3"]]> ∅)) in
  if repo_available then
    exists evs,
      events m st = events manifest st ++ RepoGetContents "pytest.ini" branch :: evs /\
      match reruns_creation C branch (world (state_after manifest st)) with
      | None =>
          outcome m st = inr done /\ reruns_created branch ∉ evs
      | Some (inr _) =>
          outcome m st = inr done /\
          exists evs', evs = evs' ++ [reruns_created branch]
      | Some (inl e) =>
          outcome m st = inr (<["success" := VBool false]>
                              (<["details" := VStr ("Error fixing flaky test: " +:+ e)]> ∅)) /\
          exists evs', evs = evs' ++ [reruns_created branch]
      end
  else
    outcome m st = inr done /\ events m st = [] /\ state_after m st = st.
Proof.
  intros m branch manifest done. subst m manifest done.
  unfold fix_flaky_test, reruns_creation, reruns_created. fold branch.
  destruct (add_package_returns C repo_available "pytest-rerunfailures" branch st) as [r Hr].
  set (manifest := add_package_to_requirements C repo_available "pytest-rerunfailures" branch)
    in *.
  destruct repo_available.
  2: { subst manifest. unfold add_package_to_requirements. run_monad.
       destruct st; repeat split. }
  rewrite outcome_try_catch, events_try_catch, !outcome_bind, !events_bind, Hr.
  set (st1 := state_after manifest st). rewrite !state_after_bind, Hr. fold st1.
  clearbody st1. clear Hr. generalize (events manifest st). intros before.
  run_monad.
  destruct (repo_get_contents C "pytest.ini" branch (world st1)) as [[e | f] w1]; simpl.
  - destruct (repo_create_file C "pytest.ini" _ _ branch w1) as [[e' | u] w2]; simpl.
    all: eexists; (split; [rewrite <- ?app_assoc; reflexivity |]).
    all: split; [reflexivity |]; now exists [].
  - destruct (str_in "--reruns" (decoded_content f)) eqn:Hreruns; simpl.
    + exists []. split; [now rewrite <- ?app_assoc |]. split; [reflexivity |].
      intros H. now apply elem_of_nil in H.
    + destruct (repo_update_file C "pytest.ini" _ _ (sha f) branch w1) as [[e | u] w2]; simpl.
      * destruct (repo_create_file C "pytest.ini" _ _ branch w2) as [[e' | u] w3]; simpl.
        all: eexists; (split; [rewrite <- ?app_assoc; reflexivity |]).
        all: split; [reflexivity |]; eexists; exact (eq_refl : [_; _] = [_] ++ [_]).
      * eexists. split; [rewrite <- ?app_assoc; reflexivity |]. split; [reflexivity |].
        intros H. apply elem_of_cons in H. destruct H as [H | H]; [discriminate H |].
        now apply elem_of_nil in H.
Qed.

(** ** Rewrites that change nothing *)

(** X15: what [fix_test_timeout] does to [pytest.ini].  With a
    repository, a file that cannot be read is created with the timeout
    section.  A file that is read is updated under the sha read: the
    section is appended when the text has no ["timeout"] in it, and the
    text is written back as it is when it mentions a timeout without a
    setting [timeout = N]; if the update raises, a creation of the file
    is attempted after it. *)
Theorem fix_test_timeout_trace
        {W : Type} (C : collaborators W) (analysis workflow_run : dict) (st : state W) :
  let branch := get_default workflow_run "head_branch" (VStr "main") in
  let m := fix_test_timeout C true analysis workflow_run in
  let message := "[AUTO-HEAL] Increase test timeout for "
                 +:+ format_value (get_default analysis "test_name" (VStr "unknown")) in
  let read := RepoGetContents "pytest.ini" branch in
  let create := RepoCreateFile "pytest.ini" "[AUTO-HEAL] Add pytest timeout configuration"
                               pytest_timeout_section branch in
  match repo_get_contents C "pytest.ini" branch (world st) with
  | (inl _, _) => events m st = [read; create]
  | (inr f, w) =>
      exists new_content,
        let update := RepoUpdateFile "pytest.ini" message new_content (sha f) branch in
        (str_in "timeout" (decoded_content f) = false ->
         new_content = decoded_content f +:+ nl +:+ pytest_timeout_section) /\
        (str_in "timeout" (decoded_content f) = true ->
         search false timeout_setting (decoded_content f) = None ->
         new_content = decoded_content f) /\
        match repo_update_file C "pytest.ini" message new_content (sha f) branch w with
        | (inr _, _) =>
            events m st = [read; update] /\
            exists result, outcome m st = inr result /\
                           result !! "success" = Some (VBool true)
        | (inl _, _) => events m st = [read; update; create]
        end
  end.
Proof.
  intros branch m message read create. subst m read create.
  unfold fix_test_timeout. fold branch. fold message. run_monad.
  destruct (repo_get_contents C "pytest.ini" branch (world st)) as [[e | f] w]; simpl.
  { destruct (repo_create_file C _ _ _ _ w) as [[? | ?] ?]; reflexivity. }
  exists (if str_in "timeout" (decoded_content f)
          then sub false timeout_setting "timeout = 300" (decoded_content f)
          else decoded_content f +:+ nl +:+ pytest_timeout_section).
  split; [| split].
  3: { destruct (repo_update_file C _ _ _ _ _ w) as [[e | []] w'] eqn:Hupdate; simpl.
       - destruct (repo_create_file C _ _ _ _ w') as [[? | ?] ?]; reflexivity.
       - split; [reflexivity |]. eexists. split; reflexivity. }
  - intros ->. reflexivity.
  - intros -> Hnone. now apply sub_no_match.
Qed.

(** A [pytest.ini] that only has a comment on timeouts is written back
    unchanged. *)
Lemma fix_test_timeout_trace_witness :
  let content := "[pytest]" +:+ nl +:+ "# no timeout yet" +:+ nl in
  let st := Monitor.initial_state
              {| listings := []; requirements := Some content; logs := "" |} in
  events (fix_test_timeout github true ∅ ∅) st
  = [ RepoGetContents "pytest.ini" (VStr "main");
      RepoUpdateFile "pytest.ini" "[AUTO-HEAL] Increase test timeout for unknown" content
                     "3b18e512" (VStr "main") ].
Proof.
  intros content st.
  pose proof (fix_test_timeout_trace github ∅ ∅ st) as H.
  cbv zeta in H.
  change (repo_get_contents github "pytest.ini" (get_default ∅ "head_branch" (VStr "main"))
                            (world st))
    with (inr {| decoded_content := content; sha := "3b18e512" |} : Py.result repo_file,
          world st) in H.
  cbv iota in H. destruct H as (new_content & _ & Hsame & Htrace).
  assert (Hnew : new_content = content).
  { apply Hsame; vm_compute; reflexivity. }
  subst new_content. exact (proj1 Htrace).
Defined.

(** X16: what [increase_resources] does to the workflow file.  With a
    repository, a workflow file that cannot be read leaves the
    repository alone and the failure is reported.  A file that is read
    is updated under the sha read, and success is reported exactly when
    the update returns; the text is written back as it is when no
    setting [timeout-minutes: N] occurs in it. *)
Theorem increase_resources_trace
        {W : Type} (C : collaborators W) (analysis workflow_run : dict) (st : state W) :
  let branch := get_default workflow_run "head_branch" (VStr "main") in
  let m := increase_resources C true analysis workflow_run in
  let read := RepoGetContents workflow_file branch in
  exists result,
    outcome m st = inr result /\
    match repo_get_contents C workflow_file branch (world st) with
    | (inl _, _) => events m st = [read] /\ result !! "success" = Some (VBool false)
    | (inr f, w) =>
        exists new_content,
          let message := "[AUTO-HEAL] Increase workflow timeout" in
          events m st = [read; RepoUpdateFile workflow_file message new_content (sha f) branch] /\
          (search false timeout_minutes (decoded_content f) = None ->
           new_content = decoded_content f) /\
          result !! "success"
          = Some (VBool match repo_update_file C workflow_file message new_content (sha f)
                                               branch w with
                        | (inr _, _) => true
                        | (inl _, _) => false
                        end)
    end.
Proof.
  intros branch m read. subst m read.
  unfold increase_resources. fold branch. run_monad.
  destruct (repo_get_contents C workflow_file branch (world st)) as [[e | f] w]; simpl.
  { eexists. split; [reflexivity |]. split; reflexivity. }
  set (new_content := if str_in "timeout-minutes" (decoded_content f)
                      then sub false timeout_minutes "timeout-minutes: 60" (decoded_content f)
                      else decoded_content f).
  destruct (repo_update_file C _ _ _ _ _ w) as [[e | []] w'] eqn:Hupdate; simpl.
  all: eexists; split; [reflexivity |]; exists new_content; split; [reflexivity |].
  all: rewrite Hupdate; split; [| reflexivity].
  all: intros Hnone; subst new_content; destruct (str_in "timeout-minutes" (decoded_content f));
    [now apply sub_no_match | reflexivity].
Qed.

(** A workflow file without a timeout is written back unchanged. *)
Lemma increase_resources_trace_witness :
  let content := "jobs:" +:+ nl +:+ "  build:" +:+ nl in
  let st := Monitor.initial_state
              {| listings := []; requirements := Some content; logs := "" |} in
  events (increase_resources github true ∅ ∅) st
  = [ RepoGetContents workflow_file (VStr "main");
      RepoUpdateFile workflow_file "[AUTO-HEAL] Increase workflow timeout" content
                     "3b18e512" (VStr "main") ].
Proof.
  intros content st.
  destruct (increase_resources_trace github ∅ ∅ st) as (result & _ & H).
  cbv zeta in H.
  change (repo_get_contents github workflow_file (get_default ∅ "head_branch" (VStr "main"))
                            (world st))
    with (inr {| decoded_content := content; sha := "3b18e512" |} : Py.result repo_file,
          world st) in H.
  cbv iota in H. destruct H as (new_content & Htrace & Hsame & _).
  assert (Hnew : new_content = content).
  { apply Hsame. vm_compute. reflexivity. }
  subst new_content. exact Htrace.
Defined.

End StrategyProperties.


(* ===================================================================== *)
(** * More properties of the predictor *)
(* ===================================================================== *)

Module RiskProperties.
Import Py Eff HealingEngine Predictor Monitor Spec PredictorSpec Sim.
Import EngineProperties.
Local Open Scope list_scope.

(** ** Comparisons with a positive literal *)

(** A float at or above a positive finite literal: it is plus infinity,
    or positive and finite with a larger exponent, or with the same
    exponent and a mantissa that is not smaller. *)
Lemma fge_literal p m e :
  fge p (S754_finite false m e) = true <->
  match p with
  | S754_infinity false => True
  | S754_finite false mp ep => e < ep \/ (e = ep /\ (m <= mp)%positive)
  | _ => False
  end.
Proof.
  unfold fge, SFleb, SFcompare.
  destruct p as [[] | [] | | [] mp ep]; try (split; [discriminate | contradiction]);
    try (split; [intros _; exact I | reflexivity]).
  destruct (Z.compare_spec e ep) as [-> | Hlt | Hgt].
  - rewrite Pos.compare_cont_spec. simpl.
    destruct (Pos.compare_spec m mp) as [-> | H | H].
    + split; [intros _; right; split; [reflexivity | lia] | reflexivity].
    + split; [intros _; right; split; [reflexivity | lia] | reflexivity].
    + split; [discriminate | intros [? | [_ ?]]; lia].
  - split; [intros _; now left | reflexivity].
  - split; [discriminate | intros [? | [? _]]; lia].
Qed.

Lemma fgt_literal p m e :
  fgt p (S754_finite false m e) = true <->
  match p with
  | S754_infinity false => True
  | S754_finite false mp ep => e < ep \/ (e = ep /\ (m < mp)%positive)
  | _ => False
  end.
Proof.
  unfold fgt, SFltb, SFcompare.
  destruct p as [[] | [] | | [] mp ep]; try (split; [discriminate | contradiction]);
    try (split; [intros _; exact I | reflexivity]).
  destruct (Z.compare_spec e ep) as [-> | Hlt | Hgt].
  - rewrite Pos.compare_cont_spec. simpl.
    destruct (Pos.compare_spec m mp) as [-> | H | H].
    + split; [discriminate | intros [? | [_ ?]]; lia].
    + split; [intros _; right; split; [reflexivity | lia] | reflexivity].
    + split; [discriminate | intros [? | [_ ?]]; lia].
  - split; [intros _; now left | reflexivity].
  - split; [discriminate | intros [? | [? _]]; lia].
Qed.

(** The order of floats carries a comparison with a literal upwards. *)
Lemma fge_literal_mono p q m e :
  fle p q = true -> fge p (S754_finite false m e) = true -> fge q (S754_finite false m e) = true.
Proof.
  intros Hpq Hp. apply fge_literal in Hp. apply fge_literal.
  unfold fle, SFleb, SFcompare in Hpq.
  destruct p as [[] | [] | | [] mp ep]; try contradiction;
    destruct q as [[] | [] | | [] mq eq]; try discriminate Hpq; try exact I.
  destruct (Z.compare_spec ep eq) as [-> | Hlt | Hgt]; [| lia | discriminate Hpq].
  rewrite Pos.compare_cont_spec in Hpq. simpl in Hpq.
  destruct (Pos.compare_spec mp mq) as [-> | H | H]; [lia | lia | discriminate Hpq].
Qed.

(** X17: the risk level follows the probability.  [_risk] is monotone:
    of two probabilities the larger one never gets the lower level. *)
Theorem _risk_monotone (p q : float) :
  fle p q = true -> (risk_rank (_risk p) <= risk_rank (_risk q))%nat.
Proof.
  intros Hpq.
  pose proof (fge_literal_mono p q _ _ Hpq : fge p f_0_8 = true -> fge q f_0_8 = true) as H8.
  pose proof (fge_literal_mono p q _ _ Hpq : fge p f_0_6 = true -> fge q f_0_6 = true) as H6.
  pose proof (fge_literal_mono p q _ _ Hpq : fge p f_0_4 = true -> fge q f_0_4 = true) as H4.
  pose proof (fge_literal_mono p q _ _ Hpq : fge p f_0_2 = true -> fge q f_0_2 = true) as H2.
  unfold _risk.
  destruct (fge p f_0_8); [rewrite (H8 eq_refl); vm_compute; lia |].
  destruct (fge p f_0_6);
    [rewrite (H6 eq_refl); destruct (fge q f_0_8); vm_compute; lia |].
  destruct (fge p f_0_4);
    [rewrite (H4 eq_refl); destruct (fge q f_0_8), (fge q f_0_6); vm_compute; lia |].
  destruct (fge p f_0_2);
    [rewrite (H2 eq_refl); destruct (fge q f_0_8), (fge q f_0_6), (fge q f_0_4);
     vm_compute; lia |].
  vm_compute. lia.
Qed.

(** Probabilities 0.3 and 0.7: low and high. *)
Lemma _risk_monotone_witness :
  fle f_0_3 f_0_7 = true /\ (risk_rank (_risk f_0_3) <= risk_rank (_risk f_0_7))%nat.
Proof.
  split; [reflexivity |]. apply (_risk_monotone f_0_3 f_0_7). reflexivity.
Defined.

(** ** The fields of a prediction *)

Lemma predict_failure_fields p run will_fail confidence risk factors :
  predict_failure p run = inr (Pred will_fail confidence risk factors) ->
  will_fail = fgt confidence f_0_5 /\ risk = _risk confidence /\
  exists features, _extract_features p run = inr features /\ _factors features = inr factors.
Proof.
  unfold predict_failure, failure_prediction.
  destruct (is_model_loaded p); simpl; [| discriminate].
  destruct (_extract_features p run) as [e | features]; simpl; [discriminate |].
  destruct (transform p features) as [e | scaled]; simpl; [discriminate |].
  destruct (predict_proba (failure_model p) scaled) as [e | prob]; simpl; [discriminate |].
  destruct (_factors features) as [e | fs] eqn:Hfs; simpl; [discriminate |].
  intros [= <- <- <- <-]. repeat split. now exists features.
Qed.

Lemma _factors_shape features factors :
  _factors features = inr factors ->
  factors <> [] /\ (length factors <= 4)%nat /\
  ("No major risk factors" ∈ factors -> factors = ["No major risk factors"]).
Proof.
  unfold _factors, rbind.
  destruct (feature_gt features 6 2) as [? | c6]; [discriminate |].
  destruct (feature_gt features 7 0) as [? | c7]; [discriminate |].
  destruct (feature_gt features 3 300) as [? | c3]; [discriminate |].
  destruct (feature_lt features 9 70) as [? | c9]; [discriminate |].
  intros [= <-].
  destruct c6, c7, c3, c9; simpl; (split; [discriminate |]); (split; [lia |]).
  all: try reflexivity.
  all: intros H; exfalso;
    repeat (apply elem_of_cons in H; destruct H as [H | H]; [discriminate H |]);
    now apply elem_of_nil in H.
Qed.

Lemma above_half_is_medium confidence :
  fgt confidence f_0_5 = true -> fge confidence f_0_4 = true.
Proof.
  unfold f_0_5, f_0_4. intros H. apply fgt_literal in H. apply fge_literal.
  destruct confidence as [[] | [] | | [] m e]; try contradiction; [exact I |]. lia.
Qed.

(** X18: a prediction is coherent.  In every prediction returned by
    [predict_failure] the risk level is the level of the confidence; a
    run predicted to fail has a level of medium or more; and the list of
    factors is never empty, has at most four entries, and says that
    there are no major risk factors only when it says nothing else. *)
Theorem prediction_is_coherent
        (p : FailurePredictor) (run : dict)
        (will_fail : bool) (confidence : float) (risk : string) (factors : list string) :
  predict_failure p run = inr (Pred will_fail confidence risk factors) ->
  risk = _risk confidence /\
  (will_fail = true -> (2 <= risk_rank risk)%nat) /\
  factors <> [] /\ (length factors <= 4)%nat /\
  ("No major risk factors" ∈ factors -> factors = ["No major risk factors"]).
Proof.
  intros H. apply predict_failure_fields in H.
  destruct H as (-> & -> & features & _ & Hfactors).
  split; [reflexivity |]. split; [| now apply _factors_shape in Hfactors].
  intros Hfail. apply above_half_is_medium in Hfail. unfold _risk.
  destruct (fge confidence f_0_8); [vm_compute; lia |].
  destruct (fge confidence f_0_6); [vm_compute; lia |].
  rewrite Hfail. vm_compute. lia.
Qed.

(** A run that GitHub dated, with three earlier failures and a change
    of dependencies, and a model that answers 0.701 behind a scaler
    fitted on twelve features: the program returns a prediction, and
    the prediction is as the theorem says. *)
Lemma prediction_is_coherent_witness :
  let run : dict :=
    <["previous_failures" := VInt 3]> (<["dependency_changes" := VInt 1]> dated_run) in
  predict_failure (trained_predictor f_0_701) run
  = inr (Pred true f_0_701 "high" ["High recent failure rate"; "Dependency changes"]) /\
  "high" = _risk f_0_701 /\
  (2 <= risk_rank "high")%nat /\
  "No major risk factors" ∉ ["High recent failure rate"; "Dependency changes"].
Proof.
  intros run.
  assert (H : predict_failure (trained_predictor f_0_701) run
              = inr (Pred true f_0_701 "high"
                          ["High recent failure rate"; "Dependency changes"])).
  { vm_compute. reflexivity. }
  split; [exact H |].
  apply prediction_is_coherent in H. destruct H as (Hrisk & Hrank & _ & _ & Hnone).
  split; [exact Hrisk |]. split; [exact (Hrank eq_refl) |].
  intros Hin. discriminate (Hnone Hin).
Defined.

(** ** A scaler fitted on the features of a run *)

Lemma _healing_features_length f features :
  _healing_features f = inr features -> length features = 5%nat.
Proof.
  unfold _healing_features.
  destruct (get_default f "stack_trace" (VStr "")); try discriminate.
  all: destruct (get f "severity"); try discriminate; now intros [= <-].
Qed.

Lemma _extract_features_length p run features :
  _extract_features p run = inr features -> length features = 12%nat.
Proof.
  unfold _extract_features.
  destruct (get_default run "created_at" _); try discriminate.
  destruct (clock p s) as [e | [[hour weekday] age_days]]; [discriminate |].
  now intros [= <-].
Qed.

Lemma predict_healing_success_stuck p :
  expects 12 p -> forall analysis, predict_healing_success p analysis = inr f_0_5.
Proof.
  intros Hscaler analysis. unfold predict_healing_success, healing_score.
  destruct (healing_model p); [| reflexivity]. unfold rbind.
  destruct (_healing_features analysis) as [e | features] eqn:Hf; [reflexivity |].
  apply _healing_features_length in Hf.
  destruct (Hscaler features) as [e ->]; [lia | reflexivity].
Qed.

Section Stuck.
Context {W : Type}.
Variable C : collaborators W.
Variable P : FailurePredictor.
Variable repo_available heal_metric_available : bool.
Variable set_pop : gset value -> value.
Hypothesis scaler_of_training : expects 12 P.

Lemma emits_only_lift_bind {A B} (Q : event -> Prop) (r : result A) (k : A -> M W B) :
  (forall a, r = inr a -> emits_only Q (k a)) -> emits_only Q (bind (lift r) k).
Proof.
  intros Hk st. rewrite events_bind, events_lift, outcome_lift, state_after_lift.
  destruct r as [e | a]; [constructor | now apply Hk].
Qed.

Lemma emits_only_for_each {A} (Q : event -> Prop) (l : list A) (body : A -> M W unit) :
  (forall x, emits_only Q (body x)) -> emits_only Q (for_each l body).
Proof.
  intros Hb. induction l as [| x l IH]; simpl.
  - apply emits_only_ret.
  - apply emits_only_bind; [apply Hb | intros _; exact IH].
Qed.

Lemma handle_pipeline_failure_quiet run_id workflow_run :
  emits_only (fun e => is_heal_call e = false)
             (handle_pipeline_failure C P repo_available heal_metric_available
                                      run_id workflow_run).
Proof.
  unfold handle_pipeline_failure.
  apply emits_only_try_catch; [| intros ?; emits_step].
  apply emits_only_bind; [emits_step | intros logs].
  do 3 (apply emits_only_bind; [repeat emits_step; reflexivity | intros _]).
  apply emits_only_lift_bind. intros prob Hprob.
  rewrite (predict_healing_success_stuck P scaler_of_training) in Hprob.
  injection Hprob as <-.
  change (confident f_0_5) with false. cbv iota.
  repeat emits_step; reflexivity.
Qed.

Lemma handle_failed_run_quiet run_id run :
  emits_only (fun e => is_heal_call e = false)
             (handle_failed_run C P repo_available heal_metric_available run_id run).
Proof.
  unfold handle_failed_run.
  apply emits_only_bind; [unfold fetch_logs_text; repeat emits_step | intros logs_text].
  apply emits_only_bind; [repeat emits_step; reflexivity | intros _].
  rewrite (predict_healing_success_stuck P scaler_of_training).
  intros st. rewrite events_bind, events_try_catch, outcome_try_catch.
  autorewrite with monad. cbn [app].
  change (confident_safe f_0_5) with false. cbv iota.
  autorewrite with monad. repeat constructor.
Qed.

Lemma process_run_quiet run_id run :
  emits_only (fun e => is_heal_call e = false)
             (process_run C P repo_available heal_metric_available run_id run).
Proof.
  unfold process_run, predict_and_record.
  repeat first [apply handle_failed_run_quiet | emits_step]; reflexivity.
Qed.

(** X19: with the scaler of the training script no run is ever healed.
    The training script fits the scaler on the twelve features of a
    run, and [_healing_features] builds five.  With a scaler that
    rejects a vector of another length than twelve, the healing
    probability is 0.5 for every analysis, and neither the failure
    handler nor one of the two monitors ever calls [heal]. *)
Theorem healing_is_never_attempted :
  (forall analysis, predict_healing_success P analysis = inr f_0_5) /\
  (forall run_id workflow_run (st : state W),
      Forall (fun e => is_heal_call e = false)
             (events (handle_pipeline_failure C P repo_available heal_metric_available
                                              run_id workflow_run) st)) /\
  (forall cycles (st : state W),
      Forall (fun e => is_heal_call e = false)
             (events (monitor_pipelines C P repo_available heal_metric_available cycles) st) /\
      Forall (fun e => is_heal_call e = false)
             (events (run_safe_monitor C P repo_available heal_metric_available set_pop cycles)
                     st)).
Proof.
  split; [apply predict_healing_success_stuck, scaler_of_training |].
  split; [intros run_id workflow_run; apply handle_pipeline_failure_quiet |].
  intros cycles. split; revert st.
  - change (emits_only (fun e => is_heal_call e = false)
              (monitor_pipelines C P repo_available heal_metric_available cycles)).
    induction cycles as [| n IH]; simpl; [emits_step |].
    apply emits_only_bind; [| intros _; exact IH].
    unfold monitor_pipelines_cycle.
    apply emits_only_try_catch; [| intros ?; emits_step].
    apply emits_only_bind; [repeat emits_step | intros runs_data].
    apply emits_only_for_each. intros e. unfold monitor_pipelines_run.
    repeat first [apply process_run_quiet | emits_step | intros ?; constructor].
  - change (emits_only (fun e => is_heal_call e = false)
              (run_safe_monitor C P repo_available heal_metric_available set_pop cycles)).
    induction cycles as [| n IH]; simpl; [emits_step |].
    apply emits_only_bind; [| intros _; exact IH].
    unfold run_safe_monitor_cycle.
    apply emits_only_try_catch; [| intros ?; emits_step].
    apply emits_only_bind; [repeat emits_step | intros raw].
    destruct raw as [| [| | runs]]; try emits_step.
    apply emits_only_for_each. intros e. unfold run_safe_monitor_run.
    repeat first [apply process_run_quiet | emits_step | intros ?; constructor].
Qed.

End Stuck.

Lemma trained_predictor_expects prob : expects 12 (trained_predictor prob).
Proof.
  intros features Hlen. unfold transform. simpl.
  destruct (Nat.eqb_spec (length features) 12); [contradiction | eauto].
Qed.

(** A healing model that answers 0.8, behind the scaler of the training
    script: a failed run with a missing dependency is not healed. *)
Lemma healing_is_never_attempted_witness :
  predict_healing_success (trained_predictor f_0_8)
    (analyze_failure "ModuleNotFoundError: No module named 'numpy'") = inr f_0_5 /\
  Forall (fun e => is_heal_call e = false)
         (events (run_safe_monitor github (trained_predictor f_0_8) true true pop_lowest_slot 1)
                 (initial_state {| listings := [[run_entry 7 (VStr "failure")]];
                                   requirements := Some "flask";
                                   logs := "ModuleNotFoundError: No module named 'numpy'" |})).
Proof.
  pose proof (healing_is_never_attempted github (trained_predictor f_0_8) true true
                pop_lowest_slot (trained_predictor_expects f_0_8)) as (Hprob & _ & Hloops).
  split; [apply Hprob | apply Hloops].
Defined.

End RiskProperties.


(* ===================================================================== *)
(** * Properties of the webhook, of the failure handler and of the loops *)
(* ===================================================================== *)

Module HandlerProperties.
Import Py Eff HealingEngine Predictor Monitor Spec Webhook Sim.
Import EngineProperties MonitorProperties.
Local Open Scope list_scope.

Section Handler.
Context {W : Type}.
Variable C : collaborators W.
Variable P : FailurePredictor.
Variable repo_available heal_metric_available : bool.
Variable set_pop : gset value -> value.

Lemma heal_opening run_id failure_analysis workflow_run :
  emits_only opening
             (heal C repo_available heal_metric_available run_id failure_analysis workflow_run).
Proof.
  unfold heal, strategy, fix_build_failure, fix_missing_dependency.
  repeat emits_step; repeat split.
Qed.

(** X20: how a failure pass closes.  [handle_pipeline_failure] never
    raises.  Its events are events that close nothing, followed by one
    of: nothing, when a call raised before the decision; a notification
    of the developers, when healing was not tried; the record of a
    healing action, followed by a rerun of the workflow when the action
    is recorded as successful and by a notification when it is not (or
    by nothing, when storing the record raised).  So a rerun is only
    requested right after a successful healing action, and a pass never
    both reruns and notifies. *)
Theorem handle_pipeline_failure_closes (run_id : value) (workflow_run : dict) (st : state W) :
  let m := handle_pipeline_failure C P repo_available heal_metric_available
                                   run_id workflow_run in
  outcome m st = inr tt /\
  exists before after,
    events m st = before ++ after /\ Forall opening before /\ closing run_id after.
Proof.
  intros m. subst m. unfold handle_pipeline_failure. split.
  { rewrite outcome_try_catch. destruct (outcome _ st) as [e | []]; reflexivity. }
  rewrite events_swallow, events_bind, events_call. simpl app.
  destruct (outcome (call (fetch_workflow_logs C run_id)) st) as [e | logs].
  { exists [], []. split; [reflexivity |]. split; [constructor | now left]. }
  set (st1 := state_after _ st). clearbody st1.
  destruct (predict_healing_success_returns P (analyze_failure logs)) as [prob Hprob].
  set (analysis := analyze_failure logs) in *.
  rewrite !events_bind, !events_emit, !outcome_emit, !state_after_emit.
  rewrite events_call. simpl app.
  destruct (outcome (call (create_failure_log C _ _ _ _)) st1) as [e | []].
  { eexists. exists []. split; [now rewrite app_nil_r |].
    split; [repeat constructor | now left]. }
  set (st2 := state_after _ st1). clearbody st2.
  rewrite outcome_lift, state_after_lift, Hprob.
  autorewrite with monad.
  destruct (confident prob).
  2: { autorewrite with monad.
       exists [Analyzed run_id analysis;
               DbFailureLog run_id (get_default analysis "error_type" (VStr "unknown"))
                            (get_default analysis "error_message" (VStr ""))
                            (get_default analysis "stack_trace" (VStr ""));
               Probability run_id prob], [Notification run_id].
       split; [reflexivity |]. split; [repeat constructor | right; now left]. }
  autorewrite with monad.
  assert (Hhashable : forall l,
             get_default analysis "error_type" (VStr "unknown") <> VList l).
  { destruct (AnalysisProperties.analyze_failure_type logs) as (c & Hc & _).
    fold analysis in Hc. unfold category, get in Hc. unfold get_default.
    destruct (analysis !! "error_type"); [subst; discriminate | discriminate]. }
  destruct (heal_returns C repo_available heal_metric_available run_id analysis workflow_run st2
                         Hhashable)
    as [healing_result Hheal].
  unfold engine_heal. rewrite Hheal.
  set (st3 := state_after _ st2). clearbody st3.
  set (healed := events (heal C repo_available heal_metric_available run_id analysis
                              workflow_run) st2).
  assert (Hhealed : Forall opening healed) by apply heal_opening.
  clearbody healed.
  set (record := DbHealingAction run_id
                   (get_default healing_result "action_type" (VStr "unknown"))
                   (get_default healing_result "success" (VBool false))
                   (get_default healing_result "details" VNone)).
  exists ([Analyzed run_id analysis;
           DbFailureLog run_id (get_default analysis "error_type" (VStr "unknown"))
                        (get_default analysis "error_message" (VStr ""))
                        (get_default analysis "stack_trace" (VStr ""));
           Probability run_id prob; HealCalled run_id analysis] ++ healed).
  assert (Hbefore : Forall opening
                      ([Analyzed run_id analysis;
                        DbFailureLog run_id
                          (get_default analysis "error_type" (VStr "unknown"))
                          (get_default analysis "error_message" (VStr ""))
                          (get_default analysis "stack_trace" (VStr ""));
                        Probability run_id prob; HealCalled run_id analysis] ++ healed)).
  { apply Forall_app. split; [repeat constructor | exact Hhealed]. }
  assert (Hsuccess : truthy (get healing_result "success")
                     = truthy (get_default healing_result "success" (VBool false))).
  { unfold get, get_default. now destruct (healing_result !! "success"). }
  match goal with
  | |- context [events ?tail st3] => assert (Htail : closing run_id (events tail st3))
  end.
  { rewrite events_bind, events_emit, outcome_emit, state_after_emit, events_bind, events_call.
    fold record. simpl app.
    right. right.
    exists (get_default healing_result "action_type" (VStr "unknown")),
           (get_default healing_result "success" (VBool false)),
           (get_default healing_result "details" VNone).
    fold record. cbv zeta.
    destruct (outcome (call (create_healing_action C _ _ _ _)) st3) as [e | []];
      [now left |].
    rewrite <- Hsuccess.
    destruct (truthy (get healing_result "success")).
    - right. left. split; [reflexivity |].
      autorewrite with monad. simpl.
      destruct (outcome (call (rerun_workflow C run_id)) _); reflexivity.
    - right. right. split; reflexivity. }
  eexists. split; [| split; [exact Hbefore | exact Htail]].
  rewrite <- app_assoc. reflexivity.
Qed.

(** X21: the monitors survive.  For every number of polling cycles,
    every behaviour of GitHub, of the predictor and of the repository,
    and every listing, malformed or not, the two monitor loops end each
    cycle without raising. *)
Theorem monitors_never_raise (cycles : nat) (st : state W) :
  outcome (monitor_pipelines C P repo_available heal_metric_available cycles) st = inr tt /\
  outcome (run_safe_monitor C P repo_available heal_metric_available set_pop cycles) st
  = inr tt.
Proof.
  split; revert st; induction cycles as [| n IH]; intros st; simpl; try reflexivity.
  - rewrite outcome_bind. unfold monitor_pipelines_cycle at 1.
    rewrite outcome_try_catch.
    destruct (outcome _ st) as [e | []]; autorewrite with monad; apply IH.
  - rewrite outcome_bind. unfold run_safe_monitor_cycle at 1.
    rewrite outcome_try_catch.
    destruct (outcome _ st) as [e | []]; autorewrite with monad; apply IH.
Qed.

End Handler.

(** X22: what the webhook does with an event.  An event whose action is
    neither completed nor failed is ignored: nothing is stored, counted
    or scheduled.  An event with one of the two actions is stored, when
    it has the keys the endpoint reads; it is then counted as a run,
    and as a success when it concluded so, and the request is answered
    with the run id of the event; a failure handler is scheduled
    exactly when the run concluded with failure, for the run id read
    from the stored record and for the run of the event.  The request
    is answered with status 500 when a key is missing or the database
    raises, and it has then counted nothing; and when the run concluded
    with failure and the run id of the stored record cannot be read:
    the run is then stored and counted before the request fails. *)
Theorem github_webhook_schedules
        {W : Type}
        (create_pipeline_run :
           value -> value -> value -> value -> value -> value -> W -> result (result value) * W)
        (action : string) (workflow_run repository : dict) (st : state W) :
  let m := github_webhook create_pipeline_run action workflow_run repository in
  let conclusion := get workflow_run "conclusion" in
  let counted := MetricRuns :: (if str_is conclusion "success" then [MetricSuccess] else []) in
  (action ∉ ["completed"; "failed"] ->
   outcome m st = inr (Ignored action, []) /\ events m st = [] /\ state_after m st = st) /\
  (action ∈ ["completed"; "failed"] ->
   match workflow_run !! "id", repository !! "full_name",
         workflow_run !! "status", workflow_run !! "created_at" with
   | Some run_id, Some repo, Some status, Some started_at =>
       match create_pipeline_run run_id repo status conclusion started_at
                                 (get workflow_run "updated_at") (world st)
       with
       | (inl e, w) =>
           outcome m st = inl (http_500 e) /\ events m st = [] /\
           world (state_after m st) = w
       | (inr pipeline_run, w) =>
           events m st = counted /\ world (state_after m st) = w /\
           outcome m st
           = if str_is conclusion "failure" then
               match pipeline_run with
               | inr stored_run_id =>
                   inr (Received run_id,
                        [ {| task_run_id := stored_run_id; task_workflow_run := workflow_run |} ])
               | inl e => inl (http_500 e)
               end
             else inr (Received run_id, [])
       end
   | _, _, _, _ =>
       (exists key, outcome m st = inl (http_500 ("KeyError: '" +:+ key +:+ "'"))) /\
       events m st = [] /\ state_after m st = st
   end).
Proof.
  intros m conclusion counted. subst m conclusion counted. unfold github_webhook, subscript.
  destruct (bool_decide_reflect (action ∈ ["completed"; "failed"])) as [Hin | Hnot].
  2: { split; [| intros Hin; contradiction]. intros _. run_monad. destruct st; repeat split. }
  split; [intros Hnot; contradiction |]. intros _. run_monad.
  destruct (workflow_run !! "id") as [run_id |] eqn:Hid; simpl.
  2: { destruct (repository !! "full_name"), (workflow_run !! "status"),
         (workflow_run !! "created_at"); (split; [eexists; reflexivity |]); now destruct st. }
  destruct (repository !! "full_name") as [repo |]; simpl.
  2: { destruct (workflow_run !! "status"), (workflow_run !! "created_at");
         (split; [eexists; reflexivity |]); now destruct st. }
  destruct (workflow_run !! "status") as [status |]; simpl.
  2: { destruct (workflow_run !! "created_at");
         (split; [eexists; reflexivity |]); now destruct st. }
  destruct (workflow_run !! "created_at") as [started_at |]; simpl.
  2: { split; [eexists; reflexivity |]. now destruct st. }
  destruct (create_pipeline_run run_id repo status _ started_at _ (world st))
    as [[e | pipeline_run] w] eqn:Hcreate; simpl; [repeat split |].
  destruct (str_is (get workflow_run "conclusion") "success") eqn:Hsuccess;
    destruct (str_is (get workflow_run "conclusion") "failure") eqn:Hfailure; simpl.
  - exfalso. unfold str_is in *. destruct (get workflow_run "conclusion"); try discriminate.
    apply String.eqb_eq in Hsuccess, Hfailure. congruence.
  - repeat split.
  - destruct pipeline_run as [detail | stored_run_id]; simpl; repeat split.
  - repeat split.
Qed.

End HandlerProperties.


(* ===================================================================== *)
(** * Properties of the GitHub monitor *)
(* ===================================================================== *)

Module GitHubMonitorProperties.
Import Py Eff Monitor GitHubMonitor.
Import EngineProperties.
Local Open Scope list_scope.

Lemma str_is_one v a b : a <> b -> str_is v a = true -> str_is v b = false.
Proof.
  unfold str_is. destruct v; try discriminate. intros Hne Ha.
  apply String.eqb_eq in Ha. subst. now apply String.eqb_neq.
Qed.

(** What the loop over the steps of a job adds to the counters. *)
Lemma count_steps job_name steps : forall results,
  let counted := fold_left (count_step job_name) steps results in
  passed counted = passed results + Z.of_nat (length (List.filter (test_step "success") steps)) /\
  failed counted = failed results + Z.of_nat (length (List.filter (test_step "failure") steps)) /\
  skipped counted = skipped results + Z.of_nat (length (List.filter (test_step "skipped") steps)) /\
  failed_tests counted
  = failed_tests results
    ++ map (fun s => (step_name s, job_name)) (List.filter (test_step "failure") steps) /\
  flaky_tests counted = flaky_tests results /\
  total_tests counted = total_tests results.
Proof.
  induction steps as [| s steps IH]; intros results; cbn [fold_left List.filter].
  - cbn. rewrite app_nil_r. repeat split; lia.
  - specialize (IH (count_step job_name results s)). cbv zeta in IH.
    destruct IH as (Hp & Hf & Hs & Hft & Hfl & Ht).
    cbv zeta. rewrite Hp, Hf, Hs, Hft, Hfl, Ht. clear Hp Hf Hs Hft Hfl Ht.
    unfold count_step, test_step.
    destruct (str_in "test" (lower (step_name s))); cbn [andb];
      [| repeat split; reflexivity].
    destruct (str_is (step_conclusion s) "success") eqn:Hsuccess.
    { rewrite (str_is_one _ "success" "failure"), (str_is_one _ "success" "skipped")
        by (assumption || discriminate).
      cbn [passed failed skipped failed_tests flaky_tests total_tests length].
      repeat split; lia. }
    destruct (str_is (step_conclusion s) "failure") eqn:Hfailure.
    { rewrite (str_is_one _ "failure" "skipped") by (assumption || discriminate).
      cbn [passed failed skipped failed_tests flaky_tests total_tests length map].
      rewrite <- app_assoc. repeat split; lia. }
    destruct (str_is (step_conclusion s) "skipped");
      cbn [passed failed skipped failed_tests flaky_tests total_tests length];
      repeat split; lia.
Qed.

Lemma filter_steps_of_job (f : step -> bool) (j : job) :
  List.filter (fun x : string * step => f x.2) (map (fun s => (job_name j, s)) (job_steps j))
  = map (fun s => (job_name j, s)) (List.filter f (job_steps j)).
Proof.
  induction (job_steps j) as [| s steps IH]; simpl; [reflexivity |].
  destruct (f s); simpl; now rewrite IH.
Qed.

Lemma how_many_cons f j jobs :
  how_many f (j :: jobs) = Z.of_nat (length (List.filter f (job_steps j))) + how_many f jobs.
Proof.
  unfold how_many, all_steps. cbn [flat_map].
  rewrite List.filter_app, length_app, filter_steps_of_job, length_map. lia.
Qed.

(** What the loop over the jobs adds to the counters. *)
Lemma count_jobs jobs : forall results,
  let counted := fold_left count_job jobs results in
  passed counted = passed results + how_many (test_step "success") jobs /\
  failed counted = failed results + how_many (test_step "failure") jobs /\
  skipped counted = skipped results + how_many (test_step "skipped") jobs /\
  failed_tests counted
  = failed_tests results
    ++ map (fun x : string * step => (step_name x.2, x.1))
           (List.filter (fun x : string * step => test_step "failure" x.2) (all_steps jobs)) /\
  flaky_tests counted = flaky_tests results /\
  (total_tests results = passed results + failed results + skipped results ->
   total_tests counted = passed counted + failed counted + skipped counted).
Proof.
  induction jobs as [| j jobs IH]; intros results; cbn [fold_left].
  - unfold how_many. cbn. rewrite app_nil_r. repeat split; try lia; auto.
  - specialize (IH (count_job results j)). cbv zeta in IH.
    destruct IH as (Hp & Hf & Hs & Hft & Hfl & Ht).
    destruct (count_steps (job_name j) (job_steps j) results) as (Sp & Sf & Ss & Sft & Sfl & _).
    cbv zeta in Sp, Sf, Ss, Sft, Sfl.
    assert (Cp : passed (count_job results j)
                 = passed results
                   + Z.of_nat (length (List.filter (test_step "success") (job_steps j))))
      by exact Sp.
    assert (Cf : failed (count_job results j)
                 = failed results
                   + Z.of_nat (length (List.filter (test_step "failure") (job_steps j))))
      by exact Sf.
    assert (Cs : skipped (count_job results j)
                 = skipped results
                   + Z.of_nat (length (List.filter (test_step "skipped") (job_steps j))))
      by exact Ss.
    assert (Cft : failed_tests (count_job results j)
                  = failed_tests results
                    ++ map (fun s => (step_name s, job_name j))
                           (List.filter (test_step "failure") (job_steps j)))
      by exact Sft.
    assert (Cfl : flaky_tests (count_job results j) = flaky_tests results) by exact Sfl.
    assert (Ct : total_tests (count_job results j)
                 = passed (count_job results j) + failed (count_job results j)
                   + skipped (count_job results j)) by reflexivity.
    cbv zeta.
    split; [rewrite Hp, Cp, how_many_cons; lia |].
    split; [rewrite Hf, Cf, how_many_cons; lia |].
    split; [rewrite Hs, Cs, how_many_cons; lia |].
    split.
    { rewrite Hft, Cft. unfold all_steps. cbn [flat_map].
      rewrite List.filter_app, map_app, filter_steps_of_job, map_map. cbn [fst snd].
      now rewrite <- app_assoc. }
    split; [now rewrite Hfl, Cfl |].
    intros _. apply Ht, Ct.
Qed.

(** X23: the counters of [analyze_test_results] add up.  The method
    never raises and answers the empty dictionary when GitHub fails.
    Otherwise [passed], [failed] and [skipped] count the steps, over all
    jobs, whose name contains "test" (in any case) and whose conclusion
    is success, failure and skipped; [total_tests] is their sum;
    [failed_tests] lists the failing ones in order, with their job, so it
    has [failed] entries; and [flaky_tests] is always empty. *)
Theorem analyze_test_results_counts
        {W : Type} (G : github_api W) (run_id : value) (st : state W) :
  let m := analyze_test_results G run_id in
  events m st = [] /\
  match get_jobs G run_id (world st) with
  | (inl _, _) => outcome m st = inr None
  | (inr jobs, _) =>
      exists t,
        outcome m st = inr (Some t) /\
        passed t = how_many (test_step "success") jobs /\
        failed t = how_many (test_step "failure") jobs /\
        skipped t = how_many (test_step "skipped") jobs /\
        total_tests t = passed t + failed t + skipped t /\
        failed_tests t
        = map (fun x : string * step => (step_name x.2, x.1))
              (List.filter (fun x : string * step => test_step "failure" x.2) (all_steps jobs)) /\
        Z.of_nat (length (failed_tests t)) = failed t /\
        flaky_tests t = []
  end.
Proof.
  intros m. subst m. unfold analyze_test_results. run_monad.
  destruct (get_jobs G run_id (world st)) as [[e | jobs] w]; simpl; [split; reflexivity |].
  split; [reflexivity |]. eexists. split; [reflexivity |].
  destruct (count_jobs jobs no_results) as (Hp & Hf & Hs & Hft & Hfl & Ht).
  cbv zeta in *. rewrite Hp, Hf, Hs, Hft, Hfl in *. cbn [passed failed skipped no_results] in *.
  split; [lia |]. split; [lia |]. split; [lia |].
  split; [rewrite Ht by reflexivity; lia |].
  split; [reflexivity |]. split; [| reflexivity].
  cbn [failed_tests no_results app]. rewrite length_map. unfold how_many. lia.
Qed.

(** What the loop of [get_recent_failures] keeps. *)
Lemma first_failures_take workflows : forall i limit failures,
  first_failures i limit workflows failures
  = failures ++ map failure_entry (take (Z.to_nat (limit - i)) workflows).
Proof.
  induction workflows as [| run workflows IH]; intros i limit failures; cbn [first_failures].
  - rewrite take_nil. cbn. now rewrite app_nil_r.
  - destruct (Z.leb_spec limit i) as [Hle | Hlt].
    + replace (Z.to_nat (limit - i)) with 0%nat by lia. cbn. now rewrite app_nil_r.
    + rewrite IH. replace (Z.to_nat (limit - i)) with (S (Z.to_nat (limit - (i + 1)))) by lia.
      cbn [take map]. now rewrite <- app_assoc.
Qed.

(** X24: [get_recent_failures] answers the first runs of the listing.
    The method never raises; it answers the entries of the first
    [limit] runs of the listing, in order, all of them when there are
    fewer, and none when the limit is zero or negative or when GitHub
    fails. *)
Theorem get_recent_failures_takes
        {W : Type} (G : github_api W) (limit : Z) (st : state W) :
  let m := get_recent_failures G limit in
  match get_workflow_runs G "completed" "failure" (world st) with
  | (inl _, _) => outcome m st = inr []
  | (inr workflows, _) =>
      outcome m st = inr (map failure_entry (take (Z.to_nat limit) workflows)) /\
      (limit <= 0 -> outcome m st = inr [])
  end.
Proof.
  intros m. subst m. unfold get_recent_failures. run_monad.
  destruct (get_workflow_runs G "completed" "failure" (world st)) as [[e | workflows] w]; simpl;
    [reflexivity |].
  rewrite first_failures_take, Z.sub_0_r. cbn [app].
  split; [reflexivity |]. intros Hlimit.
  replace (Z.to_nat limit) with 0%nat by lia. reflexivity.
Qed.

End GitHubMonitorProperties.


(* ===================================================================== *)
(** * Properties of the database operations *)
(* ===================================================================== *)

Module DatabaseProperties.
Import Py Database.
Local Open Scope list_scope.

Lemma find_run_some run_id rows row :
  find_run run_id rows = Some row -> row ∈ rows /\ pr_run_id row = run_id.
Proof.
  unfold find_run. intros H. apply List.find_some in H. destruct H as [Hin Heq].
  split; [now apply list_elem_of_In | now apply bool_decide_eq_true in Heq].
Qed.

Lemma find_run_none run_id rows :
  find_run run_id rows = None -> run_id ∉ map pr_run_id rows.
Proof.
  unfold find_run. intros H Hin. apply list_elem_of_fmap in Hin.
  destruct Hin as (row & -> & Hrow). apply list_elem_of_In in Hrow.
  pose proof (List.find_none _ _ H row Hrow) as Hno. cbv beta in Hno.
  now rewrite bool_decide_eq_true_2 in Hno.
Qed.

Lemma write_back_cons updated row rows :
  write_back updated (row :: rows)
  = (if Z.eqb (pr_id row) (pr_id updated) then updated else row) :: write_back updated rows.
Proof. reflexivity. Qed.

(** A key that no row has: writing back changes nothing. *)
Lemma write_back_absent updated rows :
  pr_id updated ∉ map pr_id rows -> write_back updated rows = rows.
Proof.
  induction rows as [| row rows IH]; [reflexivity |]. rewrite write_back_cons. cbn [map].
  intros Hnot. apply not_elem_of_cons in Hnot. destruct Hnot as [Hne Hnot].
  destruct (Z.eqb_spec (pr_id row) (pr_id updated)); [congruence |].
  now rewrite IH.
Qed.

(** Writing back the row that [find_run] found: the row is found under
    its run id, and the other run ids find what they found. *)
Lemma find_run_write_back updated run_id rows existing :
  NoDup (map pr_id rows) ->
  find_run run_id rows = Some existing ->
  pr_id updated = pr_id existing ->
  pr_run_id updated = run_id ->
  find_run run_id (write_back updated rows) = Some updated /\
  map pr_run_id (write_back updated rows) = map pr_run_id rows /\
  map pr_id (write_back updated rows) = map pr_id rows /\
  length (write_back updated rows) = length rows /\
  forall other, other <> run_id ->
                find_run other (write_back updated rows) = find_run other rows.
Proof.
  intros Hnd Hfind Hid Hrun. induction rows as [| row rows IH]; [discriminate |].
  simpl in Hnd. apply NoDup_cons in Hnd. destruct Hnd as [Hfresh Hnd].
  unfold find_run in *. rewrite write_back_cons. cbn [List.find map] in *.
  destruct (bool_decide_reflect (pr_run_id row = run_id)) as [Hrow | Hrow].
  - injection Hfind as <-. rewrite Hid, Z.eqb_refl.
    rewrite write_back_absent by (rewrite Hid; exact Hfresh).
    cbn [List.find map length]. rewrite bool_decide_eq_true_2 by exact Hrun.
    split; [reflexivity |]. split; [now rewrite Hrun, Hrow |].
    split; [now rewrite Hid |]. split; [reflexivity |].
    intros other Hother.
    rewrite !bool_decide_eq_false_2 by congruence. reflexivity.
  - assert (Hin : existing ∈ rows).
    { apply list_elem_of_In. eapply List.find_some, Hfind. }
    destruct (Z.eqb_spec (pr_id row) (pr_id updated)) as [Heq | Hne].
    { exfalso. apply Hfresh. rewrite Heq, Hid. apply list_elem_of_fmap. now exists existing. }
    destruct (IH Hnd Hfind) as (Hf & Hr & Hi & Hl & Ho).
    cbn [List.find map length]. rewrite bool_decide_eq_false_2 by exact Hrow.
    split; [exact Hf |]. split; [now rewrite Hr |]. split; [now rewrite Hi |].
    split; [now rewrite Hl |].
    intros other Hother. destruct (bool_decide (pr_run_id row = other)); [reflexivity |].
    now apply Ho.
Qed.

Lemma find_run_app_new run_id rows new other :
  find_run run_id rows = None ->
  pr_run_id new = run_id ->
  find_run run_id (rows ++ [new]) = Some new /\
  (other <> run_id -> find_run other (rows ++ [new]) = find_run other rows).
Proof.
  intros Hnone Hnew. unfold find_run in *.
  induction rows as [| row rows IH]; cbn [List.find app] in *.
  - rewrite bool_decide_eq_true_2 by exact Hnew. split; [reflexivity |].
    intros Hother. rewrite bool_decide_eq_false_2 by congruence. reflexivity.
  - destruct (bool_decide (pr_run_id row = run_id)); [discriminate |].
    destruct (IH Hnone) as [Hf Ho]. split; [exact Hf |].
    intros Hother. destruct (bool_decide (pr_run_id row = other)); [reflexivity | auto].
Qed.

(** X25: [create_pipeline_run] inserts or updates, never duplicates.  On
    a connected database whose runs have distinct run ids, the method
    writes one row for the run id, with the status, the conclusion and
    the end date given: for a run id that is stored already, the stored
    row with its key, its repository, its start date and its date of
    creation; for a new run id, a new row with the repository and the
    start date given.  When the database refuses the row the method
    raises and the tables are as before.  Otherwise the row is what
    [get_pipeline_run] then finds, the run ids stay distinct, the rows
    of other run ids are found as before, and the table grows by one
    row exactly for a new run id.  The record answered for a new run id
    is loaded with the row; the record answered for an update is
    expired, so that reading its attributes raises. *)
Theorem create_pipeline_run_upserts
        (commit_check : PipelineRun -> result unit) (run_id : string)
        (repo status conclusion started_at completed_at : value) (now : Z) (d : db) :
  connected d = true ->
  well_keyed d ->
  let r := create_pipeline_run commit_check run_id repo status conclusion
                               started_at completed_at now d in
  let before := find_run run_id (pipeline_runs d) in
  exists row,
    pr_run_id row = run_id /\ pr_status row = status /\
    pr_conclusion row = conclusion /\ pr_completed_at row = completed_at /\
    match before with
    | Some old =>
        pr_id row = pr_id old /\ pr_repo row = pr_repo old /\
        pr_started_at row = pr_started_at old /\ pr_created_at row = pr_created_at old
    | None =>
        pr_repo row = repo /\ pr_started_at row = started_at /\ pr_created_at row = now
    end /\
    match commit_check row with
    | inl e => r = (inl e, d)
    | inr _ =>
        r.1 = inr (match before with Some _ => Expired | None => Loaded row end) /\
        well_keyed r.2 /\
        get_pipeline_run run_id r.2 = inr (Some row) /\
        (forall other, other <> run_id ->
                       find_run other (pipeline_runs r.2) = find_run other (pipeline_runs d)) /\
        length (pipeline_runs r.2)
        = match before with
          | Some _ => length (pipeline_runs d)
          | None => S (length (pipeline_runs d))
          end
    end.
Proof.
  intros Hc (Hruns & Hkeys & Hnext) r before. subst r before.
  unfold create_pipeline_run, get_pipeline_run, get_session. rewrite Hc.
  destruct (find_run run_id (pipeline_runs d)) as [existing |] eqn:Hfind; cbv zeta.
  - destruct (find_run_some _ _ _ Hfind) as [Hin Hrun].
    set (updated := Build_PipelineRun _ _ _ _ _ _ _ _).
    exists updated. split; [exact Hrun |]. do 3 (split; [reflexivity |]).
    split; [repeat split |].
    destruct (commit_check updated) as [e | []]; [reflexivity |].
    cbn [fst snd connected pipeline_runs next_id].
    destruct (find_run_write_back updated run_id (pipeline_runs d) existing Hkeys Hfind
                                  eq_refl Hrun) as (Hf & Hr & Hi & Hl & Ho).
    split; [reflexivity |].
    split.
    { unfold well_keyed. cbn [pipeline_runs next_id]. rewrite Hr, Hi.
      split; [exact Hruns |]. split; [exact Hkeys |].
      clear -Hnext. induction Hnext as [| row rows Hrow _ IH]; [constructor |].
      rewrite write_back_cons. constructor; [| exact IH].
      destruct (Z.eqb_spec (pr_id row) (pr_id updated)) as [Heq | _]; [| exact Hrow].
      rewrite <- Heq. exact Hrow. }
    split; [now rewrite Hf |]. split; [exact Ho | exact Hl].
  - set (new := Build_PipelineRun _ _ _ _ _ _ _ _).
    exists new. do 4 (split; [reflexivity |]). split; [repeat split |].
    destruct (commit_check new) as [e | []]; [reflexivity |].
    cbn [fst snd connected pipeline_runs next_id].
    split; [reflexivity |].
    split.
    { unfold well_keyed. subst new. cbn [pipeline_runs next_id]. rewrite !map_app.
      cbn [map pr_run_id pr_id].
      split; [| split].
      - apply NoDup_app. split; [exact Hruns |]. split; [| apply NoDup_singleton].
        intros x Hx Hx'. apply list_elem_of_singleton in Hx'. subst x.
        now apply find_run_none in Hfind.
      - apply NoDup_app. split; [exact Hkeys |]. split; [| apply NoDup_singleton].
        intros x Hx Hx'. apply list_elem_of_singleton in Hx'. subst x.
        apply list_elem_of_fmap in Hx. destruct Hx as (row & Hid & Hrow).
        rewrite Forall_forall in Hnext. specialize (Hnext row Hrow). lia.
      - apply Forall_app. split.
        + eapply Forall_impl; [exact Hnext |]. cbv beta. intros row Hrow. lia.
        + repeat constructor. cbn [pr_id]. lia. }
    split.
    { f_equal. apply (proj1 (find_run_app_new run_id _ new run_id Hfind eq_refl)). }
    split.
    { intros other Hother. apply (proj2 (find_run_app_new run_id _ new other Hfind eq_refl) Hother). }
    rewrite length_app. simpl. lia.
Qed.

(** A database with one stored run and no constraint refused: the event
    of its completion updates the row, keeps the repository it was
    stored with, and answers a record that cannot be read. *)
Lemma create_pipeline_run_upserts_witness :
  let stored := {| pr_id := 1; pr_run_id := "7"; pr_repo := VStr "acme/app";
                   pr_status := VStr "in_progress"; pr_conclusion := VNone;
                   pr_started_at := VStr "2025-01-01T00:00:00Z"; pr_completed_at := VNone;
                   pr_created_at := 100 |} in
  let d := {| connected := true; pipeline_runs := [stored]; failure_logs := [];
              healing_actions := []; metrics := []; next_id := 2 |} in
  let r := create_pipeline_run (fun _ => inr tt) "7" (VStr "other/repo") (VStr "completed")
                               (VStr "failure") (VStr "2025-02-02T00:00:00Z")
                               (VStr "2025-01-01T00:10:00Z") 200 d in
  exists record row,
    r.1 = inr record /\ read pr_run_id record = inl "DetachedInstanceError" /\
    get_pipeline_run "7" r.2 = inr (Some row) /\
    pr_status row = VStr "completed" /\ pr_repo row = VStr "acme/app" /\
    length (pipeline_runs r.2) = 1%nat.
Proof.
  intros stored d r.
  assert (Hd : well_keyed d).
  { unfold well_keyed. simpl. repeat split; repeat constructor; try lia.
    all: intros H; now apply elem_of_nil in H. }
  destruct (create_pipeline_run_upserts
              (fun _ => inr tt) "7" (VStr "other/repo") (VStr "completed") (VStr "failure")
              (VStr "2025-02-02T00:00:00Z") (VStr "2025-01-01T00:10:00Z") 200 d
              eq_refl Hd)
    as (row & _ & Hstatus & _ & _ & Hold & Hwritten).
  change (find_run "7" (pipeline_runs d)) with (Some stored) in Hold, Hwritten.
  cbv beta iota in Hwritten.
  destruct Hold as (_ & Hrepo & _). destruct Hwritten as (Hanswer & _ & Hget & _ & Hlen).
  exists Expired, row. split; [exact Hanswer |]. split; [reflexivity |].
  repeat split; assumption.
Defined.

(** ** Cleaning up *)

Lemma same_run_id rows a b :
  NoDup (map pr_run_id rows) -> a ∈ rows -> b ∈ rows -> pr_run_id a = pr_run_id b -> a = b.
Proof.
  induction rows as [| row rows IH]; cbn [map]; intros Hnd Ha Hb Heq.
  - now apply elem_of_nil in Ha.
  - apply NoDup_cons in Hnd. destruct Hnd as [Hfresh Hnd].
    apply elem_of_cons in Ha. apply elem_of_cons in Hb.
    destruct Ha as [-> | Ha], Hb as [-> | Hb]; [reflexivity | | | now apply IH].
    + exfalso. apply Hfresh. rewrite Heq. apply list_elem_of_fmap. now exists b.
    + exfalso. apply Hfresh. rewrite <- Heq. apply list_elem_of_fmap. now exists a.
Qed.

Lemma elem_of_filter_list {A} (f : A -> bool) (l : list A) (x : A) :
  x ∈ List.filter f l <-> x ∈ l /\ f x = true.
Proof. rewrite !list_elem_of_In. apply List.filter_In. Qed.

Lemma filter_keeps_all {A} (f : A -> bool) (l : list A) :
  (forall x, f x = true) -> List.filter f l = l.
Proof.
  intros Hf. induction l as [| x l IH]; simpl; [reflexivity |]. now rewrite Hf, IH.
Qed.

Lemma nodup_map_filter {A B} (g : A -> B) (f : A -> bool) (l : list A) :
  NoDup (map g l) -> NoDup (map g (List.filter f l)).
Proof.
  induction l as [| x l IH]; cbn [map List.filter]; [auto |].
  intros Hnd. apply NoDup_cons in Hnd. destruct Hnd as [Hfresh Hnd].
  destruct (f x); [| auto]. cbn [map]. apply NoDup_cons. split; [| auto].
  intros Hin. apply Hfresh. apply list_elem_of_fmap in Hin.
  destruct Hin as (y & Hy & Hin). apply elem_of_filter_list in Hin.
  apply list_elem_of_fmap. exists y. tauto.
Qed.

(** What the cleanup leaves in the tables: the rows that do not refer
    to a run created before the cutoff, and the recent metrics. *)
Lemma cleanup_old_data_tables (days now : Z) (d : db) :
  connected d = true ->
  let cutoff := now - days_in_seconds days in
  let old run_id := exists run, run ∈ pipeline_runs d /\ pr_created_at run < cutoff /\
                                pr_run_id run = run_id in
  let d' := (cleanup_old_data days now d).2 in
  exists keep : string -> bool,
    (forall x, keep x = true <-> ~ old x) /\
    (cleanup_old_data days now d).1 = inr tt /\
    connected d' = true /\
    pipeline_runs d' = List.filter (fun run => keep (pr_run_id run)) (pipeline_runs d) /\
    failure_logs d' = List.filter (fun log => keep (fl_run_id log)) (failure_logs d) /\
    healing_actions d' = List.filter (fun a => keep (ha_run_id a)) (healing_actions d) /\
    metrics d' = List.filter (fun m => negb (Z.ltb (me_timestamp m) cutoff)) (metrics d) /\
    next_id d' = next_id d.
Proof.
  intros Hc cutoff old d'.
  set (run_ids := map pr_run_id
                      (List.filter (fun run => Z.ltb (pr_created_at run) cutoff)
                                   (pipeline_runs d))).
  assert (Hids : forall x, in_ids run_ids x = true <-> old x).
  { intros x. unfold in_ids. rewrite bool_decide_eq_true. subst run_ids old. cbv beta.
    rewrite list_elem_of_fmap. split.
    - intros (run & -> & Hrun). apply elem_of_filter_list in Hrun.
      destruct Hrun as [Hin Hold]. apply Z.ltb_lt in Hold. now exists run.
    - intros (run & Hin & Hold & <-). exists run. split; [reflexivity |].
      apply elem_of_filter_list. split; [exact Hin | now apply Z.ltb_lt]. }
  exists (fun x => negb (in_ids run_ids x)). split.
  { intros x. rewrite negb_true_iff, <- Hids. destruct (in_ids run_ids x); split; congruence. }
  subst d'. unfold cleanup_old_data, get_session. rewrite Hc. cbv zeta.
  fold cutoff. fold run_ids.
  destruct run_ids as [| x ids] eqn:Hrun_ids; cbn [fst snd connected pipeline_runs failure_logs
                                                    healing_actions metrics next_id].
  - rewrite !filter_keeps_all by reflexivity. repeat split.
  - repeat split.
Qed.

(** X26: the cleanup removes old runs and what refers to them, and
    nothing else.  On a connected database whose runs have distinct run
    ids, [cleanup_old_data] keeps exactly the runs created at or after
    the cutoff and the metrics stamped at or after it; it keeps exactly
    the failure logs and the healing actions that do not refer to a run
    created before the cutoff, whatever their own age; if every log and
    action referred to a stored run before, the same holds after. *)
Theorem cleanup_old_data_keeps_recent (days now : Z) (d : db) :
  connected d = true ->
  well_keyed d ->
  let cutoff := now - days_in_seconds days in
  let old run_id := exists run, run ∈ pipeline_runs d /\ pr_created_at run < cutoff /\
                                pr_run_id run = run_id in
  let d' := (cleanup_old_data days now d).2 in
  (cleanup_old_data days now d).1 = inr tt /\
  (forall run, run ∈ pipeline_runs d' <-> run ∈ pipeline_runs d /\ cutoff <= pr_created_at run) /\
  (forall m, m ∈ metrics d' <-> m ∈ metrics d /\ cutoff <= me_timestamp m) /\
  (forall log, log ∈ failure_logs d' <-> log ∈ failure_logs d /\ ~ old (fl_run_id log)) /\
  (forall a, a ∈ healing_actions d' <-> a ∈ healing_actions d /\ ~ old (ha_run_id a)) /\
  (referenced d -> referenced d') /\
  well_keyed d'.
Proof.
  intros Hc (Hruns & Hkeys & Hnext) cutoff old d'.
  destruct (cleanup_old_data_tables days now d Hc)
    as (keep & Hnot & Hout & _ & Hr & Hl & Ha & Hm & Hn).
  fold cutoff in Hnot, Hm. fold d' in Hr, Hl, Ha, Hm, Hn.
  assert (Hrun_kept : forall run,
             run ∈ pipeline_runs d' <-> run ∈ pipeline_runs d /\ cutoff <= pr_created_at run).
  { intros run. rewrite Hr, elem_of_filter_list, Hnot. split.
    - intros [Hin Hold]. split; [exact Hin |].
      destruct (Z.lt_ge_cases (pr_created_at run) cutoff) as [Hlt | Hge]; [| exact Hge].
      exfalso. apply Hold. now exists run.
    - intros [Hin Hge]. split; [exact Hin |]. intros (run' & Hin' & Hold' & Heq).
      assert (run' = run) by (eapply same_run_id; eassumption). subst run'. lia. }
  split; [exact Hout |]. split; [exact Hrun_kept |].
  split.
  { intros m. rewrite Hm, elem_of_filter_list, negb_true_iff, Z.ltb_ge. reflexivity. }
  split; [intros log; now rewrite Hl, elem_of_filter_list, Hnot |].
  split; [intros a; now rewrite Ha, elem_of_filter_list, Hnot |].
  split.
  - intros [Hlogs Hactions]. unfold referenced.
    rewrite Hl, Ha. split; apply Forall_forall.
    + intros log Hlog. apply elem_of_filter_list in Hlog. destruct Hlog as [Hin Hkeep].
      rewrite Forall_forall in Hlogs. specialize (Hlogs log Hin).
      apply list_elem_of_fmap in Hlogs. destruct Hlogs as (run & Heq & Hrun).
      apply list_elem_of_fmap. exists run. split; [exact Heq |].
      rewrite Hr. apply elem_of_filter_list. split; [exact Hrun | now rewrite <- Heq].
    + intros a Ha'. apply elem_of_filter_list in Ha'. destruct Ha' as [Hin Hkeep].
      rewrite Forall_forall in Hactions. specialize (Hactions a Hin).
      apply list_elem_of_fmap in Hactions. destruct Hactions as (run & Heq & Hrun).
      apply list_elem_of_fmap. exists run. split; [exact Heq |].
      rewrite Hr. apply elem_of_filter_list. split; [exact Hrun | now rewrite <- Heq].
  - unfold well_keyed. rewrite Hr, Hn.
    split; [now apply nodup_map_filter |]. split; [now apply nodup_map_filter |].
    apply Forall_forall. intros run Hrun. apply elem_of_filter_list in Hrun.
    rewrite Forall_forall in Hnext. now apply Hnext.
Qed.

(** Ten days of retention on the hundredth day: the run of day zero
    goes with its failure log, the run of day ninety-five stays with
    its own. *)
Lemma cleanup_old_data_keeps_recent_witness :
  let run key run_id created :=
    {| pr_id := key; pr_run_id := run_id; pr_repo := VStr "acme/app";
       pr_status := VStr "completed"; pr_conclusion := VStr "failure";
       pr_started_at := VStr "start"; pr_completed_at := VNone; pr_created_at := created |} in
  let log key run_id created :=
    {| fl_id := key; fl_run_id := run_id; fl_error_type := VStr "test_timeout";
       fl_error_message := VNone; fl_stack_trace := VNone; fl_severity := VStr "medium";
       fl_created_at := created |} in
  let d := {| connected := true;
              pipeline_runs := [run 1 "100" 0; run 2 "200" (95 * 86400)];
              failure_logs := [log 1 "100" 60; log 2 "200" (95 * 86400 + 60)];
              healing_actions := []; metrics := []; next_id := 3 |} in
  let d' := (cleanup_old_data 10 (100 * 86400) d).2 in
  run 2 "200" (95 * 86400) ∈ pipeline_runs d' /\
  ~ run 1 "100" 0 ∈ pipeline_runs d' /\
  ~ log 1 "100" 60 ∈ failure_logs d' /\
  well_keyed d'.
Proof.
  intros run log d d'.
  assert (Hd : well_keyed d).
  { unfold well_keyed. simpl. repeat split; repeat constructor; try lia.
    all: intros H; repeat (apply elem_of_cons in H; destruct H as [H | H]; [discriminate |]).
    all: now apply elem_of_nil in H. }
  destruct (cleanup_old_data_keeps_recent 10 (100 * 86400) d eq_refl Hd)
    as (_ & Hruns & _ & Hlogs & _ & _ & Hkeyed).
  split; [| split; [| split]].
  - apply Hruns. split; [apply list_elem_of_further, list_elem_of_here |].
    vm_compute. discriminate.
  - intros H. apply Hruns in H. destruct H as [_ H]. vm_compute in H. now apply H.
  - intros H. apply Hlogs in H. destruct H as [_ H]. apply H.
    exists (run 1 "100" 0). split; [apply list_elem_of_here |]. split; [| reflexivity].
    vm_compute. reflexivity.
  - exact Hkeyed.
Defined.

(** ** The history of a run *)

Lemma find_run_filter_kept (q : PipelineRun -> bool) run_id rows run :
  find_run run_id rows = Some run -> q run = true ->
  find_run run_id (List.filter q rows) = Some run.
Proof.
  unfold find_run. induction rows as [| row rows IH]; cbn [List.find List.filter]; [discriminate |].
  intros Hfind Hq. destruct (bool_decide (pr_run_id row = run_id)) eqn:Hrow.
  - injection Hfind as ->. rewrite Hq. cbn [List.find]. now rewrite Hrow.
  - destruct (q row); [cbn [List.find]; rewrite Hrow |]; now apply IH.
Qed.

Lemma find_run_filter_dropped (q : PipelineRun -> bool) run_id rows :
  (forall row, row ∈ rows -> pr_run_id row = run_id -> q row = false) ->
  find_run run_id (List.filter q rows) = None.
Proof.
  intros Hq. destruct (find_run run_id (List.filter q rows)) as [row |] eqn:Hfind; [| reflexivity].
  apply find_run_some in Hfind. destruct Hfind as [Hin Hrow].
  apply elem_of_filter_list in Hin. destruct Hin as [Hin Hkept].
  rewrite (Hq row Hin Hrow) in Hkept. discriminate.
Qed.

Lemma filter_filter_implied {A} (p q : A -> bool) (l : list A) :
  (forall x, p x = true -> q x = true) ->
  List.filter p (List.filter q l) = List.filter p l.
Proof.
  intros Hpq. induction l as [| x l IH]; cbn [List.filter]; [reflexivity |].
  destruct (q x) eqn:Hq; cbn [List.filter]; destruct (p x) eqn:Hp; try now rewrite IH.
  rewrite (Hpq x Hp) in Hq. discriminate.
Qed.

(** X28: the cleanup forgets old runs entirely and leaves the history of
    the others as it was.  On a connected database whose runs have
    distinct run ids, [get_healing_history] after [cleanup_old_data]
    answers [None] for a run created before the cutoff, as it does for
    a run that was never stored, and for every other run the history it
    answered before: the failure logs and the healing actions of a run
    that stays are kept, whatever their age. *)
Theorem cleanup_old_data_forgets_history (days now : Z) (d : db) (run_id : string) :
  connected d = true ->
  well_keyed d ->
  let cutoff := now - days_in_seconds days in
  let d' := (cleanup_old_data days now d).2 in
  get_healing_history run_id d'
  = match find_run run_id (pipeline_runs d) with
    | Some run =>
        if Z.ltb (pr_created_at run) cutoff then inr None else get_healing_history run_id d
    | None => inr None
    end.
Proof.
  intros Hc (Hruns & _ & _) cutoff d'.
  destruct (cleanup_old_data_tables days now d Hc)
    as (keep & Hkeep & _ & Hc' & Hr & Hl & Ha & _ & _).
  fold cutoff in Hkeep. fold d' in Hc', Hr, Hl, Ha.
  unfold get_healing_history, get_session. rewrite Hc, Hc', Hr, Hl, Ha.
  destruct (find_run run_id (pipeline_runs d)) as [run |] eqn:Hfind.
  - destruct (find_run_some _ _ _ Hfind) as [Hin Hrun].
    destruct (Z.ltb_spec (pr_created_at run) cutoff) as [Hold | Hrecent].
    + rewrite find_run_filter_dropped; [reflexivity |].
      intros row _ Hrow. destruct (keep (pr_run_id row)) eqn:Hkept; [| reflexivity].
      exfalso. apply Hkeep in Hkept. apply Hkept. exists run. rewrite Hrow. now repeat split.
    + assert (Hkept : keep run_id = true).
      { apply Hkeep. intros (run' & Hin' & Hold' & Hrun').
        assert (run' = run) by (eapply same_run_id; [exact Hruns | | | congruence]; assumption).
        subst run'. lia. }
      rewrite (find_run_filter_kept _ _ _ run Hfind) by (now rewrite Hrun).
      rewrite !filter_filter_implied; [reflexivity | |].
      all: intros x Hx; apply String.eqb_eq in Hx; now rewrite Hx.
  - rewrite find_run_filter_dropped; [reflexivity |].
    intros row Hin Hrow. exfalso. apply find_run_none in Hfind. apply Hfind.
    apply list_elem_of_fmap. now exists row.
Qed.

(** Ten days of retention on the hundredth day: the history of the run
    of day zero is gone, the history of the run of day ninety-five is
    what it was. *)
Lemma cleanup_old_data_forgets_history_witness :
  let run key run_id created :=
    {| pr_id := key; pr_run_id := run_id; pr_repo := VStr "acme/app";
       pr_status := VStr "completed"; pr_conclusion := VStr "failure";
       pr_started_at := VStr "start"; pr_completed_at := VNone; pr_created_at := created |} in
  let log key run_id created :=
    {| fl_id := key; fl_run_id := run_id; fl_error_type := VStr "test_timeout";
       fl_error_message := VNone; fl_stack_trace := VNone; fl_severity := VStr "medium";
       fl_created_at := created |} in
  let d := {| connected := true;
              pipeline_runs := [run 1 "100" 0; run 2 "200" (95 * 86400)];
              failure_logs := [log 1 "100" 60; log 2 "200" (95 * 86400 + 60)];
              healing_actions := []; metrics := []; next_id := 3 |} in
  let d' := (cleanup_old_data 10 (100 * 86400) d).2 in
  get_healing_history "100" d' = inr None /\
  get_healing_history "200" d' = get_healing_history "200" d.
Proof.
  intros run log d d'.
  assert (Hd : well_keyed d).
  { unfold well_keyed. simpl. repeat split; repeat constructor; try lia.
    all: intros H; repeat (apply elem_of_cons in H; destruct H as [H | H]; [discriminate |]).
    all: now apply elem_of_nil in H. }
  split.
  - exact (cleanup_old_data_forgets_history 10 (100 * 86400) d "100" eq_refl Hd).
  - exact (cleanup_old_data_forgets_history 10 (100 * 86400) d "200" eq_refl Hd).
Defined.

End DatabaseProperties.


(* ===================================================================== *)
(** * Properties of the Kubernetes healer *)
(* ===================================================================== *)

Module KubernetesProperties.
Import Py Eff EngineStrategies KubernetesHealer Sim SimMore.
Import EngineProperties.
Local Open Scope list_scope.
Local Open Scope eff_scope.

(** Whitespace ends a word: the words of a text around a whitespace
    character are the words before it and the words after it. *)
Lemma split_chars_space a c b : forall word,
  is_space c = true ->
  split_chars word (a ++ c :: b) = split_chars word a ++ split_chars [] b.
Proof.
  induction a as [| x a IH]; intros word Hc; cbn [app split_chars].
  - rewrite Hc. now destruct word.
  - destruct (is_space x).
    + destruct word; cbn [app]; now rewrite IH.
    + now apply IH.
Qed.

Lemma split_space a b : split (a +:+ " " +:+ b) = split a ++ split b.
Proof.
  unfold split. rewrite chars_app. change (chars (" " +:+ b)) with (" "%char :: chars b).
  now apply split_chars_space.
Qed.

(** A text without whitespace is one word, with what was read before. *)
Lemma split_chars_unbroken s : forall word,
  Forall (fun c => is_space c = false /\ Nat.ltb (nat_of_ascii c) 128 = true) s ->
  split_chars word s = match rev word ++ s with [] => [] | w => [str w] end.
Proof.
  induction s as [| c s IH]; intros word Hs; cbn [split_chars].
  - rewrite app_nil_r. destruct word as [| x word]; [reflexivity |].
    destruct (rev (x :: word)) eqn:Hrev; [| reflexivity].
    apply (f_equal (@length _)) in Hrev. rewrite length_rev in Hrev. discriminate.
  - apply Forall_cons in Hs. destruct Hs as [[Hc _] Hs]. rewrite Hc, IH by exact Hs.
    cbn [rev]. now rewrite <- app_assoc.
Qed.

Lemma split_unbroken prefix s :
  prefix <> "" -> unbroken prefix -> unbroken s -> split (prefix +:+ s) = [prefix +:+ s].
Proof.
  intros Hne Hp Hs. unfold split. rewrite split_chars_unbroken.
  - cbn [rev app]. destruct (chars (prefix +:+ s)) eqn:Hchars.
    + exfalso. apply Hne. rewrite chars_app in Hchars. apply app_eq_nil in Hchars.
      rewrite <- (str_chars prefix). now rewrite (proj1 Hchars).
    + now rewrite <- Hchars, str_chars.
  - rewrite chars_app. apply Forall_app. now split.
Qed.

Lemma append_assoc (a b c : string) : (a +:+ b) +:+ c = a +:+ (b +:+ c).
Proof.
  rewrite <- (str_chars ((a +:+ b) +:+ c)), <- (str_chars (a +:+ b +:+ c)).
  now rewrite !chars_app, app_assoc.
Qed.

Section Commands.
Context {W : Type}.
Variable C' : more_collaborators W.
Variable heal_metric_available : bool.

(** The shape the three methods share. *)
Lemma runs_command_shape (argv : list string) (on_success : completed_process -> dict)
      (on_failure : completed_process -> dict) (on_error : exn -> dict) :
  (forall p, reports (on_success p) /\ get (on_success p) "success" = VBool true) ->
  (forall p, reports (on_failure p) /\ get (on_failure p) "success" = VBool false) ->
  (forall e, reports (on_error e) /\ get (on_error e) "success" = VBool false) ->
  runs_command C' heal_metric_available argv
    (try_catch
       (result <- call (subprocess_run C' argv) ;;
        if Z.eqb (returncode result) 0 then
          count_heal_action heal_metric_available ;;; ret (on_success result)
        else ret (on_failure result))
       (fun e => ret (on_error e))).
Proof.
  intros Hs Hf He st r. subst r.
  unfold runs_command, outcome, state_after, events, try_catch, bind, call, ret,
    count_heal_action, emit.
  destruct (subprocess_run C' argv (world st)) as [[e | p] w] eqn:Hrun; cbn.
  - split; [reflexivity |]. exists (on_error e). destruct (He e) as [Hrep Hfalse].
    split; [reflexivity |]. split; [exact Hrep |]. rewrite Hfalse. split; [| reflexivity].
    split; [discriminate | intros (p & Hp & _); discriminate].
  - destruct (Z.eqb_spec (returncode p) 0) as [Hzero | Hnonzero].
    + destruct (Hs p) as [Hrep Htrue]. destruct heal_metric_available; cbn.
      all: split; [reflexivity |]; exists (on_success p).
      all: split; [reflexivity |]; split; [exact Hrep |]; rewrite Htrue.
      all: split; [| reflexivity]; split; [intros _; now exists p | reflexivity].
    + destruct (Hf p) as [Hrep Hfalse]. cbn. split; [reflexivity |]. exists (on_failure p).
      split; [reflexivity |]. split; [exact Hrep |]. rewrite Hfalse. split; [| reflexivity].
      split; [discriminate |]. intros (p' & Hp' & Hzero). injection Hp' as <-. contradiction.
Qed.

End Commands.

Ltac reported :=
  intros ?; split;
  [ unfold reports; do 2 eexists;
    split; [apply lookup_insert_eq | rewrite lookup_insert_ne by discriminate; apply lookup_insert_eq]
  | unfold get; now rewrite lookup_insert_eq ].

(** X27: the command lines of the Kubernetes healer.  Each of
    [rollback_deployment], [scale_deployment] and [restart_pods] runs
    one command and never raises; it reports success exactly when the
    command returns with code zero, and counts a healing action exactly
    then.  The arguments of the command are the words [kubectl],
    [rollout undo] (or [scale], or [rollout restart]), then the words
    of [deployment/<name>] (and of [--replicas=<n>]), then [-n], then
    the words of the namespace: a name or a namespace with whitespace
    in it gives several arguments, an empty namespace gives none, and a
    name and a non-empty namespace of ASCII characters without
    whitespace give one argument each. *)
Theorem kubectl_command_lines {W : Type} (C' : more_collaborators W)
        (heal_metric_available : bool) (name namespace : string) (replicas : value) :
  let target := split ("deployment/" +:+ name) in
  runs_command C' heal_metric_available
    (["kubectl"; "rollout"; "undo"] ++ target ++ ["-n"] ++ split namespace)
    (rollback_deployment C' heal_metric_available name namespace) /\
  runs_command C' heal_metric_available
    (["kubectl"; "scale"] ++ target
       ++ split ("--replicas=" +:+ HealingEngine.format_value replicas)
       ++ ["-n"] ++ split namespace)
    (scale_deployment C' heal_metric_available name replicas namespace) /\
  runs_command C' heal_metric_available
    (["kubectl"; "rollout"; "restart"] ++ target ++ ["-n"] ++ split namespace)
    (restart_pods C' heal_metric_available name namespace) /\
  (unbroken name -> target = ["deployment/" +:+ name]) /\
  (unbroken namespace -> namespace <> "" -> split namespace = [namespace]) /\
  (namespace = "" -> split namespace = []).
Proof.
  intros target.
  split; [| split; [| split; [| split; [| split]]]].
  - assert (Hargv : split ("kubectl rollout undo deployment/" +:+ name +:+ " -n " +:+ namespace)
                    = ["kubectl"; "rollout"; "undo"] ++ target ++ ["-n"] ++ split namespace).
    { change ("kubectl rollout undo deployment/" +:+ name +:+ " -n " +:+ namespace)
        with ("kubectl" +:+ " " +:+ "rollout" +:+ " " +:+ "undo" +:+ " "
              +:+ ("deployment/" +:+ (name +:+ " " +:+ "-n" +:+ " " +:+ namespace))).
      rewrite <- (append_assoc "deployment/" name). rewrite !split_space. reflexivity. }
    unfold rollback_deployment. cbv zeta. rewrite Hargv.
    apply runs_command_shape; reported.
  - assert (Hargv : split ("kubectl scale deployment/" +:+ name +:+ " --replicas="
                           +:+ HealingEngine.format_value replicas +:+ " -n " +:+ namespace)
                    = ["kubectl"; "scale"] ++ target
                        ++ split ("--replicas=" +:+ HealingEngine.format_value replicas)
                        ++ ["-n"] ++ split namespace).
    { change ("kubectl scale deployment/" +:+ name +:+ " --replicas="
              +:+ HealingEngine.format_value replicas +:+ " -n " +:+ namespace)
        with ("kubectl" +:+ " " +:+ "scale" +:+ " "
              +:+ ("deployment/" +:+ (name +:+ " "
                   +:+ ("--replicas=" +:+ (HealingEngine.format_value replicas +:+ " "
                        +:+ "-n" +:+ " " +:+ namespace))))).
      rewrite <- (append_assoc "deployment/" name).
      rewrite <- (append_assoc "--replicas=" (HealingEngine.format_value replicas)).
      rewrite !split_space. reflexivity. }
    unfold scale_deployment. cbv zeta. rewrite Hargv.
    apply runs_command_shape; reported.
  - assert (Hargv : split ("kubectl rollout restart deployment/" +:+ name +:+ " -n "
                           +:+ namespace)
                    = ["kubectl"; "rollout"; "restart"] ++ target ++ ["-n"] ++ split namespace).
    { change ("kubectl rollout restart deployment/" +:+ name +:+ " -n " +:+ namespace)
        with ("kubectl" +:+ " " +:+ "rollout" +:+ " " +:+ "restart" +:+ " "
              +:+ ("deployment/" +:+ (name +:+ " " +:+ "-n" +:+ " " +:+ namespace))).
      rewrite <- (append_assoc "deployment/" name). rewrite !split_space. reflexivity. }
    unfold restart_pods. cbv zeta. rewrite Hargv.
    apply runs_command_shape; reported.
  - intros Hname. subst target. apply split_unbroken; [discriminate | | exact Hname].
    unfold unbroken, chars. cbn [list_ascii_of_string].
    repeat (constructor; [split; reflexivity |]). constructor.
  - intros Hns Hne.
    replace namespace with (namespace +:+ EmptyString)
      by (rewrite <- (str_chars (namespace +:+ EmptyString)), chars_app, app_nil_r;
          apply str_chars).
    apply split_unbroken; [exact Hne | exact Hns | constructor].
  - intros ->. reflexivity.
Qed.

(** The rollback of the deployment [web] in the namespace [prod]. *)
Lemma kubectl_command_lines_witness :
  split "deployment/web" = ["deployment/web"] /\
  split "prod" = ["prod"] /\
  runs_command github_more true
    ["kubectl"; "rollout"; "undo"; "deployment/web"; "-n"; "prod"]
    (rollback_deployment github_more true "web" "prod").
Proof.
  pose proof (kubectl_command_lines github_more true "web" "prod" (VInt 3)) as H.
  cbv zeta in H. destruct H as (Hrollback & _ & _ & Hname & Hnamespace & _).
  assert (Hweb : unbroken "web").
  { unfold unbroken, chars. cbn [list_ascii_of_string].
    repeat (constructor; [split; reflexivity |]). constructor. }
  assert (Hprod : unbroken "prod").
  { unfold unbroken, chars. cbn [list_ascii_of_string].
    repeat (constructor; [split; reflexivity |]). constructor. }
  specialize (Hname Hweb). specialize (Hnamespace Hprod ltac:(discriminate)).
  split; [exact Hname |]. split; [exact Hnamespace |].
  rewrite Hname, Hnamespace in Hrollback. exact Hrollback.
Defined.

End KubernetesProperties.


(* ===================================================================== *)
(** * Properties of the loading of the models *)
(* ===================================================================== *)

Module ModelLoadingProperties.
Import Py Predictor ModelLoading.
Local Open Scope list_scope.

Lemma load_model_usable files p : usable p -> usable (load_model files p).2.
Proof.
  unfold usable, is_loaded, load_model. intros [Hloaded Hhealing].
  destruct (failure_predictor_pkl files) as [[e | model] |]; cbn; [now split | | now split].
  destruct (scaler_pkl files) as [e | transform]; cbn.
  - split; [| exact Hhealing]. intros H. split; [discriminate | now apply Hloaded].
  - destruct (healing_predictor_pkl files) as [[e | healing] |]; cbn.
    all: split; intros; try split; discriminate.
Qed.

Lemma reloaded_snoc history files p :
  reloaded (history ++ [files]) p = (load_model files (reloaded history p)).2.
Proof. unfold reloaded. now rewrite fold_left_app. Qed.

(** X29: loading keeps the predictor usable, and never unloads it.
    After any number of calls of [load_model] on a new predictor,
    whatever the directory held at each call, a predictor that says it
    is loaded has a failure model and a scaler, and a predictor with a
    healing model has a scaler.  A call answers [True] exactly when
    the failure model exists and every file that is read loads; the
    predictor then holds the failure model and the scaler of the
    directory, and its healing model, or the one it had when the
    directory has none.  A call that answers [False] leaves a loaded
    predictor loaded and the healing model as it was, but it has
    replaced the failure model when that file loaded, and the scaler
    when both files loaded. *)
Theorem load_model_keeps_usable
        (clock : string -> result (Z * Z * Z)) (history : list model_files)
        (files : model_files) :
  let p := reloaded history (new_predictor clock) in
  let answer := (load_model files p).1 in
  let p' := (load_model files p).2 in
  usable p /\ usable p' /\
  (answer = true <-> complete files) /\
  (answer = true ->
   is_loaded p' = true /\
   (exists model,
      failure_predictor_pkl files = Some (inr model) /\ failure_model p' = Some model) /\
   (exists transform, scaler_pkl files = inr transform /\ scaler p' = Some transform) /\
   healing_model p'
   = match healing_predictor_pkl files with
     | Some (inr healing) => Some healing
     | _ => healing_model p
     end) /\
  (answer = false ->
   is_loaded p' = is_loaded p /\ healing_model p' = healing_model p /\
   failure_model p'
   = match failure_predictor_pkl files with
     | Some (inr model) => Some model
     | _ => failure_model p
     end /\
   scaler p'
   = match failure_predictor_pkl files, scaler_pkl files with
     | Some (inr _), inr transform => Some transform
     | _, _ => scaler p
     end).
Proof.
  intros p answer p'.
  assert (Hp : usable p).
  { subst p. induction history as [| files' history IH] using rev_ind.
    - split; cbn; [discriminate | congruence].
    - rewrite reloaded_snoc. now apply load_model_usable. }
  split; [exact Hp |]. split; [now apply load_model_usable |].
  subst answer p'. unfold complete, load_model, is_loaded.
  destruct (failure_predictor_pkl files) as [[e | model] |]; cbn.
  1,3: split; [split; [discriminate | intros ((model & H) & _); discriminate] |];
       split; [discriminate | intros _; repeat split].
  destruct (scaler_pkl files) as [e | transform]; cbn.
  { split; [split; [discriminate | intros (_ & (t & H) & _); discriminate] |].
    split; [discriminate | intros _; repeat split]. }
  destruct (healing_predictor_pkl files) as [[e | healing] |]; cbn.
  - split; [split; [discriminate | intros (_ & _ & H); now destruct (H e)] |].
    split; [discriminate | intros _; repeat split].
  - split; [split; [intros _ | reflexivity] |].
    { split; [now exists model |]. split; [now exists transform | discriminate]. }
    split; [intros _ | discriminate].
    split; [reflexivity |]. split; [now exists model |]. split; [now exists transform |].
    reflexivity.
  - split; [split; [intros _ | reflexivity] |].
    { split; [now exists model |]. split; [now exists transform | discriminate]. }
    split; [intros _ | discriminate].
    split; [reflexivity |]. split; [now exists model |]. split; [now exists transform |].
    reflexivity.
Qed.

End ModelLoadingProperties.
